(** * SilentCoderHub blog: metadata extraction, indexing and loading

    A shallow embedding of the two JavaScript programs of the repository:

    - [generate-posts-index.js], the offline indexer
      ([extractMetadata], [generatePostsIndex]), in [Module Indexer];
    - the browser script ([loadAllPosts], [fetchPostsFromIndex],
      [discoverPosts], [parsePostHTML] and the [extract*] helpers,
      [getSamplePosts]; the page: [displayPosts], [handleSearch],
      [loadMorePosts], [updateCategories], [updateTags]), in
      [Module Script].

    What the programs take from their platform is modelled in
    [Module Js] (strings, exceptions, the clock, [Array.prototype.sort])
    and [Module Dom] (the parsed document and its selector queries); the
    HTML parser itself is outside: the builders start from the parsed
    document and its mode.  Where the language leaves the result of a
    sort to the engine, the engine is a parameter ([Js.Engine]) of the
    programs and of the properties; [Js.V8] is the one Node.js runs.  [Module Spec] holds the vocabulary of the properties and
    [Module Examples] the concrete documents, clocks and directories they
    are checked on.

    Strings are Rocq strings: one [ascii] stands for one UTF-16 code unit,
    so [String.length] is the JavaScript [length] for text in the Latin-1
    range. *)

From Stdlib Require Import List String Ascii ZArith Lia Bool Arith.
From Stdlib Require Import Permutation Sorted DecimalString DecimalPos.
Import ListNotations.

Set Warnings "-register-all".

Open Scope string_scope.
Open Scope list_scope.

(* ================================================================== *)
(** ** JavaScript values and built-ins used by the programs *)
(* ================================================================== *)

Module Js.

(** Exceptions the programs can meet. *)
Inductive Exn : Type :=
| TypeError        (* a property read on [null] *)
| IOError          (* [fs.readFileSync] failing *)
| NetworkError     (* [fetch] rejecting *)
| SyntaxError      (* [response.json()] rejecting *)
| Error (message : string).   (* [throw new Error(message)] *)

(** Completion of an expression: a value or a thrown exception. *)
Inductive Result (A : Type) : Type :=
| Ok (a : A)
| Throw (e : Exn).
Arguments Ok {A} a.
Arguments Throw {A} e.

Definition is_ok {A} (r : Result A) : bool :=
  match r with Ok _ => true | Throw _ => false end.

(** [\s] of regular expressions and the characters removed by [trim]:
    TAB, LF, VT, FF, CR, SPACE and NBSP (the ones below U+0100). *)
Definition is_white (c : ascii) : bool :=
  let n := nat_of_ascii c in
  (Nat.eqb n 9 || Nat.eqb n 10 || Nat.eqb n 11 || Nat.eqb n 12
   || Nat.eqb n 13 || Nat.eqb n 32 || Nat.eqb n 160)%bool.

(** Line terminators, which [.] of a regular expression does not match. *)
Definition is_line_terminator (c : ascii) : bool :=
  let n := nat_of_ascii c in (Nat.eqb n 10 || Nat.eqb n 13)%bool.

(** [\d]. *)
Definition is_digit (c : ascii) : bool :=
  let n := nat_of_ascii c in (Nat.leb 48 n && Nat.leb n 57)%bool.

Fixpoint trimStart (s : string) : string :=
  match s with
  | String c s' => if is_white c then trimStart s' else s
  | EmptyString => EmptyString
  end.

Fixpoint trimEnd (s : string) : string :=
  match s with
  | EmptyString => EmptyString
  | String c s' =>
      match trimEnd s' with
      | EmptyString => if is_white c then EmptyString else String c EmptyString
      | t => String c t
      end
  end.

(** [s.trim()] *)
Definition trim (s : string) : string := trimEnd (trimStart s).

(** [s.substring(a, b)] for [a <= b]. *)
Definition substring (s : string) (a b : nat) : string :=
  String.substring a (b - a) s.

(** [s.split(sep)] for a one-character separator: never the empty array. *)
Fixpoint split (sep : ascii) (s : string) : list string :=
  match s with
  | EmptyString => [EmptyString]
  | String c s' =>
      if Ascii.eqb c sep then EmptyString :: split sep s'
      else match split sep s' with
           | h :: t => String c h :: t
           | [] => [String c EmptyString]
           end
  end.

(** [s.split(sep)[0]]: the text before the first separator. *)
Definition split_first (sep : ascii) (s : string) : string :=
  hd EmptyString (split sep s).

(** The pieces of [s] between maximal runs of separator characters; a
    leading or trailing run leaves an empty piece at that end.  [in_run]
    says that the character before [s] was a separator. *)
Fixpoint split_runs (is_sep : ascii -> bool) (in_run : bool) (s : string)
  : list string :=
  match s with
  | EmptyString => [EmptyString]
  | String c s' =>
      if is_sep c then
        if in_run then split_runs is_sep true s'
        else EmptyString :: split_runs is_sep true s'
      else match split_runs is_sep false s' with
           | h :: t => String c h :: t
           | [] => [String c EmptyString]
           end
  end.

(** [s.split(/\s+/)] *)
Definition split_ws (s : string) : list string := split_runs is_white false s.

Definition nonempty (s : string) : bool :=
  match s with EmptyString => false | String _ _ => true end.

(** [a.includes(x)] on an array of strings. *)
Definition includes (a : list string) (x : string) : bool :=
  existsb (String.eqb x) a.

(** Template-literal rendering of an integer. *)
Definition show_int (z : Z) : string := NilZero.string_of_int (Z.to_int z).

(** [parseInt(s)] on a string without sign or radix prefix: optional
    white space, then a run of decimal digits; [None] is NaN. *)
Fixpoint digits_value (acc : Z) (s : string) : Z :=
  match s with
  | String c s' =>
      if is_digit c
      then digits_value (10 * acc + Z.of_nat (nat_of_ascii c - 48)) s'
      else acc
  | EmptyString => acc
  end.

Definition parseInt (s : string) : option Z :=
  match trimStart s with
  | String c _ as t => if is_digit c then Some (digits_value 0 t) else None
  | EmptyString => None
  end.

(** *** [Array.prototype.sort]

    The comparator returns a number, [None] standing for NaN, which the
    sort reads as [+0] ([SortCompare]). *)
Definition Comparator (A : Type) := A -> A -> option Z.

Definition SortCompare {A} (cmp : Comparator A) (x y : A) : Z :=
  match cmp x y with
  | Some v => v
  | None => 0%Z
  end.

Definition before {A} (cmp : Comparator A) (x y : A) : bool :=
  match cmp x y with
  | Some v => (v <=? 0)%Z
  | None => true
  end.

(** The sort order the language fixes for a consistent comparator:
    ascending, and stable (ECMAScript 2019): an element moves in front
    of another one only when the comparator says it is strictly
    smaller. *)
Fixpoint insert {A} (cmp : Comparator A) (x : A) (l : list A) : list A :=
  match l with
  | [] => [x]
  | y :: l' => if before cmp x y then x :: l else y :: insert cmp x l'
  end.

Fixpoint sort_order {A} (cmp : Comparator A) (l : list A) : list A :=
  match l with
  | [] => []
  | x :: l' => insert cmp x (sort_order cmp l')
  end.

(** A consistent comparator for the elements of [l]: its results are
    those of a total preorder.  Every result is a number and not NaN,
    the signs of [a, b] and [b, a] are opposite, and what is not after is
    transitive. *)
Definition consistent_at {A} (cmp : Comparator A) (a b c : A) : bool :=
  (match cmp a b with Some _ => true | None => false end
   && (Z.sgn (SortCompare cmp a b) =? - Z.sgn (SortCompare cmp b a))%Z
   && (negb (before cmp a b && before cmp b c) || before cmp a c))%bool.

Definition consistent {A} (cmp : Comparator A) (l : list A) : bool :=
  forallb (fun a =>
             forallb (fun b => forallb (consistent_at cmp a b) l) l)
          l.

(** With a comparator that is not consistent the sort order is
    implementation-defined.  An engine sees the elements through the
    comparison results only, NaN read as [+0]: from their table it says,
    for each element in turn, at which place among the elements before
    it that element ends.  Every order of the elements can be said this
    way, and whatever an engine says is an order of the elements. *)
Definition Engine : Type := list (list Z) -> list nat.

Definition comparisons {A} (cmp : Comparator A) (l : list A)
  : list (list Z) :=
  map (fun x => map (SortCompare cmp x) l) l.

Definition insert_at {A} (k : nat) (x : A) (l : list A) : list A :=
  firstn k l ++ x :: skipn k l.

(** The elements of [l] put one by one at the places said; an element
    without a place goes last. *)
Fixpoint arrange {A} (places : list nat) (l done : list A) : list A :=
  match l with
  | [] => done
  | x :: l' =>
      arrange (tl places) l'
              (insert_at (hd (List.length done) places) x done)
  end.

(** [a.sort(comparefn)] *)
Definition sort {A} (engine : Engine) (cmp : Comparator A) (l : list A)
  : list A :=
  if consistent cmp l then sort_order cmp l
  else arrange (engine (comparisons cmp l)) l [].

(** *** The engine of Node.js

    V8 sorts with TimSort.  On an array of fewer than 64 elements that
    is one run and no merge: the longest run at the start, ascending or
    strictly descending by the first comparison, is kept (a descending
    run reversed), and every later element is put into it by binary
    insertion. *)

(** The comparison of the elements that came [i]-th and [j]-th. *)
Definition result_at (table : list (list Z)) (i j : nat) : Z :=
  nth j (nth i table []) 0%Z.

(** The loop of the binary insertion, [left] and [right] closing in on
    the place of the pivot; [fuel] bounds its rounds. *)
Fixpoint binary_search (table : list (list Z)) (pivot : nat)
         (workArray : list nat) (fuel left right : nat) : nat :=
  match fuel with
  | 0 => left
  | S fuel' =>
      if Nat.ltb left right then
        let mid := left + Nat.div2 (right - left) in
        let order := result_at table pivot (nth mid workArray 0) in
        if (order <? 0)%Z
        then binary_search table pivot workArray fuel' left mid
        else binary_search table pivot workArray fuel' (S mid) right
      else left
  end.

(** The places of the elements from the [idx]-th on; [workArray] holds
    the elements before it as they are arranged so far, [in_run] says
    that the run has not ended. *)
Fixpoint V8_places (table : list (list Z)) (idx count : nat)
         (in_run isDescending : bool) (workArray : list nat) : list nat :=
  match count with
  | 0 => []
  | S count' =>
      let order := result_at table idx (Nat.pred idx) in
      let continues :=
        (in_run && (if isDescending then (order <? 0)%Z
                    else (0 <=? order)%Z))%bool in
      let place :=
        if continues
        then (if isDescending then 0 else List.length workArray)
        else binary_search table idx workArray (List.length workArray)
                           0 (List.length workArray) in
      place :: V8_places table (S idx) count' continues isDescending
                         (insert_at place idx workArray)
  end.

Definition V8 : Engine :=
  fun table =>
    match List.length table with
    | S (S count) =>
        let isDescending := (result_at table 1 0 <? 0)%Z in
        if isDescending
        then 0 :: 0 :: V8_places table 2 count true true [1; 0]
        else 0 :: 1 :: V8_places table 2 count true false [0; 1]
    | _ => []
    end.

(** [a.sort()] without a comparator, on strings: code-unit order.  This
    comparison is consistent on every array, so the result is the sort
    order. *)
Definition default_compare : Comparator string :=
  fun x y => match String.compare x y with
             | Lt => Some (-1)%Z
             | Eq => Some 0%Z
             | Gt => Some 1%Z
             end.

(** A string or [null], as [getAttribute] returns it. *)
Definition Nullable := option string.

Definition ToString (v : Nullable) : string :=
  match v with Some s => s | None => "null" end.

Definition strict_eq (x y : Nullable) : bool :=
  match x, y with
  | Some a, Some b => String.eqb a b
  | None, None => true
  | _, _ => false
  end.

(** [a.sort()] on values that may be [null]: compared as strings. *)
Definition default_compare_nullable : Comparator Nullable :=
  fun x y => default_compare (ToString x) (ToString y).

(** [v || d] on a string: [null] and the empty string are falsy. *)
Definition or_else (v : Nullable) (d : string) : string :=
  match v with
  | Some (String _ _ as s) => s
  | _ => d
  end.

(** A [Set] keeps its elements in insertion order. *)
Definition set_add {A} (eqb : A -> A -> bool) (x : A) (s : list A) : list A :=
  if existsb (eqb x) s then s else s ++ [x].

(** *** Effects: the clock and exceptions

    A computation runs from the number of clock readings made so far and
    returns its completion with the new number of readings. *)
Definition M (A : Type) : Type := nat -> Result A * nat.

Definition ret {A} (a : A) : M A := fun t => (Ok a, t).
Definition throw {A} (e : Exn) : M A := fun t => (Throw e, t).
Definition lift {A} (r : Result A) : M A := fun t => (r, t).

Definition bind {A B} (m : M A) (k : A -> M B) : M B :=
  fun t => match m t with
           | (Ok a, t') => k a t'
           | (Throw e, t') => (Throw e, t')
           end.

(** [try { m } catch { h }] *)
Definition try_catch {A} (m : M A) (h : Exn -> M A) : M A :=
  fun t => match m t with
           | (Ok a, t') => (Ok a, t')
           | (Throw e, t') => h e t'
           end.

(** [new Date().toISOString()]: the next reading of the clock. *)
Definition Date_now_toISOString (clock : nat -> string) : M string :=
  fun t => (Ok (clock t), S t).

(** [s.toLowerCase()] on code units below U+0100: A-Z and the accented
    capitals U+00C0-U+00DE, except the multiplication sign U+00D7, move up
    by 32. *)
Definition lower_char (c : ascii) : ascii :=
  let n := nat_of_ascii c in
  if ((Nat.leb 65 n && Nat.leb n 90)
      || (Nat.leb 192 n && Nat.leb n 222 && negb (Nat.eqb n 215)))%bool
  then ascii_of_nat (n + 32)
  else c.

Fixpoint toLowerCase (s : string) : string :=
  match s with
  | EmptyString => EmptyString
  | String c s' => String (lower_char c) (toLowerCase s')
  end.

(** [s.includes(t)] on strings: [t] occurs in [s]. *)
Fixpoint str_includes (s t : string) : bool :=
  if String.prefix t s then true
  else match s with
       | String _ s' => str_includes s' t
       | EmptyString => false
       end.

(** [s.replace(/\d+$/, '')]: the string without its final run of digits. *)
Fixpoint all_digits (s : string) : bool :=
  match s with
  | EmptyString => true
  | String c s' => (is_digit c && all_digits s')%bool
  end.

Fixpoint strip_trailing_digits (s : string) : string :=
  match s with
  | EmptyString => EmptyString
  | String c s' =>
      if all_digits s then EmptyString
      else String c (strip_trailing_digits s')
  end.

(** [a.filter(f)] with a callback that may throw: the first exception
    ends the filter. *)
Fixpoint filter_result {A} (f : A -> Result bool) (l : list A)
  : Result (list A) :=
  match l with
  | [] => Ok []
  | x :: l' =>
      match f x with
      | Throw e => Throw e
      | Ok keep =>
          match filter_result f l' with
          | Throw e => Throw e
          | Ok rest => Ok (if keep then x :: rest else rest)
          end
      end
  end.

End Js.

Declare Scope js_scope.
Notation "x <- m ;; k" := (Js.bind m (fun x => k))
  (at level 61, m at next level, right associativity) : js_scope.
Open Scope js_scope.

(* ================================================================== *)
(** ** The parsed document *)
(* ================================================================== *)

Module Dom.

(** A node of the tree the HTML parser ([JSDOM], [DOMParser]) hands to the
    programs.  Tag names are lower case, as the parser leaves them. *)
Inductive Node : Type :=
| Text (data : string)
| Element (tagName : string) (attributes : list (string * string))
          (childNodes : list Node).

(** An HTML document always has a [head] and a [body].  [quirks] says
    that the parser put it in quirks mode ([document.compatMode] is
    [BackCompat]), as it does for a text that does not start with a
    doctype. *)
Record Document : Type := mkDocument {
  quirks : bool;
  head : list Node;
  bodyAttributes : list (string * string);
  bodyChildren : list Node
}.

Definition body (doc : Document) : Node :=
  Element "body" (bodyAttributes doc) (bodyChildren doc).

Definition documentElement (doc : Document) : Node :=
  Element "html" [] [Element "head" [] (head doc); body doc].

(** [node.textContent] *)
Fixpoint textContent (n : Node) : string :=
  match n with
  | Text s => s
  | Element _ _ cs => String.concat "" (map textContent cs)
  end.

(** [el.getAttribute(name)]; [None] is [null]. *)
Fixpoint lookup (name : string) (attrs : list (string * string))
  : option string :=
  match attrs with
  | [] => None
  | (k, v) :: rest => if String.eqb k name then Some v else lookup name rest
  end.

Definition getAttribute (el : Node) (name : string) : option string :=
  match el with
  | Text _ => None
  | Element _ attrs _ => lookup name attrs
  end.

(** The selectors the programs use. *)
Inductive Simple : Type :=
| ByTag (tag : string)                  (* [h1] *)
| ByClass (cls : string)                (* [.post-title] *)
| ByAttr (tag attr value : string).     (* [meta[name="date"]] *)

Inductive Complex : Type :=
| Sel (s : Simple)                      (* [p] *)
| Descendant (ancestor s : Simple).     (* [.post-content p] *)

(** A selector list, [a, b, c]. *)
Definition Selector := list Complex.

(** The separators of class names: TAB, LF, FF, CR and SPACE. *)
Definition is_ascii_whitespace (c : ascii) : bool :=
  let n := nat_of_ascii c in
  (Nat.eqb n 9 || Nat.eqb n 10 || Nat.eqb n 12 || Nat.eqb n 13
   || Nat.eqb n 32)%bool.

Definition classList (el : Node) : list string :=
  match getAttribute el "class" with
  | Some v => filter Js.nonempty (Js.split_runs is_ascii_whitespace false v)
  | None => []
  end.

(** Class names are compared exactly, except in a document in quirks
    mode, where the letters A-Z and a-z count as the same. *)
Definition ascii_lowercase (c : ascii) : ascii :=
  let n := nat_of_ascii c in
  if (Nat.leb 65 n && Nat.leb n 90)%bool then ascii_of_nat (n + 32) else c.

Fixpoint eqb_ascii_case_insensitive (a b : string) : bool :=
  match a, b with
  | EmptyString, EmptyString => true
  | String x a', String y b' =>
      (Ascii.eqb (ascii_lowercase x) (ascii_lowercase y)
       && eqb_ascii_case_insensitive a' b')%bool
  | _, _ => false
  end.

Definition class_eqb (quirks : bool) (cls name : string) : bool :=
  if quirks then eqb_ascii_case_insensitive cls name
  else String.eqb cls name.

Definition matches_simple (quirks : bool) (s : Simple) (el : Node) : bool :=
  match el with
  | Text _ => false
  | Element t _ _ =>
      match s with
      | ByTag tag => String.eqb t tag
      | ByClass cls => existsb (class_eqb quirks cls) (classList el)
      | ByAttr tag attr value =>
          (String.eqb t tag &&
           match getAttribute el attr with
           | Some v => String.eqb v value
           | None => false
           end)%bool
      end
  end.

Definition matches_complex (quirks : bool) (c : Complex) (el : Node)
           (ancestors : list Node) : bool :=
  match c with
  | Sel s => matches_simple quirks s el
  | Descendant a s =>
      (matches_simple quirks s el
       && existsb (matches_simple quirks a) ancestors)%bool
  end.

Definition matches (quirks : bool) (sel : Selector) (el : Node)
           (ancestors : list Node) : bool :=
  existsb (fun c => matches_complex quirks c el ancestors) sel.

(** The elements below (and including) a node, in document order, each
    with its ancestors. *)
Fixpoint elements (ancestors : list Node) (n : Node)
  : list (Node * list Node) :=
  match n with
  | Text _ => []
  | Element _ _ cs =>
      (n, ancestors) :: flat_map (elements (n :: ancestors)) cs
  end.

(** [doc.querySelectorAll(sel)] *)
Definition querySelectorAll (doc : Document) (sel : Selector) : list Node :=
  map fst
      (filter (fun e => matches (quirks doc) sel (fst e) (snd e))
              (elements [] (documentElement doc))).

(** [doc.querySelector(sel)]; [None] is [null]. *)
Definition querySelector (doc : Document) (sel : Selector) : option Node :=
  hd_error (querySelectorAll doc sel).

(** An HTML text together with the document the parser builds from it. *)
Record Page : Type := mkPage {
  html : string;
  parsed : Document
}.

Definition meta_name (v : string) : Complex := Sel (ByAttr "meta" "name" v).
Definition meta_property (v : string) : Complex :=
  Sel (ByAttr "meta" "property" v).

End Dom.

(* ================================================================== *)
(** ** generate-posts-index.js *)
(* ================================================================== *)

Module Indexer.
Import Js Dom.

Module CONFIG.
Definition author : string := "SilentCoderHub".
Definition wordsPerMinute : Z := 200.
Definition defaultCategory : string := "General".
Definition defaultTags : list string := ["Blog"].
End CONFIG.

(** The record [extractMetadata] returns.  [category] and [author] hold
    whatever [getAttribute] gave, which may be [null]. *)
Record PostMetadata : Type := mkPostMetadata {
  id : string;
  title : string;
  excerpt : string;
  date : string;
  category : Nullable;
  tags : list string;
  author : Nullable;
  readTime : string;
  slug : string;
  wordCount : Z;
  lastModified : string
}.

(** [path.basename(filename, '.html')] on a bare file name, which is what
    [fs.readdirSync] lists. *)
Definition basename (filename ext : string) : string :=
  let n := String.length filename in
  let k := String.length ext in
  if (Nat.leb k n && String.eqb (String.substring (n - k) k filename) ext)%bool
  then String.substring 0 (n - k) filename
  else filename.

(** [/(\d{4}-\d{2}-\d{2})/] anchored at the start of [s]. *)
Definition ymd_here (s : string) : option string :=
  match s with
  | String y1 (String y2 (String y3 (String y4 (String h1
      (String m1 (String m2 (String h2 (String d1 (String d2 _))))))))) =>
      if (is_digit y1 && is_digit y2 && is_digit y3 && is_digit y4
          && Ascii.eqb h1 "-" && is_digit m1 && is_digit m2
          && Ascii.eqb h2 "-" && is_digit d1 && is_digit d2)%bool
      then Some (String.substring 0 10 s)
      else None
  | _ => None
  end.

(** [slug.match(/(\d{4}-\d{2}-\d{2})/)]: group 1 of the leftmost match. *)
Fixpoint match_ymd (s : string) : option string :=
  match ymd_here s with
  | Some d => Some d
  | None =>
      match s with
      | String _ s' => match_ymd s'
      | EmptyString => None
      end
  end.

(** [s.replace(/.*\s/, '')].  The leftmost match starts at index 0 when
    there is any white space: [.*] runs to the first line terminator, which
    is itself white space and ends the match; without a line terminator the
    match backtracks to the last white-space character. *)
Fixpoint after_first_line_terminator (s : string) : option string :=
  match s with
  | EmptyString => None
  | String c s' =>
      if is_line_terminator c then Some s'
      else after_first_line_terminator s'
  end.

Fixpoint after_last_white (s : string) : option string :=
  match s with
  | EmptyString => None
  | String c s' =>
      match after_last_white s' with
      | Some r => Some r
      | None => if is_white c then Some s' else None
      end
  end.

Definition replace_through_space (s : string) : string :=
  match after_first_line_terminator s with
  | Some r => r
  | None =>
      match after_last_white s with
      | Some r => r
      | None => s
      end
  end.

(** [Math.ceil(a / b)] for [b > 0]. *)
Definition ceil_div (a b : Z) : Z := (- ((- a) / b))%Z.

(** *** [extractMetadata], field by field, in the order of the source *)

(** Lines 38-39. *)
Definition extract_title (doc : Document) : string :=
  match querySelector doc
          [Sel (ByTag "h1"); Sel (ByClass "post-title-main");
           Sel (ByTag "title")] with
  | Some titleEl => trim (textContent titleEl)
  | None => "Untitled Post"
  end.

(** Lines 42-54: the variable [excerpt] before [excerpt || ...]. *)
Definition extract_excerpt (doc : Document) : Nullable :=
  match querySelector doc [meta_name "description"] with
  | Some metaDesc => getAttribute metaDesc "content"
  | None =>
      match querySelector doc
              [Descendant (ByClass "post-content") (ByTag "p");
               Sel (ByTag "p")] with
      | Some firstP =>
          let excerpt := trim (textContent firstP) in
          if Nat.ltb 200 (String.length excerpt)
          then Some (substring excerpt 0 200 ++ "...")%string
          else Some excerpt
      | None => Some ""
      end
  end.

Section Extraction.

(** The successive readings of [new Date().toISOString()]. *)
Variable clock : nat -> string.

(** Lines 57-67. *)
Definition extract_date (doc : Document) (slug : string) : M string :=
  now <- Date_now_toISOString clock ;;
  let date := split_first "T" now in
  match querySelector doc
          [meta_name "date"; meta_property "article:published_time"] with
  | Some metaDate =>
      match getAttribute metaDate "content" with
      | Some content => ret (split_first "T" content)
      | None => throw TypeError
      end
  | None =>
      match match_ymd slug with
      | Some d => ret d
      | None => ret date
      end
  end.

(** Lines 70-79. *)
Definition extract_category (doc : Document) : Nullable :=
  match querySelector doc [meta_name "category"] with
  | Some metaCat => getAttribute metaCat "content"
  | None =>
      match querySelector doc [Sel (ByClass "post-category")] with
      | Some catEl => Some (trim (replace_through_space (textContent catEl)))
      | None => Some CONFIG.defaultCategory
      end
  end.

(** Lines 82-95. *)
Definition extract_tags (doc : Document) : Result (list string) :=
  match querySelector doc [meta_name "keywords"] with
  | Some metaKeywords =>
      match getAttribute metaKeywords "content" with
      | Some content =>
          Ok (filter (fun tag => Nat.ltb 0 (String.length tag))
                     (map trim (split "," content)))
      | None => Throw TypeError
      end
  | None =>
      let tagElements :=
        querySelectorAll doc [Sel (ByClass "tag"); Sel (ByClass "post-tag")] in
      if Nat.ltb 0 (List.length tagElements)
      then Ok (map (fun el => trim (textContent el)) tagElements)
      else Ok CONFIG.defaultTags
  end.

(** Lines 98-100. *)
Definition count_words (doc : Document) : Z :=
  let content := textContent (body doc) in
  Z.of_nat (List.length
              (filter (fun word => Nat.ltb 0 (String.length word))
                      (split_ws content))).

Definition read_minutes (wordCount : Z) : Z :=
  Z.max 1 (ceil_div wordCount CONFIG.wordsPerMinute).

(** Lines 103-107. *)
Definition extract_author (doc : Document) : Nullable :=
  match querySelector doc [meta_name "author"] with
  | Some metaAuthor => getAttribute metaAuthor "content"
  | None => Some CONFIG.author
  end.

(** [extractMetadata(htmlContent, filename)], on the document that
    [new JSDOM(htmlContent)] parsed. *)
Definition extractMetadata (doc : Document) (filename : string)
  : M PostMetadata :=
  let slug := basename filename ".html" in
  let title := extract_title doc in
  let excerpt := extract_excerpt doc in
  date <- extract_date doc slug ;;
  let category := extract_category doc in
  tags <- lift (extract_tags doc) ;;
  let wordCount := count_words doc in
  let readTime := read_minutes wordCount in
  let author := extract_author doc in
  now <- Date_now_toISOString clock ;;
  ret {| id := ("post-" ++ slug)%string;
         title := title;
         excerpt := or_else excerpt "No excerpt available.";
         date := date;
         category := category;
         tags := tags;
         author := author;
         readTime := (show_int readTime ++ " min read")%string;
         slug := slug;
         wordCount := wordCount;
         lastModified := now |}.

End Extraction.

(** *** The index written to [posts.json] *)

Module Category.
Record t : Type := mk { name : Nullable; count : Z; description : string }.
End Category.

Module Tag.
Record t : Type := mk { name : string; count : Z }.
End Tag.

(** [averageReadTime] is [None] for NaN; [latestPost] and [oldestPost] are
    [None] for [undefined]. *)
Record Stats : Type := mkStats {
  totalWords : Z;
  averageReadTime : option Z;
  latestPost : option string;
  oldestPost : option string
}.

Module Index.
Record t : Type := mk {
  generated : string;
  totalPosts : Z;
  posts : list PostMetadata;
  categories : list Category.t;
  tags : list Tag.t;
  stats : Stats
}.
End Index.

(** The posts directory: whether it exists, the names it lists, and what
    reading and parsing one of its files gives. *)
Record FileSystem : Type := mkFileSystem {
  existsSync : bool;
  readdirSync : list string;
  readFileSync : string -> Result Document
}.

Definition endsWith (s suffix : string) : bool :=
  let n := String.length s in
  let k := String.length suffix in
  (Nat.leb k n && String.eqb (String.substring (n - k) k s) suffix)%bool.

(** [Math.round(s / n)] for [n > 0]: halves go up. *)
Definition round_div (s n : Z) : Z := ((2 * s + n) / (2 * n))%Z.

(** What the loop over the files builds: [posts], [categories], [tags]. *)
Definition Collected : Type :=
  (list PostMetadata * list Nullable * list string)%type.

Fixpoint for_each {A S : Type} (step : S -> A -> M S) (l : list A) (s : S)
  : M S :=
  match l with
  | [] => ret s
  | x :: l' => s' <- step s x ;; for_each step l' s'
  end.

(** Lines 180-184. *)
Definition category_entries (categories : list Nullable)
           (posts : list PostMetadata) : list Category.t :=
  map (fun cat =>
         Category.mk cat
           (Z.of_nat (List.length
              (filter (fun p => strict_eq (category p) cat) posts)))
           ("Posts about " ++ ToString cat)%string)
      (sort_order default_compare_nullable categories).

(** Lines 185-188. *)
Definition tag_entries (tags : list string) (posts : list PostMetadata)
  : list Tag.t :=
  map (fun tag =>
         Tag.mk tag
           (Z.of_nat (List.length
              (filter (fun p => includes (Indexer.tags p) tag) posts))))
      (sort_order default_compare tags).

(** Lines 189-197. *)
Definition sum_minutes (posts : list PostMetadata) : option Z :=
  fold_left (fun sum post =>
               match sum, parseInt (readTime post) with
               | Some s, Some minutes => Some (s + minutes)%Z
               | _, _ => None
               end)
            posts (Some 0%Z).

Definition compute_stats (posts : list PostMetadata) : Stats :=
  {| totalWords := fold_left (fun sum post => (sum + wordCount post)%Z) posts 0%Z;
     averageReadTime :=
       match sum_minutes posts, posts with
       | Some s, _ :: _ => Some (round_div s (Z.of_nat (List.length posts)))
       | _, _ => None
       end;
     latestPost := option_map date (hd_error posts);
     oldestPost := option_map date (last (map Some posts) None) |}.

Section Generation.

(** The engine the indexer runs on. *)
Variable engine : Engine.

Variable clock : nat -> string.

(** [new Date(s).getTime()] as the engine computes it; [None] is NaN. *)
Variable Date_parse : string -> option Z.

(** [(a, b) => new Date(b.date) - new Date(a.date)] *)
Definition by_date_desc : Comparator PostMetadata :=
  fun a b =>
    match Date_parse (date b), Date_parse (date a) with
    | Some tb, Some ta => Some (tb - ta)%Z
    | _, _ => None
    end.

(** Lines 155-169: the body of the loop, with its [try]/[catch]. *)
Definition process_file (fs : FileSystem) (acc : Collected) (file : string)
  : M Collected :=
  let '(posts, categories, tags) := acc in
  try_catch
    (htmlContent <- lift (readFileSync fs file) ;;
     metadata <- extractMetadata clock htmlContent file ;;
     ret (posts ++ [metadata],
          set_add strict_eq (category metadata) categories,
          fold_left (fun s tag => set_add String.eqb tag s)
                    (Indexer.tags metadata) tags))
    (fun error => ret acc).

(** [generatePostsIndex()]: the index given to [fs.writeFileSync], or
    [None] when the function returns without writing. *)
Definition generatePostsIndex (fs : FileSystem) : M (option Index.t) :=
  if negb (existsSync fs) then ret None
  else
    let files :=
      sort_order default_compare
           (filter (fun file => endsWith file ".html") (readdirSync fs)) in
    if Nat.eqb (List.length files) 0 then ret None
    else
      acc <- for_each (process_file fs) files ([], [], []) ;;
      let '(posts, categories, tags) := acc in
      let posts := sort engine by_date_desc posts in
      now <- Date_now_toISOString clock ;;
      ret (Some (Index.mk now
                   (Z.of_nat (List.length posts))
                   posts
                   (category_entries categories posts)
                   (tag_entries tags posts)
                   (compute_stats posts))).

End Generation.

End Indexer.

(* ================================================================== *)
(** ** The browser script *)
(* ================================================================== *)

Module Script.
Import Js Dom.

Module BLOG_CONFIG.
Definition postsPerPage : Z := 5.
Definition postsDirectory : string := "./posts/".
Definition maxRecentPosts : Z := 5.
Definition maxPopularTags : Z := 10.
End BLOG_CONFIG.

(** A post as the page holds it.  [excerpt], [date] and [category] hold
    whatever [getAttribute] gave, which may be [null]. *)
Record Post : Type := mkPost {
  id : string;
  title : string;
  excerpt : Nullable;
  content : string;
  date : Nullable;
  category : Nullable;
  tags : list string;
  author : string;
  readTime : string;
  slug : string
}.

(** [a || b] on query results. *)
Definition or_node (a b : option Node) : option Node :=
  match a with Some _ => a | None => b end.

Definition extractTitle (doc : Document) : string :=
  let titleEl :=
    or_node (querySelector doc [Sel (ByTag "h1")])
      (or_node (querySelector doc [Sel (ByTag "title")])
         (or_node (querySelector doc [Sel (ByClass "post-title")])
                  (querySelector doc [Sel (ByClass "title")]))) in
  match titleEl with
  | Some el => trim (textContent el)
  | None => "Untitled Post"
  end.

Definition extractExcerpt (doc : Document) : Nullable :=
  match querySelector doc [meta_name "description"] with
  | Some metaDesc => getAttribute metaDesc "content"
  | None =>
      match querySelector doc [Sel (ByTag "p")] with
      | Some firstP =>
          let text := trim (textContent firstP) in
          if Nat.ltb 200 (String.length text)
          then Some (substring text 0 200 ++ "...")%string
          else Some text
      | None => Some "No excerpt available."
      end
  end.

Definition extractCategory (doc : Document) : Nullable :=
  match querySelector doc [meta_name "category"] with
  | Some metaCat => getAttribute metaCat "content"
  | None =>
      match or_node (querySelector doc [Sel (ByClass "category")])
                    (querySelector doc [Sel (ByClass "post-category")]) with
      | Some catEl => Some (trim (textContent catEl))
      | None => Some "General"
      end
  end.

Definition extractTags (doc : Document) : Result (list string) :=
  match querySelector doc [meta_name "keywords"] with
  | Some metaTags =>
      match getAttribute metaTags "content" with
      | Some content => Ok (map trim (split "," content))
      | None => Throw TypeError
      end
  | None =>
      let tagElements :=
        querySelectorAll doc [Sel (ByClass "tag"); Sel (ByClass "post-tag")] in
      if Nat.ltb 0 (List.length tagElements)
      then Ok (map (fun el => trim (textContent el)) tagElements)
      else Ok ["Blog"]
  end.

Definition calculateReadTime (text : string) : string :=
  let wordsPerMinute := 200%Z in
  let words := Z.of_nat (List.length (split_ws text)) in
  let minutes := Indexer.ceil_div words wordsPerMinute in
  (show_int minutes ++ " min read")%string.

Definition getSamplePosts : list Post :=
  [ {| id := "post-what-exactly-is-a-computer";
       title := "What Exactly is a Computer? Understanding the Essentials";
       excerpt := Some "Ever wondered what defines a computer? Let's dive into its core functions, key features, and its remarkable place in both work and life. From simple devices to powerful companions.";
       content := "";
       date := Some "2025-09-23";
       category := Some "Computer Basics";
       tags := ["Computer Science"; "Technology"; "Hardware"; "Basics"];
       author := "SilentCoderHub";
       readTime := "6 min read";
       slug := "what-exactly-is-a-computer" |};
    {| id := "post-sample-2";
       title := "Getting Started with Web Development";
       excerpt := Some "A comprehensive guide to beginning your journey in web development. Learn about HTML, CSS, JavaScript, and modern frameworks.";
       content := "";
       date := Some "2025-09-20";
       category := Some "Web Development";
       tags := ["HTML"; "CSS"; "JavaScript"; "Frontend"];
       author := "SilentCoderHub";
       readTime := "8 min read";
       slug := "getting-started-web-development" |};
    {| id := "post-sample-3";
       title := "Understanding JavaScript Closures";
       excerpt := Some "Dive deep into one of JavaScript's most powerful features. Learn how closures work and how to use them effectively in your code.";
       content := "";
       date := Some "2025-09-18";
       category := Some "Programming";
       tags := ["JavaScript"; "Programming Concepts"; "Functions"];
       author := "SilentCoderHub";
       readTime := "10 min read";
       slug := "understanding-javascript-closures" |} ].

(** What [response.json()] gives for [posts.json]: [None] is the JSON
    [null]; a [posts] member that is absent or falsy is [None]. *)
Record PostsData : Type := mkPostsData {
  posts : option (list Post)
}.

(** The [Response] of a [fetch] that did not reject. *)
Record Response : Type := mkResponse {
  ok : bool;
  text : Page;
  json : Result (option PostsData)
}.

Section Loading.

(** The engine of the browser. *)
Variable engine : Engine.

Variable clock : nat -> string.
Variable Date_parse : string -> option Z.

(** [fetch(url)]; [Throw] is a rejected promise. *)
Variable fetch : string -> Result Response.

Definition extractDate (doc : Document) (slug : string) : M Nullable :=
  match or_node (querySelector doc [meta_name "date"])
                (querySelector doc [meta_property "article:published_time"])
  with
  | Some metaDate => ret (getAttribute metaDate "content")
  | None =>
      match Indexer.match_ymd slug with
      | Some d => ret (Some d)
      | None =>
          now <- Date_now_toISOString clock ;;
          ret (Some (split_first "T" now))
      end
  end.

(** [parsePostHTML(html, slug)], with the document
    [parser.parseFromString(html, 'text/html')] builds. *)
Definition parsePostHTML (page : Page) (slug : string) : M Post :=
  let doc := parsed page in
  let title := extractTitle doc in
  let excerpt := extractExcerpt doc in
  date <- extractDate doc slug ;;
  let category := extractCategory doc in
  tags <- lift (extractTags doc) ;;
  ret {| id := ("post-" ++ slug)%string;
         title := title;
         excerpt := excerpt;
         content := html page;
         date := date;
         category := category;
         tags := tags;
         author := "SilentCoderHub";
         readTime := calculateReadTime (textContent (body doc));
         slug := slug |}.

(** [loadAndParsePost(slug)]; [None] is [null]. *)
Definition loadAndParsePost (slug : string) : M (option Post) :=
  try_catch
    (response <- lift (fetch ("./posts/" ++ slug ++ ".html")%string) ;;
     if negb (ok response) then throw (Error "Post not found")
     else
       post <- parsePostHTML (text response) slug ;;
       ret (Some post))
    (fun error => ret None).

(** [new Date(d)] for a date that may be [null]: [new Date(null)] is the
    epoch. *)
Definition Date_of (d : Nullable) : option Z :=
  match d with
  | Some s => Date_parse s
  | None => Some 0%Z
  end.

(** [(a, b) => new Date(b.date) - new Date(a.date)] *)
Definition by_date_desc : Comparator Post :=
  fun a b =>
    match Date_of (date b), Date_of (date a) with
    | Some tb, Some ta => Some (tb - ta)%Z
    | _, _ => None
    end.

Definition knownPosts : list string := ["what-exactly-is-a-computer"].

Definition discoverPosts : M (list Post) :=
  posts <- Indexer.for_each
             (fun posts slug =>
                try_catch
                  (postData <- loadAndParsePost slug ;;
                   match postData with
                   | Some p => ret (posts ++ [p])
                   | None => ret posts
                   end)
                  (fun error => ret posts))
             knownPosts [] ;;
  ret (sort engine by_date_desc posts).

(** [fetchPostsFromIndex()].  Inside the [try], [Some] is a [return]. *)
Definition fetchPostsFromIndex : M (list Post) :=
  returned <-
    try_catch
      (response <- lift (fetch "./posts/posts.json") ;;
       if ok response then
         postsData <- lift (json response) ;;
         match postsData with
         | Some data =>
             ret (Some (match posts data with Some l => l | None => [] end))
         | None => throw TypeError
         end
       else ret None)
      (fun error => ret None) ;;
  match returned with
  | Some l => ret l
  | None => ret []
  end.

(** [loadAllPosts()]: the value it leaves in [allPosts]. *)
Definition loadAllPosts : M (list Post) :=
  try_catch
    (posts <- fetchPostsFromIndex ;;
     if Nat.ltb 0 (List.length posts) then ret posts
     else discoverPosts)
    (fun error => ret getSamplePosts).

End Loading.

(** *** The page: global variables and the elements the script drives *)

(** [el.style.display]; [as_styled] is the value before the script sets
    one. *)
Inductive Display : Type := as_styled | block | none.

(** A child of [postsContainer]: a loading placeholder or the card of a
    post ([createPostElement]). *)
Inductive Card : Type :=
| skeleton
| article (post : Post).

Record Blog : Type := mkBlog {
  allPosts : list Post;
  displayedPosts : list Post;
  currentPage : nat;
  isLoading : bool;
  searchInput_value : string;
  postsContainer : list Card;
  noPostsDiv_display : Display;
  loadMoreBtn_display : Display;
  loadMoreBtn_textContent : string;
  loadMoreBtn_disabled : bool;
  (** callbacks of [loadMorePosts] waiting in [setTimeout] *)
  pending_timeouts : nat
}.

Definition showNoPostsMessage (st : Blog) : Blog :=
  mkBlog (allPosts st) (displayedPosts st) (currentPage st) (isLoading st)
         (searchInput_value st) (postsContainer st)
         block none
         (loadMoreBtn_textContent st) (loadMoreBtn_disabled st)
         (pending_timeouts st).

Definition hideNoPostsMessage (st : Blog) : Blog :=
  mkBlog (allPosts st) (displayedPosts st) (currentPage st) (isLoading st)
         (searchInput_value st) (postsContainer st)
         none (loadMoreBtn_display st)
         (loadMoreBtn_textContent st) (loadMoreBtn_disabled st)
         (pending_timeouts st).

(** [renderPosts(posts)]: the container is emptied and refilled with one
    card per post, in order. *)
Definition renderPosts (posts : list Post) (st : Blog) : Blog :=
  mkBlog (allPosts st) (displayedPosts st) (currentPage st) (isLoading st)
         (searchInput_value st) (map article posts)
         (noPostsDiv_display st) (loadMoreBtn_display st)
         (loadMoreBtn_textContent st) (loadMoreBtn_disabled st)
         (pending_timeouts st).

Definition updateLoadMoreButton (posts : list Post) (st : Blog) : Blog :=
  let totalPosts := List.length posts in
  let displayedCount := List.length (displayedPosts st) in
  mkBlog (allPosts st) (displayedPosts st) (currentPage st) (isLoading st)
         (searchInput_value st) (postsContainer st)
         (noPostsDiv_display st)
         (if Nat.leb totalPosts displayedCount then none else block)
         (loadMoreBtn_textContent st) (loadMoreBtn_disabled st)
         (pending_timeouts st).

(** [displayPosts(posts)]; [None] is the default [null].  An array is
    truthy even when it is empty. *)
Definition displayPosts (posts : option (list Post)) (st : Blog) : Blog :=
  let postsToShow :=
    match posts with Some l => l | None => allPosts st end in
  let startIndex := currentPage st * Z.to_nat BLOG_CONFIG.postsPerPage in
  let endIndex := startIndex + Z.to_nat BLOG_CONFIG.postsPerPage in
  let st1 :=
    match posts with
    | Some _ =>
        mkBlog (allPosts st) postsToShow 0 (isLoading st)
               (searchInput_value st) (postsContainer st)
               (noPostsDiv_display st) (loadMoreBtn_display st)
               (loadMoreBtn_textContent st) (loadMoreBtn_disabled st)
               (pending_timeouts st)
    | None =>
        mkBlog (allPosts st) (firstn endIndex (allPosts st))
               (currentPage st) (isLoading st)
               (searchInput_value st) (postsContainer st)
               (noPostsDiv_display st) (loadMoreBtn_display st)
               (loadMoreBtn_textContent st) (loadMoreBtn_disabled st)
               (pending_timeouts st)
    end in
  if Nat.eqb (List.length (displayedPosts st1)) 0
  then showNoPostsMessage st1
  else
    updateLoadMoreButton
      (match posts with Some _ => postsToShow | None => allPosts st1 end)
      (renderPosts (displayedPosts st1) (hideNoPostsMessage st1)).

(** The callback of [allPosts.filter] in [handleSearch]; [||] evaluates
    its right side only when the left side is false, and [toLowerCase]
    on [null] throws. *)
Definition matches_search (searchTerm : string) (post : Post) : Result bool :=
  if str_includes (toLowerCase (title post)) searchTerm then Ok true
  else
    match excerpt post with
    | None => Throw TypeError
    | Some e =>
        if str_includes (toLowerCase e) searchTerm then Ok true
        else
          match category post with
          | None => Throw TypeError
          | Some c =>
              if str_includes (toLowerCase c) searchTerm then Ok true
              else Ok (existsb
                         (fun tag => str_includes (toLowerCase tag) searchTerm)
                         (tags post))
          end
    end.

Definition handleSearch (st : Blog) : Result Blog :=
  let searchTerm := trim (toLowerCase (searchInput_value st)) in
  if String.eqb searchTerm "" then
    Ok (displayPosts None
          (mkBlog (allPosts st) (displayedPosts st) 0 (isLoading st)
                  (searchInput_value st) (postsContainer st)
                  (noPostsDiv_display st) (loadMoreBtn_display st)
                  (loadMoreBtn_textContent st) (loadMoreBtn_disabled st)
                  (pending_timeouts st)))
  else
    match filter_result (matches_search searchTerm) (allPosts st) with
    | Throw e => Throw e
    | Ok filteredPosts => Ok (displayPosts (Some filteredPosts) st)
    end.

(** The user types [value] into the search box (the [input] listener,
    once its debounce delay has passed). *)
Definition search_input (value : string) (st : Blog) : Result Blog :=
  handleSearch
    (mkBlog (allPosts st) (displayedPosts st) (currentPage st) (isLoading st)
            value (postsContainer st)
            (noPostsDiv_display st) (loadMoreBtn_display st)
            (loadMoreBtn_textContent st) (loadMoreBtn_disabled st)
            (pending_timeouts st)).

(** The [click] listener of the document on an element of class [tag] or
    [category-item] whose text is [textContent]. *)
Definition filterTerm (textContent : string) : string :=
  trim (strip_trailing_digits (trim textContent)).

Definition filter_click (textContent : string) (st : Blog) : Result Blog :=
  search_input (filterTerm textContent) st.

(** [loadMorePosts()] up to its [setTimeout], and the callback it
    schedules. *)
Definition loadMorePosts (st : Blog) : Blog :=
  if isLoading st then st
  else
    mkBlog (allPosts st) (displayedPosts st) (currentPage st) true
           (searchInput_value st) (postsContainer st)
           (noPostsDiv_display st) (loadMoreBtn_display st)
           "Loading..." true
           (S (pending_timeouts st)).

Definition loadMorePosts_timeout (st : Blog) : Blog :=
  let st1 :=
    displayPosts None
      (mkBlog (allPosts st) (displayedPosts st) (S (currentPage st))
              (isLoading st)
              (searchInput_value st) (postsContainer st)
              (noPostsDiv_display st) (loadMoreBtn_display st)
              (loadMoreBtn_textContent st) (loadMoreBtn_disabled st)
              (pending_timeouts st)) in
  mkBlog (allPosts st1) (displayedPosts st1) (currentPage st1) false
         (searchInput_value st1) (postsContainer st1)
         (noPostsDiv_display st1) (loadMoreBtn_display st1)
         "Load More Posts" false
         (Nat.pred (pending_timeouts st1)).

(** *** The sidebar: counting in a plain object *)

(** The value of a counter property: a number, or the string that
    [(f || 0) + 1] builds from an inherited function or object, which no
    subtraction reads as a number. *)
Inductive Count : Type :=
| Num (n : Z)
| NotANumber.

(** The own properties of an object created by [{}], in the order of
    their creation. *)
Definition Obj : Type := list (string * Count).

(** The properties every plain object inherits from [Object.prototype]. *)
Definition Object_prototype : list string :=
  ["constructor"; "__defineGetter__"; "__defineSetter__"; "hasOwnProperty";
   "__lookupGetter__"; "__lookupSetter__"; "isPrototypeOf";
   "propertyIsEnumerable"; "toString"; "valueOf"; "__proto__";
   "toLocaleString"].

Fixpoint get_own (key : string) (obj : Obj) : option Count :=
  match obj with
  | [] => None
  | (k, v) :: rest => if String.eqb k key then Some v else get_own key rest
  end.

Fixpoint set_own (key : string) (v : Count) (obj : Obj) : Obj :=
  match obj with
  | [] => [(key, v)]
  | (k, w) :: rest =>
      if String.eqb k key then (k, v) :: rest
      else (k, w) :: set_own key v rest
  end.

(** [obj[key] = (obj[key] || 0) + 1].  An inherited property is read
    as a truthy function or object, so the sum is a string; assigning it
    makes an own property, except for [__proto__], whose setter ignores
    a string. *)
Definition count_up (key : string) (obj : Obj) : Obj :=
  match get_own key obj with
  | Some (Num n) => set_own key (Num (n + 1)) obj
  | Some NotANumber => set_own key NotANumber obj
  | None =>
      if String.eqb key "__proto__" then obj
      else if includes Object_prototype key then set_own key NotANumber obj
      else set_own key (Num 1) obj
  end.

(** The key is an array index: the canonical decimal form of an integer
    from 0 to 2^32 - 2. *)
Definition array_index (key : string) : option Z :=
  match key with
  | EmptyString => None
  | String c rest =>
      if (all_digits key
          && (String.eqb key "0" || negb (Ascii.eqb c "0")))%bool
      then
        let v := digits_value 0 key in
        if (v <=? 4294967294)%Z then Some v else None
      else None
  end.

Definition is_index (entry : string * Count) : bool :=
  match array_index (fst entry) with Some _ => true | None => false end.

(** [Object.entries(obj)]: array-index keys first, in ascending numeric
    order, then the other keys in the order of their creation. *)
Definition Object_entries (obj : Obj) : list (string * Count) :=
  sort_order
       (fun a b =>
          match array_index (fst a), array_index (fst b) with
          | Some x, Some y => Some (x - y)%Z
          | _, _ => None
          end)
       (filter is_index obj)
  ++ filter (fun entry => negb (is_index entry)) obj.

(** [(a, b) => b[1] - a[1]] *)
Definition by_count_desc : Comparator (string * Count) :=
  fun a b =>
    match snd b, snd a with
    | Num y, Num x => Some (y - x)%Z
    | _, _ => None
    end.

(** [updateCategories()]: the items written to [categoryList], each a
    category and its count. *)
Definition updateCategories (engine : Engine) (st : Blog)
  : list (string * Count) :=
  let categories :=
    fold_left (fun categories post =>
                 count_up (ToString (category post)) categories)
              (allPosts st) [] in
  sort engine by_count_desc (Object_entries categories).

(** [updateTags()]: the tags written as links to [tagsList]. *)
Definition updateTags (engine : Engine) (st : Blog) : list string :=
  let tags :=
    fold_left (fun tags post =>
                 fold_left (fun tags tag => count_up tag tags)
                           (Script.tags post) tags)
              (allPosts st) [] in
  let sortedTags :=
    firstn (Z.to_nat BLOG_CONFIG.maxPopularTags)
           (sort engine by_count_desc (Object_entries tags)) in
  map fst sortedTags.

End Script.

(* ================================================================== *)
(** ** Specification vocabulary and example inputs *)
(* ================================================================== *)

Module Spec.
Import Js Dom.

(** A string of the form YYYY-MM-DD: four digits, a hyphen, two digits, a
    hyphen, two digits, and nothing else. *)
Definition is_ymd (s : string) : bool :=
  match Indexer.ymd_here s with
  | Some d => String.eqb d s
  | None => false
  end.

(** The element a selector finds, if any, carries a [content] attribute. *)
Definition has_content (doc : Document) (sel : Selector) : bool :=
  match querySelector doc sel with
  | Some el =>
      match getAttribute el "content" with
      | Some _ => true
      | None => false
      end
  | None => true
  end.

Definition date_selector : Selector :=
  [meta_name "date"; meta_property "article:published_time"].
Definition keywords_selector : Selector := [meta_name "keywords"].
Definition description_selector : Selector := [meta_name "description"].
Definition paragraph_selector : Selector := [Sel (ByTag "p")].

(** The [.html] files of the directory, in the order the indexer visits
    them. *)
Definition html_files (fs : Indexer.FileSystem) : list string :=
  sort_order default_compare
       (filter (fun file => Indexer.endsWith file ".html")
               (Indexer.readdirSync fs)).

(** Number of records whose tags list contains [tag]. *)
Definition records_tagged (tag : string) (posts : list Indexer.PostMetadata)
  : nat :=
  List.length
    (filter (fun p => if in_dec string_dec tag (Indexer.tags p)
                      then true else false)
            posts).

(** A tags list in descending order of count. *)
Definition counts_descending (l : list Indexer.Tag.t) : Prop :=
  StronglySorted (fun a b => (Indexer.Tag.count b <= Indexer.Tag.count a)%Z) l.

(** A tags list in strictly ascending order of name. *)
Definition names_ascending (l : list Indexer.Tag.t) : Prop :=
  StronglySorted
    (fun a b => String.ltb (Indexer.Tag.name a) (Indexer.Tag.name b) = true) l.

(** Records in descending order of the time their date stands for. *)
Definition dates_descending (Date_parse : string -> option Z)
           (l : list Indexer.PostMetadata) : Prop :=
  StronglySorted
    (fun a b =>
       exists ta tb,
         Date_parse (Indexer.date a) = Some ta /\
         Date_parse (Indexer.date b) = Some tb /\ (tb <= ta)%Z) l.

(** The record's date stands for the time [time]. *)
Definition dated (Date_parse : string -> option Z) (time : Z)
           (p : Indexer.PostMetadata) : bool :=
  match Date_parse (Indexer.date p) with
  | Some t => Z.eqb t time
  | None => false
  end.

(** Two indexes agree on every field but [generated]. *)
Definition same_but_generated (a b : Indexer.Index.t) : Prop :=
  Indexer.Index.totalPosts a = Indexer.Index.totalPosts b /\
  Indexer.Index.posts a = Indexer.Index.posts b /\
  Indexer.Index.categories a = Indexer.Index.categories b /\
  Indexer.Index.tags a = Indexer.Index.tags b /\
  Indexer.Index.stats a = Indexer.Index.stats b.

(** An index with its time stamps blanked: [generated] and every record's
    [lastModified]. *)
Definition blank_lastModified (p : Indexer.PostMetadata)
  : Indexer.PostMetadata :=
  {| Indexer.id := Indexer.id p;
     Indexer.title := Indexer.title p;
     Indexer.excerpt := Indexer.excerpt p;
     Indexer.date := Indexer.date p;
     Indexer.category := Indexer.category p;
     Indexer.tags := Indexer.tags p;
     Indexer.author := Indexer.author p;
     Indexer.readTime := Indexer.readTime p;
     Indexer.slug := Indexer.slug p;
     Indexer.wordCount := Indexer.wordCount p;
     Indexer.lastModified := "" |}.

Definition blank_timestamps (ix : Indexer.Index.t) : Indexer.Index.t :=
  Indexer.Index.mk ""
    (Indexer.Index.totalPosts ix)
    (map blank_lastModified (Indexer.Index.posts ix))
    (Indexer.Index.categories ix)
    (Indexer.Index.tags ix)
    (Indexer.Index.stats ix).

(** The calendar day of a clock reading. *)
Definition day_of (reading : string) : string := split_first "T" reading.

(** The records of the files that are read and extracted without an
    exception, in the order of the files; [t] counts the clock readings
    made before. *)
Fixpoint extracted_from (clock : nat -> string) (fs : Indexer.FileSystem)
         (files : list string) (t : nat) : list Indexer.PostMetadata :=
  match files with
  | [] => []
  | file :: rest =>
      match Indexer.readFileSync fs file with
      | Ok doc =>
          match Indexer.extractMetadata clock doc file t with
          | (Ok metadata, t') => metadata :: extracted_from clock fs rest t'
          | (Throw _, t') => extracted_from clock fs rest t'
          end
      | Throw _ => extracted_from clock fs rest t
      end
  end.

Definition extracted_records (clock : nat -> string)
           (fs : Indexer.FileSystem) (t : nat) : list Indexer.PostMetadata :=
  extracted_from clock fs (html_files fs) t.

(** The categories and the tags of a list of records, each once, in the
    order of first appearance. *)
Definition categories_of (records : list Indexer.PostMetadata)
  : list Nullable :=
  fold_left (fun s p => set_add strict_eq (Indexer.category p) s) records [].

Definition tags_of (records : list Indexer.PostMetadata) : list string :=
  fold_left
    (fun s p =>
       fold_left (fun s tag => set_add String.eqb tag s) (Indexer.tags p) s)
    records [].

(** The sum of the counts of a categories list. *)
Definition total_count (l : list Indexer.Category.t) : Z :=
  fold_right (fun entry acc => (Indexer.Category.count entry + acc)%Z) 0%Z l.

(** A categories list in ascending code-unit order of the names as
    strings ([null] reads "null"). *)
Definition category_names_ascending (l : list Indexer.Category.t) : Prop :=
  StronglySorted
    (fun a b =>
       String.compare (ToString (Indexer.Category.name a))
                      (ToString (Indexer.Category.name b)) <> Gt) l.

(** A string without white space. *)
Fixpoint no_white (s : string) : bool :=
  match s with
  | EmptyString => true
  | String c s' => (negb (is_white c) && no_white s')%bool
  end.

(** A string without line terminator. *)
Fixpoint single_line (s : string) : bool :=
  match s with
  | EmptyString => true
  | String c s' => (negb (is_line_terminator c) && single_line s')%bool
  end.

(** A piece of a split that holds no character. *)
Definition is_empty (w : string) : bool := negb (Nat.ltb 0 (String.length w)).

(** The sum of the minutes the records' word counts stand for. *)
Definition total_minutes (posts : list Indexer.PostMetadata) : Z :=
  fold_right
    (fun p acc => (Indexer.read_minutes (Indexer.wordCount p) + acc)%Z)
    0%Z posts.

(** [t] occurs in [s]. *)
Definition occurs_in (t s : string) : Prop :=
  exists pre post, s = (pre ++ t ++ post)%string.

(** The post matches a search term: the term occurs in the lower-cased
    title, excerpt, category or one of the tags. *)
Definition matches_term (term : string) (p : Script.Post) : Prop :=
  occurs_in term (toLowerCase (Script.title p)) \/
  (exists e, Script.excerpt p = Some e /\ occurs_in term (toLowerCase e)) \/
  (exists c, Script.category p = Some c /\ occurs_in term (toLowerCase c)) \/
  (exists tag, In tag (Script.tags p) /\ occurs_in term (toLowerCase tag)).

(** The search callback reaches a [null] field of the post: the title
    does not match and the excerpt is [null], or the excerpt does not
    match either and the category is [null]. *)
Definition reaches_null (term : string) (p : Script.Post) : Prop :=
  ~ occurs_in term (toLowerCase (Script.title p)) /\
  (Script.excerpt p = None \/
   (exists e, Script.excerpt p = Some e /\
              ~ occurs_in term (toLowerCase e) /\
              Script.category p = None)).

(** The last character of the string is a digit. *)
Fixpoint ends_with_digit (s : string) : bool :=
  match s with
  | EmptyString => false
  | String c EmptyString => is_digit c
  | String _ s' => ends_with_digit s'
  end.

(** The distinct elements of a list, in the order of their first
    occurrence. *)
Definition first_seen (l : list string) : list string :=
  fold_left (fun s x => set_add String.eqb x s) l [].

(** How often [x] occurs in [l]. *)
Definition occurrences (l : list string) (x : string) : nat :=
  count_occ string_dec l x.

(** A key that counts in a plain object as expected: neither an array
    index nor a property inherited from [Object.prototype]. *)
Definition plain_key (key : string) : Prop :=
  Script.array_index key = None /\ ~ In key Script.Object_prototype.

(** The object that counting builds: one property for each distinct
    key, in the order of first occurrence, holding the number of
    occurrences. *)
Definition counted (keys : list string) : Script.Obj :=
  map (fun k => (k, Script.Num (Z.of_nat (occurrences keys k))))
      (first_seen keys).

(** The order of [b[1] - a[1]] on names. *)
Definition by_occurrences (keys : list string) : Comparator string :=
  fun a b => Some (Z.of_nat (occurrences keys b)
                   - Z.of_nat (occurrences keys a))%Z.

(** [k] times: a click on the load-more button, then its callback. *)
Fixpoint load_more_rounds (k : nat) (st : Script.Blog) : Script.Blog :=
  match k with
  | O => st
  | S k' =>
      Script.loadMorePosts_timeout
        (Script.loadMorePosts (load_more_rounds k' st))
  end.

End Spec.

Module Examples.
Import Js Dom.

Definition meta (name content : string) : Node :=
  Element "meta" [("name", name); ("content", content)] [].

Definition meta_without_content (name : string) : Node :=
  Element "meta" [("name", name)] [].

Definition paragraph (text : string) : Node := Element "p" [] [Text text].

Fixpoint repeat_char (c : ascii) (n : nat) : string :=
  match n with
  | O => EmptyString
  | S n' => String c (repeat_char c n')
  end.

(** A clock that stands still, and one an hour later the same day. *)
Definition morning : nat -> string := fun _ => "2026-11-03T09:00:00.000Z".
Definition later : nat -> string := fun _ => "2026-11-03T10:00:00.000Z".

(** [Date.parse] on the date-only ISO form; every other string is left
    NaN in this instance. *)
Definition days_from_civil (y m d : Z) : Z :=
  let y' := if (m <=? 2)%Z then (y - 1)%Z else y in
  let era := (y' / 400)%Z in
  let yoe := (y' - era * 400)%Z in
  let mp := ((m + 9) mod 12)%Z in
  let doy := ((153 * mp + 2) / 5 + d - 1)%Z in
  let doe := (yoe * 365 + yoe / 4 - yoe / 100 + doy)%Z in
  (era * 146097 + doe - 719468)%Z.

Definition Date_parse_iso (s : string) : option Z :=
  if Spec.is_ymd s then
    let y := digits_value 0 (String.substring 0 4 s) in
    let m := digits_value 0 (String.substring 5 2 s) in
    let d := digits_value 0 (String.substring 8 2 s) in
    if ((1 <=? m) && (m <=? 12) && (1 <=? d) && (d <=? 31))%Z%bool
    then Some (days_from_civil y m d * 86400000)%Z
    else None
  else None.

(** A posts directory from a list of files. *)
Fixpoint read_from (files : list (string * Document)) (name : string)
  : Result Document :=
  match files with
  | [] => Throw IOError
  | (n, d) :: rest => if String.eqb n name then Ok d else read_from rest name
  end.

Definition directory (files : list (string * Document)) : Indexer.FileSystem :=
  Indexer.mkFileSystem true (map fst files) (read_from files).

Definition tagged (keywords : string) : Document :=
  mkDocument false [meta "keywords" keywords] [] [].

Definition dated_doc (date : string) : Document :=
  mkDocument false [meta "date" date] [] [].

Definition keywords_without_content : Document :=
  mkDocument false [meta_without_content "keywords"] [] [].

Definition description_without_content : Document :=
  mkDocument false [meta_without_content "description"] [] [paragraph "Hello"].

Definition empty_paragraph : Document := mkDocument false [] [] [paragraph ""].

Definition long_paragraph : Document :=
  mkDocument false [] [] [paragraph (repeat_char "a" 250)].

Definition published : Document :=
  mkDocument false
    [Element "meta" [("property", "article:published_time");
                     ("content", "2025-09-20T10:00:00Z")] []]
    [] [].

Definition three_dates : Indexer.FileSystem :=
  directory [("a.html", dated_doc "2025-09-20");
             ("b.html", dated_doc "2025-09-23");
             ("c.html", dated_doc "2025-09-18")].

(** Documents dated 2025-01-01 and 2025-01-03 around one whose date meta
    tag holds no date. *)
Definition one_date_unknown : Indexer.FileSystem :=
  directory [("a.html", dated_doc "2025-01-01");
             ("b.html", dated_doc "unknown");
             ("c.html", dated_doc "2025-01-03")].

Definition four_dates_one_unknown : Indexer.FileSystem :=
  directory [("a.html", dated_doc "2025-01-02");
             ("b.html", dated_doc "2025-01-03");
             ("c.html", dated_doc "unknown");
             ("d.html", dated_doc "2025-01-04")].

(** A document whose one tag element spells its class with a capital. *)
Definition capital_class (quirks : bool) : Document :=
  mkDocument quirks [] []
    [Element "span" [("class", "Tag")] [Text "upper"]].

Definition tags_A_B_B : Indexer.FileSystem :=
  directory [("a.html", tagged "A"); ("b.html", tagged "B");
             ("c.html", tagged "B")].

Definition tags_XY_X : Indexer.FileSystem :=
  directory [("a.html", tagged "X,Y"); ("b.html", tagged "X")].

Definition eleven_tags : Indexer.FileSystem :=
  directory [("a.html", tagged "a,b,c,d,e,f,g,h,i,j,k")].

Definition repeated_tag : Indexer.FileSystem :=
  directory [("a.html", tagged "X, X"); ("b.html", tagged "X")].

Definition one_post : Indexer.FileSystem :=
  directory [("a.html", dated_doc "2025-09-20")].

(** A clock showing the following day. *)
Definition next_day : nat -> string := fun _ => "2026-11-04T09:00:00.000Z".

Definition date_without_content : Document :=
  mkDocument false [meta_without_content "date"] [] [].

Definition undated : Indexer.FileSystem :=
  directory [("a.html", tagged "A")].

Definition categorised (category : string) : Document :=
  mkDocument false [meta "category" category] [] [].

Definition three_categorised : Indexer.FileSystem :=
  directory [("a.html", categorised "Tech"); ("b.html", categorised "Art");
             ("c.html", categorised "Tech")].

(** A directory whose only [.html] file cannot be extracted, next to a
    file that is not a post. *)
Definition nothing_extracted : Indexer.FileSystem :=
  directory [("a.html", keywords_without_content);
             ("notes.txt", tagged "A")].

Definition category_label (text : string) : Document :=
  mkDocument false [] []
    [Element "a" [("class", "post-category")] [Text text]].

(** A text of [n] words. *)
Fixpoint words (n : nat) : string :=
  match n with
  | O => EmptyString
  | S n' => String "w" (String " " (words n'))
  end.

Definition wordy : Document := mkDocument false [] [] [paragraph (words 201)].

(** A document of 201 words and one without text. *)
Definition long_and_short : Indexer.FileSystem :=
  directory [("a.html", wordy); ("b.html", dated_doc "2025-09-20")].

(** A server whose [posts.json] lists the sample posts, oldest first. *)
Definition index_fetch : string -> Result Script.Response :=
  fun url =>
    if String.eqb url "./posts/posts.json"
    then Ok (Script.mkResponse true
               (mkPage "" (mkDocument true [] [] []))
               (Ok (Some (Script.mkPostsData
                            (Some (rev Script.getSamplePosts))))))
    else Throw NetworkError.

(** A server that has the known post, with keywords, and no index. *)
Definition known_post_fetch : string -> Result Script.Response :=
  fun url =>
    if String.eqb url "./posts/what-exactly-is-a-computer.html"
    then Ok (Script.mkResponse true
               (mkPage "<html>" (tagged "Basics, Hardware"))
               (Throw SyntaxError))
    else Throw NetworkError.

(** A page holding [posts], before anything is displayed. *)
Definition blog_of (posts : list Script.Post) : Script.Blog :=
  Script.mkBlog posts [] 0 false "" [] Script.as_styled Script.as_styled
                "Load More Posts" false 0.

Definition post_titled (title : string) (tags : list string) : Script.Post :=
  Script.mkPost ("post-" ++ title) title (Some "An excerpt.") ""
                (Some "2025-09-20") (Some "General") tags
                "SilentCoderHub" "1 min read" title.

(** Twelve posts. *)
Definition twelve_posts : list Script.Post :=
  map (fun title => post_titled title ["Blog"])
      ["a"; "b"; "c"; "d"; "e"; "f"; "g"; "h"; "i"; "j"; "k"; "l"].

(** A post as [parsePostHTML] builds it from a document whose description
    meta tag has no content: its excerpt is [null]. *)
Definition post_without_excerpt : Script.Post :=
  Script.mkPost "post-x" "Untitled Post" None "" (Some "2025-09-20")
                (Some "General") ["Blog"] "SilentCoderHub" "1 min read" "x".

Definition searchable_posts : list Script.Post :=
  [post_titled "Rocq" ["Proofs"]; post_titled "Other" ["Blog"];
   post_titled "JS" ["rocq-tips"]].

Definition tagged_posts : list Script.Post :=
  [post_titled "one" ["HTML5"]; post_titled "two" ["CSS"];
   post_titled "three" ["HTML"]; post_titled "four" ["2024"]].

Definition sidebar_posts : list Script.Post :=
  [post_titled "one" ["css"; "html"]; post_titled "two" ["js"; "html"];
   post_titled "three" ["js"; "rocq"]].

Definition uncategorised (title : string) : Script.Post :=
  Script.mkPost ("post-" ++ title) title (Some "An excerpt.") ""
                (Some "2025-09-20") None []
                "SilentCoderHub" "1 min read" title.

(** Posts of which one carries a tag named like a method every object
    inherits. *)
Definition inherited_tag_posts : list Script.Post :=
  [post_titled "one" ["css"]; post_titled "two" ["valueOf"];
   post_titled "three" ["js"; "js"]].

Definition sidebar_categories : list Script.Post :=
  [post_titled "one" []; uncategorised "two"; uncategorised "three"].

(** A network on which every request is rejected. *)
Definition offline_fetch : string -> Result Script.Response :=
  fun _ => Throw NetworkError.

(** A server without [posts.json] and without the known post: every
    request is answered 404. *)
Definition not_found_fetch : string -> Result Script.Response :=
  fun _ => Ok (Script.mkResponse false
                 (mkPage "" (mkDocument true [] [] []))
                 (Throw SyntaxError)).

End Examples.

(* ================================================================== *)
(** ** Facts about the built-ins *)
(* ================================================================== *)

(** *** The sort order *)

Section SortFacts.

Context {A : Type}.
Variable cmp : Js.Comparator A.

Lemma insert_perm (x : A) (l : list A) :
  Permutation (Js.insert cmp x l) (x :: l).
Proof.
  induction l as [|y l IH]; simpl.
  - apply Permutation_refl.
  - destruct (Js.before cmp x y).
    + apply Permutation_refl.
    + eapply Permutation_trans; [apply perm_skip, IH | apply perm_swap].
Qed.

Lemma sort_order_perm (l : list A) : Permutation (Js.sort_order cmp l) l.
Proof.
  induction l as [|x l IH]; simpl.
  - constructor.
  - eapply Permutation_trans; [apply insert_perm | apply perm_skip, IH].
Qed.

Lemma sort_order_In (l : list A) (x : A) :
  In x (Js.sort_order cmp l) <-> In x l.
Proof.
  split; apply Permutation_in;
    [apply sort_order_perm | apply Permutation_sym, sort_order_perm].
Qed.

Lemma sort_order_length (l : list A) :
  List.length (Js.sort_order cmp l) = List.length l.
Proof. apply Permutation_length, sort_order_perm. Qed.

(** Stability: a class of elements that the comparator never orders
    strictly keeps its order. *)
Lemma insert_filter (f : A -> bool) (x : A) (l : list A) :
  (forall y, In y l -> f x = true -> f y = true -> Js.before cmp x y = true) ->
  filter f (Js.insert cmp x l) = filter f (x :: l).
Proof.
  induction l as [|y l IH]; intros H; simpl.
  - reflexivity.
  - destruct (Js.before cmp x y) eqn:E; simpl.
    + reflexivity.
    + rewrite IH by (intros; apply H; simpl; auto).
      simpl. destruct (f x) eqn:Fx, (f y) eqn:Fy; try reflexivity.
      rewrite H in E by (simpl; auto). discriminate.
Qed.

Lemma sort_order_stable (f : A -> bool) (l : list A) :
  (forall x y, In x l -> In y l -> f x = true -> f y = true ->
               Js.before cmp x y = true) ->
  filter f (Js.sort_order cmp l) = filter f l.
Proof.
  induction l as [|x l IH]; intros H; simpl.
  - reflexivity.
  - rewrite insert_filter.
    + simpl. rewrite IH by (intros; apply H; simpl; auto). reflexivity.
    + intros y Hy; apply H; simpl; auto.
      right. apply (proj1 (sort_order_In l y)), Hy.
Qed.

(** Order: where the comparator is total and transitive on the elements
    of the list, the result is sorted. *)
Variable good : A -> Prop.
Hypothesis before_total :
  forall x y, good x -> good y ->
              Js.before cmp x y = false -> Js.before cmp y x = true.
Hypothesis before_trans :
  forall x y z, good x -> good y -> good z ->
                Js.before cmp x y = true -> Js.before cmp y z = true ->
                Js.before cmp x z = true.

Lemma insert_sorted (x : A) (l : list A) :
  good x -> Forall good l ->
  StronglySorted (fun a b => Js.before cmp a b = true) l ->
  StronglySorted (fun a b => Js.before cmp a b = true) (Js.insert cmp x l).
Proof.
  intros Gx Gl Hs. induction Hs as [|y l Hs IH Hy]; simpl.
  - constructor; constructor.
  - inversion Gl as [|? ? Gy Gl']; subst.
    destruct (Js.before cmp x y) eqn:E.
    + constructor; [constructor; assumption|].
      constructor; [assumption|].
      rewrite Forall_forall in *. intros z Hz.
      apply before_trans with y; auto.
    + constructor; [apply IH; assumption|].
      rewrite Forall_forall in *. intros z Hz.
      apply (Permutation_in _ (insert_perm x l)) in Hz.
      destruct Hz as [<-|Hz]; auto.
Qed.

Lemma sort_order_sorted (l : list A) :
  Forall good l ->
  StronglySorted (fun a b => Js.before cmp a b = true) (Js.sort_order cmp l).
Proof.
  induction l as [|x l IH]; intros G; simpl.
  - constructor.
  - inversion G as [|? ? Gx Gl]; subst. apply insert_sorted.
    + exact Gx.
    + rewrite Forall_forall in *. intros z Hz.
      apply Gl, (proj1 (sort_order_In l z)), Hz.
    + apply IH, Gl.
Qed.

End SortFacts.

(** Sorting commutes with a map that the comparator does not see. *)
Lemma sort_order_map {A B} (cmpA : Js.Comparator A) (cmpB : Js.Comparator B)
      (f : A -> B) (l : list A) :
  (forall x y, cmpB (f x) (f y) = cmpA x y) ->
  Js.sort_order cmpB (map f l) = map f (Js.sort_order cmpA l).
Proof.
  intros H.
  assert (Hins : forall x s, Js.insert cmpB (f x) (map f s)
                             = map f (Js.insert cmpA x s)).
  { intros x s. induction s as [|y s IH]; simpl; [reflexivity|].
    unfold Js.before. rewrite H.
    destruct (cmpA x y) as [v|]; [destruct (v <=? 0)%Z|]; simpl;
      now rewrite ?IH. }
  induction l as [|x l IH]; simpl; [reflexivity|].
  now rewrite IH, Hins.
Qed.

(** *** [a.sort(comparefn)] with any comparator *)

Lemma insert_at_perm {A} (k : nat) (x : A) (l : list A) :
  Permutation (Js.insert_at k x l) (x :: l).
Proof.
  unfold Js.insert_at. apply Permutation_sym.
  rewrite <- (firstn_skipn k l) at 1. apply Permutation_middle.
Qed.

Lemma arrange_perm {A} (places : list nat) (l done : list A) :
  Permutation (Js.arrange places l done) (done ++ l).
Proof.
  revert places done. induction l as [|x l IH]; intros places done; simpl.
  - now rewrite app_nil_r.
  - eapply Permutation_trans; [apply IH|].
    eapply Permutation_trans;
      [apply Permutation_app_tail, insert_at_perm|].
    simpl. apply Permutation_middle.
Qed.

Lemma arrange_map {A B} (f : A -> B) (places : list nat) (l done : list A) :
  Js.arrange places (map f l) (map f done)
  = map f (Js.arrange places l done).
Proof.
  revert places done. induction l as [|x l IH]; intros places done; simpl.
  - reflexivity.
  - rewrite <- IH. f_equal. unfold Js.insert_at.
    rewrite length_map, map_app, firstn_map. simpl. now rewrite skipn_map.
Qed.

Lemma consistent_spec {A} (cmp : Js.Comparator A) (l : list A) :
  Js.consistent cmp l = true <->
  forall a b c, In a l -> In b l -> In c l ->
                Js.consistent_at cmp a b c = true.
Proof.
  unfold Js.consistent. rewrite forallb_forall. split.
  - intros H a b c Ha Hb Hc. specialize (H a Ha).
    rewrite forallb_forall in H. specialize (H b Hb).
    rewrite forallb_forall in H. exact (H c Hc).
  - intros H a Ha. apply forallb_forall. intros b Hb.
    apply forallb_forall. intros c Hc. now apply H.
Qed.

(** A comparator whose results are differences of numbers attached to
    the elements is consistent. *)
Lemma consistent_by_value {A} (cmp : Js.Comparator A) (value : A -> Z)
      (l : list A) :
  (forall a b, In a l -> In b l -> cmp a b = Some (value a - value b)%Z) ->
  Js.consistent cmp l = true.
Proof.
  intros H. apply consistent_spec. intros a b c Ha Hb Hc.
  unfold Js.consistent_at, Js.SortCompare, Js.before.
  rewrite (H a b Ha Hb), (H b a Hb Ha), (H b c Hb Hc), (H a c Ha Hc).
  apply andb_true_iff. split.
  - apply Z.eqb_eq. lia.
  - destruct (Z.leb_spec (value a - value b) 0),
             (Z.leb_spec (value b - value c) 0),
             (Z.leb_spec (value a - value c) 0); simpl; try reflexivity; lia.
Qed.

Lemma consistent_map {A B} (cmpA : Js.Comparator A) (cmpB : Js.Comparator B)
      (f : A -> B) (l : list A) :
  (forall x y, cmpB (f x) (f y) = cmpA x y) ->
  Js.consistent cmpB (map f l) = Js.consistent cmpA l.
Proof.
  intros H.
  assert (E : forall a b c,
             Js.consistent_at cmpB (f a) (f b) (f c)
             = Js.consistent_at cmpA a b c).
  { intros a b c. unfold Js.consistent_at, Js.SortCompare, Js.before.
    now rewrite !H. }
  apply Bool.eq_iff_eq_true. rewrite !consistent_spec. split.
  - intros G a b c Ha Hb Hc. rewrite <- E.
    apply G; now apply in_map.
  - intros G a b c Ha Hb Hc.
    apply in_map_iff in Ha, Hb, Hc.
    destruct Ha as [a' [<- Ha]], Hb as [b' [<- Hb]], Hc as [c' [<- Hc]].
    rewrite E. now apply G.
Qed.

Lemma comparisons_map {A B} (cmpA : Js.Comparator A)
      (cmpB : Js.Comparator B) (f : A -> B) (l : list A) :
  (forall x y, cmpB (f x) (f y) = cmpA x y) ->
  Js.comparisons cmpB (map f l) = Js.comparisons cmpA l.
Proof.
  intros H. unfold Js.comparisons. rewrite map_map. apply map_ext.
  intros x. rewrite map_map. apply map_ext. intros y.
  unfold Js.SortCompare. now rewrite H.
Qed.

Section SortWithEngine.

Context {A : Type}.
Variable engine : Js.Engine.
Variable cmp : Js.Comparator A.

(** With a consistent comparator the engine has no say. *)
Lemma sort_consistent (l : list A) :
  Js.consistent cmp l = true -> Js.sort engine cmp l = Js.sort_order cmp l.
Proof. intros H. unfold Js.sort. now rewrite H. Qed.

Lemma sort_perm (l : list A) : Permutation (Js.sort engine cmp l) l.
Proof.
  unfold Js.sort. destruct (Js.consistent cmp l).
  - apply sort_order_perm.
  - apply (arrange_perm _ l []).
Qed.

Lemma sort_In (l : list A) (x : A) : In x (Js.sort engine cmp l) <-> In x l.
Proof.
  split; apply Permutation_in;
    [apply sort_perm | apply Permutation_sym, sort_perm].
Qed.

Lemma sort_length (l : list A) :
  List.length (Js.sort engine cmp l) = List.length l.
Proof. apply Permutation_length, sort_perm. Qed.

End SortWithEngine.

(** The engine sees the elements through the comparator only. *)
Lemma sort_map {A B} (engine : Js.Engine) (cmpA : Js.Comparator A)
      (cmpB : Js.Comparator B) (f : A -> B) (l : list A) :
  (forall x y, cmpB (f x) (f y) = cmpA x y) ->
  Js.sort engine cmpB (map f l) = map f (Js.sort engine cmpA l).
Proof.
  intros H. unfold Js.sort.
  rewrite (consistent_map cmpA cmpB f l H),
    (comparisons_map cmpA cmpB f l H).
  destruct (Js.consistent cmpA l).
  - now apply sort_order_map.
  - apply (arrange_map f _ l []).
Qed.

(** An array of fewer than two elements stays as it is. *)
Lemma sort_short {A} (engine : Js.Engine) (cmp : Js.Comparator A)
      (l : list A) :
  List.length l < 2 -> Js.sort engine cmp l = l.
Proof.
  intros H. destruct l as [|x [|y l]]; [reflexivity| |simpl in H; lia].
  unfold Js.sort. destruct (Js.consistent cmp [x]); [reflexivity|].
  cbn [Js.arrange]. unfold Js.insert_at.
  now rewrite firstn_nil, skipn_nil.
Qed.

(** *** Code-unit order of strings *)

Lemma ascii_compare_refl (a : ascii) : Ascii.compare a a = Eq.
Proof. unfold Ascii.compare. apply N.compare_refl. Qed.

Lemma ascii_compare_lt_trans (a b c : ascii) :
  Ascii.compare a b = Lt -> Ascii.compare b c = Lt -> Ascii.compare a c = Lt.
Proof.
  unfold Ascii.compare. rewrite !N.compare_lt_iff. apply N.lt_trans.
Qed.

Lemma string_compare_le_trans (x y z : string) :
  String.compare x y <> Gt -> String.compare y z <> Gt ->
  String.compare x z <> Gt.
Proof.
  revert y z. induction x as [|a x IH]; intros [|b y] [|c z]; simpl;
    try congruence.
  destruct (Ascii.compare a b) eqn:E1; destruct (Ascii.compare b c) eqn:E2;
    try congruence.
  - apply Ascii.compare_eq_iff in E1, E2. subst.
    rewrite ascii_compare_refl. apply IH.
  - apply Ascii.compare_eq_iff in E1. subst. rewrite E2. congruence.
  - apply Ascii.compare_eq_iff in E2. subst. rewrite E1. congruence.
  - rewrite (ascii_compare_lt_trans _ _ _ E1 E2). congruence.
Qed.

Lemma before_default_compare (x y : string) :
  Js.before Js.default_compare x y = true <-> String.compare x y <> Gt.
Proof.
  unfold Js.before, Js.default_compare.
  destruct (String.compare x y); cbv; split; intros H;
    try reflexivity; try discriminate; try congruence.
Qed.

Lemma default_compare_total (x y : string) :
  Js.before Js.default_compare x y = false ->
  Js.before Js.default_compare y x = true.
Proof.
  intros H. apply before_default_compare.
  assert (E : String.compare x y = Gt).
  { destruct (String.compare x y) eqn:E; auto;
      assert (Js.before Js.default_compare x y = true)
        by (apply before_default_compare; congruence); congruence. }
  rewrite String.compare_antisym, E. simpl. congruence.
Qed.

Lemma default_compare_trans (x y z : string) :
  Js.before Js.default_compare x y = true ->
  Js.before Js.default_compare y z = true ->
  Js.before Js.default_compare x z = true.
Proof.
  rewrite !before_default_compare. apply string_compare_le_trans.
Qed.

(** The default comparison is consistent on every array of strings, so
    [a.sort()] gives the sort order whatever the engine. *)
Lemma default_compare_consistent (engine : Js.Engine) (l : list string) :
  Js.consistent Js.default_compare l = true /\
  Js.sort engine Js.default_compare l = Js.sort_order Js.default_compare l.
Proof.
  assert (C : Js.consistent Js.default_compare l = true).
  { apply consistent_spec. intros a b c _ _ _.
    unfold Js.consistent_at. apply andb_true_iff. split.
    - unfold Js.SortCompare, Js.default_compare.
      rewrite (String.compare_antisym a b).
      destruct (String.compare b a); reflexivity.
    - destruct (Js.before Js.default_compare a b) eqn:E1; [|reflexivity].
      destruct (Js.before Js.default_compare b c) eqn:E2; [|reflexivity].
      now rewrite (default_compare_trans a b c E1 E2). }
  split; [exact C | now apply sort_consistent].
Qed.

Lemma default_compare_nullable_consistent (engine : Js.Engine)
      (l : list Js.Nullable) :
  Js.consistent Js.default_compare_nullable l = true /\
  Js.sort engine Js.default_compare_nullable l
  = Js.sort_order Js.default_compare_nullable l.
Proof.
  assert (C : Js.consistent Js.default_compare_nullable l = true).
  { rewrite <- (consistent_map Js.default_compare_nullable
                  Js.default_compare Js.ToString l) by reflexivity.
    apply (default_compare_consistent engine). }
  split; [exact C | now apply sort_consistent].
Qed.

Lemma sort_default_sorted (l : list string) :
  StronglySorted (fun a b => String.compare a b <> Gt)
                 (Js.sort_order Js.default_compare l).
Proof.
  assert (H : StronglySorted
                (fun a b => Js.before Js.default_compare a b = true)
                (Js.sort_order Js.default_compare l)).
  { apply (sort_order_sorted Js.default_compare (fun _ => True)).
    - intros; now apply default_compare_total.
    - intros x y z _ _ _. apply default_compare_trans.
    - apply Forall_forall; auto. }
  induction H; constructor; auto.
  eapply Forall_impl; [|eassumption].
  intros b Hb. now apply before_default_compare.
Qed.

Lemma sorted_NoDup_strict (l : list string) :
  StronglySorted (fun a b => String.compare a b <> Gt) l ->
  NoDup l ->
  StronglySorted (fun a b => String.ltb a b = true) l.
Proof.
  induction 1 as [|x l Hs IH Hx]; intros Hnd; constructor.
  - apply IH. now inversion Hnd.
  - inversion Hnd as [|? ? Hnotin _]; subst.
    rewrite Forall_forall in *. intros y Hy.
    specialize (Hx y Hy). unfold String.ltb.
    destruct (String.compare x y) eqn:E; try congruence.
    apply String.compare_eq_iff in E. subst. contradiction.
Qed.

Lemma StronglySorted_map {A B} (R : B -> B -> Prop) (f : A -> B) (l : list A) :
  StronglySorted (fun a b => R (f a) (f b)) l ->
  StronglySorted R (map f l).
Proof.
  induction 1 as [|x l Hs IH Hx]; simpl; constructor; auto.
  rewrite Forall_forall in *. intros y Hy.
  apply in_map_iff in Hy. destruct Hy as [z [<- Hz]]. auto.
Qed.

(** *** Strings *)

Lemma length_substring_prefix (n : nat) (s : string) :
  String.length (String.substring 0 n s) = Nat.min n (String.length s).
Proof.
  revert s. induction n as [|n IH]; intros [|c s]; simpl; auto.
Qed.

Lemma string_length_append (a b : string) :
  String.length (a ++ b)%string = String.length a + String.length b.
Proof. induction a; simpl; auto. Qed.

Lemma split_first_append (sep : ascii) (d rest : string) :
  Js.split_first sep d = d ->
  Js.split_first sep (d ++ String sep rest)%string = d.
Proof.
  unfold Js.split_first. induction d as [|c d IH]; simpl.
  - rewrite Ascii.eqb_refl. reflexivity.
  - destruct (Ascii.eqb c sep); simpl; [discriminate|].
    destruct (Js.split sep d) as [|h t] eqn:E; simpl in *.
    + destruct d; discriminate.
    + intros H. injection H as H. specialize (IH H).
      destruct (Js.split sep (d ++ String sep rest)) as [|h' t'];
        simpl in *; congruence.
Qed.

(* ================================================================== *)
(** ** The metadata builders *)
(* ================================================================== *)

Section BuilderFacts.
Import Js Dom.

Variable clock : nat -> string.

(** The date step reads the clock once and then either returns or throws. *)
Lemma extract_date_cases (doc : Document) (slug : string) (t : nat) :
  Indexer.extract_date clock doc slug t =
  (match querySelector doc Spec.date_selector with
   | Some metaDate =>
       match getAttribute metaDate "content" with
       | Some content => Ok (split_first "T" content)
       | None => Throw TypeError
       end
   | None =>
       match Indexer.match_ymd slug with
       | Some d => Ok d
       | None => Ok (Spec.day_of (clock t))
       end
   end, S t).
Proof.
  unfold Indexer.extract_date, Spec.date_selector, bind,
    Date_now_toISOString, ret, throw, Spec.day_of.
  destruct (querySelector doc _) as [m|].
  - destruct (getAttribute m "content"); reflexivity.
  - destruct (Indexer.match_ymd slug); reflexivity.
Qed.

(** The builder as a function of its two fallible steps. *)
Lemma extractMetadata_cases (doc : Document) (filename : string) (t : nat) :
  Indexer.extractMetadata clock doc filename t =
  let slug := Indexer.basename filename ".html" in
  match Indexer.extract_date clock doc slug t with
  | (Ok date, t1) =>
      match Indexer.extract_tags doc with
      | Ok tags =>
          (Ok {| Indexer.id := ("post-" ++ slug)%string;
                 Indexer.title := Indexer.extract_title doc;
                 Indexer.excerpt :=
                   or_else (Indexer.extract_excerpt doc)
                           "No excerpt available.";
                 Indexer.date := date;
                 Indexer.category := Indexer.extract_category doc;
                 Indexer.tags := tags;
                 Indexer.author := Indexer.extract_author doc;
                 Indexer.readTime :=
                   (show_int (Indexer.read_minutes (Indexer.count_words doc))
                    ++ " min read")%string;
                 Indexer.slug := slug;
                 Indexer.wordCount := Indexer.count_words doc;
                 Indexer.lastModified := clock t1 |}, S t1)
      | Throw e => (Throw e, t1)
      end
  | (Throw e, t1) => (Throw e, t1)
  end.
Proof.
  unfold Indexer.extractMetadata, bind, lift, ret, Date_now_toISOString.
  cbv zeta.
  destruct (Indexer.extract_date clock doc _ t) as [[date|e] t1];
    [|reflexivity].
  destruct (Indexer.extract_tags doc); reflexivity.
Qed.

Lemma extract_tags_ok (doc : Document) :
  is_ok (Indexer.extract_tags doc) = Spec.has_content doc Spec.keywords_selector.
Proof.
  unfold Indexer.extract_tags, Spec.has_content, Spec.keywords_selector.
  destruct (querySelector doc _) as [m|].
  - destruct (getAttribute m "content"); reflexivity.
  - destruct (Nat.ltb _ _); reflexivity.
Qed.

Lemma extract_date_ok (doc : Document) (slug : string) (t : nat) :
  is_ok (fst (Indexer.extract_date clock doc slug t))
  = Spec.has_content doc Spec.date_selector.
Proof.
  rewrite extract_date_cases. unfold Spec.has_content. simpl.
  destruct (querySelector doc _) as [m|].
  - destruct (getAttribute m "content"); reflexivity.
  - destruct (Indexer.match_ymd slug); reflexivity.
Qed.

(** When both fallible steps return, so does the builder, after two
    readings of the clock. *)
Lemma extractMetadata_returns (doc : Document) (filename : string) (t : nat) :
  Spec.has_content doc Spec.date_selector = true ->
  Spec.has_content doc Spec.keywords_selector = true ->
  exists date tags,
    fst (Indexer.extract_date clock doc (Indexer.basename filename ".html") t)
      = Ok date /\
    Indexer.extract_tags doc = Ok tags /\
    Indexer.extractMetadata clock doc filename t =
    (Ok {| Indexer.id := ("post-" ++ Indexer.basename filename ".html")%string;
           Indexer.title := Indexer.extract_title doc;
           Indexer.excerpt :=
             or_else (Indexer.extract_excerpt doc) "No excerpt available.";
           Indexer.date := date;
           Indexer.category := Indexer.extract_category doc;
           Indexer.tags := tags;
           Indexer.author := Indexer.extract_author doc;
           Indexer.readTime :=
             (show_int (Indexer.read_minutes (Indexer.count_words doc))
              ++ " min read")%string;
           Indexer.slug := Indexer.basename filename ".html";
           Indexer.wordCount := Indexer.count_words doc;
           Indexer.lastModified := clock (S t) |}, S (S t)).
Proof.
  intros Hd Hk.
  rewrite <- extract_date_ok with (slug := Indexer.basename filename ".html")
                                  (t := t) in Hd.
  rewrite <- extract_tags_ok in Hk.
  rewrite extractMetadata_cases. cbv zeta.
  pose proof (extract_date_cases doc (Indexer.basename filename ".html") t) as E.
  destruct (Indexer.extract_date clock doc _ t) as [[date|e] t1];
    simpl in Hd; [|discriminate].
  injection E as _ <-.
  destruct (Indexer.extract_tags doc) as [tags|e]; simpl in Hk; [|discriminate].
  exists date, tags. auto.
Qed.

(** The browser's date step never throws. *)
Lemma extractDate_returns (doc : Document) (slug : string) (t : nat) :
  exists d t1, Script.extractDate clock doc slug t = (Ok d, t1).
Proof.
  unfold Script.extractDate, bind, ret, Date_now_toISOString.
  destruct (Script.or_node _ _).
  - eauto.
  - destruct (Indexer.match_ymd slug); eauto.
Qed.

Lemma parsePostHTML_cases (page : Page) (slug : string) (t : nat) :
  Script.parsePostHTML clock page slug t =
  match Script.extractDate clock (parsed page) slug t with
  | (Ok date, t1) =>
      match Script.extractTags (parsed page) with
      | Ok tags =>
          (Ok {| Script.id := ("post-" ++ slug)%string;
                 Script.title := Script.extractTitle (parsed page);
                 Script.excerpt := Script.extractExcerpt (parsed page);
                 Script.content := html page;
                 Script.date := date;
                 Script.category := Script.extractCategory (parsed page);
                 Script.tags := tags;
                 Script.author := "SilentCoderHub";
                 Script.readTime :=
                   Script.calculateReadTime (textContent (body (parsed page)));
                 Script.slug := slug |}, t1)
      | Throw e => (Throw e, t1)
      end
  | (Throw e, t1) => (Throw e, t1)
  end.
Proof.
  unfold Script.parsePostHTML, bind, lift, ret. cbv zeta.
  destruct (Script.extractDate clock (parsed page) slug t) as [[date|e] t1];
    [|reflexivity].
  destruct (Script.extractTags (parsed page)); reflexivity.
Qed.

Lemma extractTags_ok (doc : Document) :
  is_ok (Script.extractTags doc) = Spec.has_content doc Spec.keywords_selector.
Proof.
  unfold Script.extractTags, Spec.has_content, Spec.keywords_selector.
  destruct (querySelector doc _) as [m|].
  - destruct (getAttribute m "content"); reflexivity.
  - destruct (Nat.ltb _ _); reflexivity.
Qed.

(** [.post-content p, p] and [p] find the same first paragraph. *)
Lemma first_paragraph_selectors (doc : Document) :
  querySelector doc
    [Descendant (ByClass "post-content") (ByTag "p"); Sel (ByTag "p")]
  = querySelector doc Spec.paragraph_selector.
Proof.
  unfold querySelector, querySelectorAll, Spec.paragraph_selector.
  do 2 f_equal. apply filter_ext. intros [n anc]. unfold matches. simpl.
  destruct (matches_simple (quirks doc) (ByTag "p") n); simpl;
    [|reflexivity].
  destruct (existsb _ anc); reflexivity.
Qed.

End BuilderFacts.

(** *** The YYYY-MM-DD pattern *)

Lemma digit_not_T (c : ascii) :
  Js.is_digit c = true -> Ascii.eqb c "T" = false.
Proof.
  destruct c as [[|] [|] [|] [|] [|] [|] [|] [|]]; vm_compute; congruence.
Qed.

Lemma substring_0_0 (s : string) : String.substring 0 0 s = EmptyString.
Proof. destruct s; reflexivity. Qed.

Lemma ymd_here_sound (s d : string) :
  Indexer.ymd_here s = Some d ->
  Spec.is_ymd d = true /\ (exists post, s = (d ++ post)%string) /\
  Js.split_first "T" d = d.
Proof.
  destruct s as [|y1 [|y2 [|y3 [|y4 [|h1 [|m1 [|m2 [|h2 [|d1 [|d2 rest]]]]]]]]]];
    try discriminate.
  unfold Indexer.ymd_here.
  destruct (_ && _)%bool eqn:C; [|discriminate].
  intros [= <-]. cbn [String.substring]. rewrite substring_0_0.
  split; [|split].
  - unfold Spec.is_ymd, Indexer.ymd_here. rewrite C.
    cbn [String.substring]. apply String.eqb_refl.
  - exists rest. reflexivity.
  - do 9 (apply andb_prop in C; destruct C as [C ?]).
    repeat match goal with
           | H : Ascii.eqb _ "-" = true |- _ =>
               apply Ascii.eqb_eq in H; subst
           | H : Js.is_digit _ = true |- _ => apply digit_not_T in H
           end.
    unfold Js.split_first. cbn [Js.split].
    repeat match goal with
           | H : Ascii.eqb ?c "T" = false |- _ => rewrite H; clear H
           end.
    reflexivity.
Qed.

Lemma is_ymd_here (d post : string) :
  Spec.is_ymd d = true -> Indexer.ymd_here (d ++ post) = Some d.
Proof.
  unfold Spec.is_ymd.
  destruct (Indexer.ymd_here d) as [d'|] eqn:E; [|discriminate].
  intros H. apply String.eqb_eq in H. subst d'.
  destruct d as [|y1 [|y2 [|y3 [|y4 [|h1 [|m1 [|m2 [|h2 [|d1 [|d2 rest]]]]]]]]]];
    try discriminate.
  unfold Indexer.ymd_here in E.
  destruct (_ && _)%bool eqn:C in E; [|discriminate].
  cbn [String.substring] in E. rewrite substring_0_0 in E. injection E as E.
  assert (rest = EmptyString) by (destruct rest; [reflexivity|discriminate]).
  subst rest. cbn [String.append]. unfold Indexer.ymd_here. rewrite C.
  cbn [String.substring]. now rewrite substring_0_0.
Qed.

Lemma match_ymd_step (c : ascii) (s : string) :
  Indexer.match_ymd (String c s) =
  match Indexer.ymd_here (String c s) with
  | Some d => Some d
  | None => Indexer.match_ymd s
  end.
Proof. reflexivity. Qed.

Lemma match_ymd_sound (s d : string) :
  Indexer.match_ymd s = Some d ->
  Spec.is_ymd d = true /\ exists pre post, s = (pre ++ d ++ post)%string.
Proof.
  induction s as [|c s IH].
  - discriminate.
  - rewrite match_ymd_step.
    destruct (Indexer.ymd_here (String c s)) as [d'|] eqn:E.
    + intros [= <-]. apply ymd_here_sound in E.
      destruct E as [H1 [[post H2] _]].
      split; [exact H1|]. exists EmptyString, post. exact H2.
    + intros H. destruct (IH H) as [H1 [pre [post H2]]].
      split; [exact H1|]. exists (String c pre), post. simpl. now rewrite H2.
Qed.

Lemma match_ymd_complete (s : string) :
  Indexer.match_ymd s = None ->
  forall pre d post, s = (pre ++ d ++ post)%string -> Spec.is_ymd d = false.
Proof.
  induction s as [|c s IH]; intros H pre d post E.
  - destruct pre; [|discriminate]. destruct d; [reflexivity|discriminate].
  - rewrite match_ymd_step in H.
    destruct (Indexer.ymd_here (String c s)) as [d'|] eqn:Eh; [discriminate|].
    destruct pre as [|c' pre]; simpl in E.
    + destruct (Spec.is_ymd d) eqn:Ed; [|reflexivity].
      rewrite E, (is_ymd_here d post Ed) in Eh. discriminate.
    + injection E as _ E. exact (IH H pre d post E).
Qed.

Lemma is_ymd_no_time (d : string) :
  Spec.is_ymd d = true -> Js.split_first "T" d = d.
Proof.
  intros H. pose proof (is_ymd_here d EmptyString H) as E.
  apply ymd_here_sound in E. apply E.
Qed.

(* ================================================================== *)
(** ** Properties of the metadata builders *)
(* ================================================================== *)

Section BuilderProperties.
Import Js Dom.

(** The builders throw exactly when a matched [keywords] meta tag (or,
    in the indexer, a matched date meta tag) has no [content]. *)
Lemma extractMetadata_is_ok clock doc filename t :
  is_ok (fst (Indexer.extractMetadata clock doc filename t))
  = (Spec.has_content doc Spec.date_selector
     && Spec.has_content doc Spec.keywords_selector)%bool.
Proof.
  rewrite extractMetadata_cases. cbv zeta.
  rewrite <- (extract_date_ok clock doc (Indexer.basename filename ".html") t).
  rewrite <- extract_tags_ok.
  destruct (Indexer.extract_date clock doc _ t) as [[d|e] t1]; simpl;
    [|reflexivity].
  destruct (Indexer.extract_tags doc); reflexivity.
Qed.

Lemma parsePostHTML_is_ok clock page slug t :
  is_ok (fst (Script.parsePostHTML clock page slug t))
  = Spec.has_content (parsed page) Spec.keywords_selector.
Proof.
  rewrite parsePostHTML_cases, <- extractTags_ok.
  destruct (extractDate_returns clock (parsed page) slug t) as [d [t1 ->]].
  destruct (Script.extractTags (parsed page)); reflexivity.
Qed.

(** C1 (defect): a matched [keywords] meta tag or, in the indexer, a
    matched date meta tag without a [content] attribute aborts the whole
    record with a TypeError: [getAttribute] gives [null], and [.split] is
    read from it right after the default was set.  The default is lost,
    although the sibling paths keep going at the same input: the
    browser's [extractDate] does not read [.split] and returns, and the
    excerpt falls back through [||]. *)
Theorem C1_meta_without_content_aborts_the_record
        clock doc filename html slug t :
  Spec.has_content doc Spec.keywords_selector = false \/
  Spec.has_content doc Spec.date_selector = false ->
  fst (Indexer.extractMetadata clock doc filename t) = Throw TypeError /\
  (Spec.has_content doc Spec.keywords_selector = false ->
   fst (Script.parsePostHTML clock (mkPage html doc) slug t)
   = Throw TypeError) /\
  (Spec.has_content doc Spec.keywords_selector = true ->
   exists p,
     fst (Script.parsePostHTML clock (mkPage html doc) slug t) = Ok p /\
     forall metaDate,
       Script.or_node
         (querySelector doc [meta_name "date"])
         (querySelector doc [meta_property "article:published_time"])
       = Some metaDate ->
       Script.date p = getAttribute metaDate "content").
Proof.
  intros H. split; [|split].
  - rewrite extractMetadata_cases. cbv zeta. rewrite extract_date_cases.
    unfold Spec.has_content in H.
    destruct (querySelector doc Spec.date_selector) as [metaDate|].
    + destruct (getAttribute metaDate "content"); [|reflexivity].
      destruct H as [H|H]; [|discriminate H].
      unfold Indexer.extract_tags. unfold Spec.keywords_selector in H.
      destruct (querySelector doc [meta_name "keywords"]) as [metaKeywords|];
        [|discriminate H].
      destruct (getAttribute metaKeywords "content");
        [discriminate H|].
      reflexivity.
    + destruct H as [H|H]; [|discriminate H].
      unfold Indexer.extract_tags. unfold Spec.keywords_selector in H.
      destruct (querySelector doc [meta_name "keywords"]) as [metaKeywords|];
        [|discriminate H].
      destruct (getAttribute metaKeywords "content");
        [discriminate H|].
      destruct (Indexer.match_ymd _); reflexivity.
  - intros Hk. rewrite parsePostHTML_cases. cbn [parsed].
    destruct (extractDate_returns clock doc slug t) as [d [t1 ->]].
    unfold Script.extractTags.
    unfold Spec.has_content, Spec.keywords_selector in Hk.
    destruct (querySelector doc [meta_name "keywords"]) as [metaTags|];
      [|discriminate Hk].
    destruct (getAttribute metaTags "content"); [discriminate Hk|].
    reflexivity.
  - intros Hk.
    pose proof (parsePostHTML_is_ok clock (mkPage html doc) slug t) as E.
    cbn [parsed] in E. rewrite Hk in E.
    rewrite parsePostHTML_cases in *. cbn [parsed Dom.html] in *.
    unfold Script.extractDate, ret, bind, Date_now_toISOString in *.
    destruct (Script.or_node _ _) as [metaDate|].
    + destruct (Script.extractTags doc) as [tags|e]; [|discriminate E].
      eexists. split; [reflexivity|].
      intros m Hm. injection Hm as <-. reflexivity.
    + destruct (Indexer.match_ymd slug);
        (destruct (Script.extractTags doc) as [tags|e]; [|discriminate E];
         eexists; split; [reflexivity | intros m Hm; discriminate Hm]).
Qed.

Lemma C1_witness_keywords_or_date_without_content :
  (fst (Indexer.extractMetadata Examples.morning
          Examples.keywords_without_content "post.html" 0)
   = Throw TypeError /\
   fst (Script.parsePostHTML Examples.morning
          (mkPage "" Examples.keywords_without_content) "post" 0)
   = Throw TypeError) /\
  (fst (Indexer.extractMetadata Examples.morning
          Examples.date_without_content "post.html" 0)
   = Throw TypeError /\
   exists p,
     fst (Script.parsePostHTML Examples.morning
            (mkPage "" Examples.date_without_content) "post" 0) = Ok p /\
     Script.date p = None /\ Script.tags p = ["Blog"]).
Proof.
  split.
  - destruct (C1_meta_without_content_aborts_the_record
                Examples.morning Examples.keywords_without_content
                "post.html" "" "post" 0 (or_introl eq_refl))
      as [H1 [H2 _]].
    split; [exact H1 | exact (H2 eq_refl)].
  - destruct (C1_meta_without_content_aborts_the_record
                Examples.morning Examples.date_without_content
                "post.html" "" "post" 0 (or_intror eq_refl))
      as [H1 [_ H3]].
    split; [exact H1|].
    destruct (H3 eq_refl) as [p [E D]]. exists p.
    split; [exact E|]. split; [exact (D _ eq_refl)|].
    vm_compute in E. injection E as <-. reflexivity.
Defined.

(** What the excerpt does with a description meta tag without [content]:
    [null || 'No excerpt available.']. *)
Lemma description_without_content_falls_back :
  exists r,
    Indexer.extractMetadata Examples.morning
      Examples.description_without_content "post.html" 0 = (Ok r, 2) /\
    Indexer.excerpt r = "No excerpt available.".
Proof. eexists. split; [vm_compute; reflexivity | reflexivity]. Qed.

(** C6, as stated, fails in the indexer for an empty first paragraph:
    its text has 200 characters or fewer, yet the excerpt is not that
    text but the default. *)
Lemma C6_counterexample_empty_paragraph :
  exists r firstP,
    fst (Indexer.extractMetadata Examples.morning
           Examples.empty_paragraph "post.html" 0) = Ok r /\
    querySelector Examples.empty_paragraph Spec.description_selector = None /\
    querySelector Examples.empty_paragraph Spec.paragraph_selector
      = Some firstP /\
    String.length (trim (textContent firstP)) <= 200 /\
    Indexer.excerpt r = "No excerpt available." /\
    Indexer.excerpt r <> trim (textContent firstP).
Proof.
  eexists. eexists.
  split; [reflexivity|]. split; [reflexivity|]. split; [reflexivity|].
  split; [vm_compute; lia|]. split; [reflexivity|].
  vm_compute. discriminate.
Qed.

(** C6 (amended): without a description meta tag, a first paragraph whose
    trimmed text exceeds 200 characters gives its first 200 characters
    followed by "...", 203 characters in all; a text of 1 to 200
    characters is kept as it is; an empty text gives the default excerpt
    in the indexer and the empty string in the browser. *)
Theorem C6_excerpt_from_first_paragraph
        clock doc filename html slug t firstP plain :
  Spec.has_content doc Spec.date_selector = true ->
  Spec.has_content doc Spec.keywords_selector = true ->
  querySelector doc Spec.description_selector = None ->
  querySelector doc Spec.paragraph_selector = Some firstP ->
  plain = trim (textContent firstP) ->
  (exists r,
      Indexer.extractMetadata clock doc filename t = (Ok r, S (S t)) /\
      (200 < String.length plain ->
       Indexer.excerpt r = (String.substring 0 200 plain ++ "...")%string /\
       String.length (Indexer.excerpt r) = 203) /\
      (0 < String.length plain <= 200 -> Indexer.excerpt r = plain) /\
      (String.length plain = 0 ->
       Indexer.excerpt r = "No excerpt available.")) /\
  (exists p t',
      Script.parsePostHTML clock (mkPage html doc) slug t = (Ok p, t') /\
      (200 < String.length plain ->
       Script.excerpt p = Some (String.substring 0 200 plain ++ "...")%string) /\
      (String.length plain <= 200 -> Script.excerpt p = Some plain)).
Proof.
  intros Hd Hk Hdesc Hp ->.
  set (plain := trim (textContent firstP)).
  split.
  - destruct (extractMetadata_returns clock doc filename t Hd Hk)
      as [date [tags [_ [_ E]]]].
    eexists. split; [exact E|]. cbn [Indexer.excerpt].
    unfold Indexer.extract_excerpt.
    unfold Spec.description_selector in Hdesc. rewrite Hdesc.
    rewrite first_paragraph_selectors, Hp. fold plain.
    unfold substring. rewrite Nat.sub_0_r.
    destruct (Nat.ltb 200 (String.length plain)) eqn:L.
    + apply Nat.ltb_lt in L.
      assert (Len : String.length (String.substring 0 200 plain ++ "...")
                    = 203).
      { rewrite string_length_append, length_substring_prefix.
        cbn [String.length]. lia. }
      destruct (String.substring 0 200 plain ++ "...")%string eqn:S1;
        [discriminate|].
      cbn [or_else]. repeat split; intros; try lia; auto.
    + apply Nat.ltb_ge in L.
      destruct plain as [|c rest] eqn:P; cbn [or_else String.length] in *;
        repeat split; intros; try lia; auto.
  - pose proof (parsePostHTML_is_ok clock (mkPage html doc) slug t) as E.
    cbn [parsed] in E. rewrite Hk in E.
    rewrite parsePostHTML_cases in *. cbn [parsed Dom.html] in *.
    destruct (Script.extractDate clock doc slug t) as [[d|e] t1];
      [|discriminate].
    destruct (Script.extractTags doc) as [tags|e]; [|discriminate].
    eexists. eexists. split; [reflexivity|]. cbn [Script.excerpt].
    unfold Script.extractExcerpt.
    unfold Spec.description_selector in Hdesc. rewrite Hdesc.
    unfold Spec.paragraph_selector in Hp. rewrite Hp. fold plain.
    unfold substring. rewrite Nat.sub_0_r.
    destruct (Nat.ltb 200 (String.length plain)) eqn:L.
    + apply Nat.ltb_lt in L. split; intros; [reflexivity|lia].
    + apply Nat.ltb_ge in L. split; intros; [lia|reflexivity].
Qed.

Lemma C6_witness_250_characters :
  exists r,
    Indexer.extractMetadata Examples.morning Examples.long_paragraph
      "post.html" 0 = (Ok r, 2) /\
    String.length (Indexer.excerpt r) = 203.
Proof.
  destruct (C6_excerpt_from_first_paragraph
              Examples.morning Examples.long_paragraph "post.html" "" "post" 0
              (Examples.paragraph (Examples.repeat_char "a" 250))
              (Examples.repeat_char "a" 250)
              eq_refl eq_refl eq_refl eq_refl eq_refl)
    as [[r [H1 [H2 _]]] _].
  exists r. split; [exact H1|]. apply H2. vm_compute. lia.
Defined.

End BuilderProperties.

Section TagAndDateProperties.
Import Js Dom.

(** A class selector matches a class name spelt with other capitals only
    in a document in quirks mode. *)
Lemma class_selector_in_quirks_mode :
  Indexer.extract_tags (Examples.capital_class true) = Ok ["upper"] /\
  Script.extractTags (Examples.capital_class true) = Ok ["upper"] /\
  Indexer.extract_tags (Examples.capital_class false) = Ok ["Blog"] /\
  Script.extractTags (Examples.capital_class false) = Ok ["Blog"].
Proof. repeat split; reflexivity. Qed.

(** On the keywords of the specification's example both builders agree. *)
Lemma keywords_example :
  Indexer.extract_tags (Examples.tagged "A, B ,C") = Ok ["A"; "B"; "C"] /\
  Script.extractTags (Examples.tagged "A, B ,C") = Ok ["A"; "B"; "C"].
Proof. split; reflexivity. Qed.

(** The indexer never lists an empty tag taken from the keywords. *)
Lemma indexer_keywords_nonempty doc el content tags :
  querySelector doc Spec.keywords_selector = Some el ->
  getAttribute el "content" = Some content ->
  Indexer.extract_tags doc = Ok tags ->
  tags = filter nonempty (map trim (split "," content)) /\
  ~ In EmptyString tags.
Proof.
  unfold Indexer.extract_tags, Spec.keywords_selector.
  intros -> -> [= <-].
  assert (E : forall l, filter (fun tag => Nat.ltb 0 (String.length tag)) l
                        = filter nonempty l).
  { intros l. apply filter_ext. intros [|c s]; reflexivity. }
  rewrite E. split; [reflexivity|].
  intros H. apply filter_In in H. destruct H as [_ H]. discriminate.
Qed.

(** C7: the browser's [extractTags] on the keywords ["A, B,"] keeps the
    empty segment after the last comma, where the claim (and the
    indexer) drops it. *)
Theorem C7_browser_keeps_empty_segments :
  (exists p,
      fst (Script.parsePostHTML Examples.morning
             (mkPage "" (Examples.tagged "A, B,")) "post" 0) = Ok p /\
      Script.tags p = ["A"; "B"; ""]) /\
  Indexer.extract_tags (Examples.tagged "A, B,") = Ok ["A"; "B"].
Proof.
  split; [|reflexivity].
  eexists. split; reflexivity.
Qed.

(** C9: the indexer on a [keywords] meta tag with blank content returns
    a record whose tags list is empty, where the claim promises at least
    one tag. *)
Theorem C9_indexer_blank_keywords_no_tags :
  (exists r,
      fst (Indexer.extractMetadata Examples.morning
             (Examples.tagged "") "post.html" 0) = Ok r /\
      Indexer.tags r = []) /\
  (exists r,
      fst (Indexer.extractMetadata Examples.morning
             (Examples.tagged " , ") "post.html" 0) = Ok r /\
      Indexer.tags r = []).
Proof.
  split; eexists; split; reflexivity.
Qed.

(** Elsewhere the tags list has an element: without a keywords meta tag
    in the indexer, and always in the browser. *)
Lemma tags_nonempty_elsewhere doc :
  (querySelector doc Spec.keywords_selector = None ->
   exists tag tags, Indexer.extract_tags doc = Ok (tag :: tags)) /\
  (forall tags, Script.extractTags doc = Ok tags -> tags <> []).
Proof.
  unfold Indexer.extract_tags, Script.extractTags, Spec.keywords_selector.
  split.
  - intros ->.
    destruct (querySelectorAll doc _) as [|el els]; simpl;
      eexists; eexists; reflexivity.
  - destruct (querySelector doc _) as [el|].
    + destruct (getAttribute el "content") as [c|]; [|discriminate].
      intros tags [= <-]. destruct c; simpl; [discriminate|].
      destruct (Ascii.eqb _ _); [discriminate|].
      destruct (split "," c); discriminate.
    + destruct (querySelectorAll doc _) as [|e els]; simpl;
        intros tags [= <-]; discriminate.
Qed.

(** C8, as stated, fails: the content of the date meta tag is stored
    whatever it is, so the date need not have the form YYYY-MM-DD. *)
Lemma C8_counterexample_informal_date :
  exists r,
    fst (Indexer.extractMetadata Examples.morning
           (Examples.dated_doc "Sept 2025") "post.html" 0) = Ok r /\
    Indexer.date r = "Sept 2025" /\
    Spec.is_ymd (Indexer.date r) = false.
Proof.
  eexists. split; [reflexivity|]. split; reflexivity.
Qed.

(** The browser's [extractDate] returns the content of the meta tag as it
    is, time included. *)
Lemma browser_date_keeps_time :
  exists p,
    fst (Script.parsePostHTML Examples.morning
           (mkPage "" Examples.published) "post" 0) = Ok p /\
    Script.date p = Some "2025-09-20T10:00:00Z".
Proof. eexists. split; reflexivity. Qed.

(** C8 (amended), for the indexer: when the matched date (or
    article:published_time) meta tag holds a YYYY-MM-DD date, alone or
    followed by "T" and a time, the date field is that date without the
    time; without such a meta tag it is a YYYY-MM-DD pattern found in the
    slug, or, when the slug has none, the day the clock shows.  In each
    case the field has the form YYYY-MM-DD. *)
Theorem C8_indexer_date_is_calendar_date clock doc filename t :
  Spec.has_content doc Spec.keywords_selector = true ->
  (forall n, Spec.is_ymd (Spec.day_of (clock n)) = true) ->
  (forall el, querySelector doc Spec.date_selector = Some el ->
     exists d, Spec.is_ymd d = true /\
       (getAttribute el "content" = Some d \/
        exists time, getAttribute el "content"
                     = Some (d ++ String "T" time)%string)) ->
  exists r,
    Indexer.extractMetadata clock doc filename t = (Ok r, S (S t)) /\
    Spec.is_ymd (Indexer.date r) = true /\
    match querySelector doc Spec.date_selector with
    | Some el =>
        getAttribute el "content" = Some (Indexer.date r) \/
        exists time, getAttribute el "content"
                     = Some (Indexer.date r ++ String "T" time)%string
    | None =>
        (exists pre post,
            Indexer.slug r = (pre ++ Indexer.date r ++ post)%string) \/
        ((forall pre d post,
             Indexer.slug r = (pre ++ d ++ post)%string ->
             Spec.is_ymd d = false) /\
         Indexer.date r = Spec.day_of (clock t))
    end.
Proof.
  intros Hk Hclock Hmeta.
  assert (Hd : Spec.has_content doc Spec.date_selector = true).
  { unfold Spec.has_content.
    destruct (querySelector doc Spec.date_selector) as [el|] eqn:Q;
      [|reflexivity].
    destruct (Hmeta el eq_refl) as [d [_ [-> | [time ->]]]]; reflexivity. }
  destruct (extractMetadata_returns clock doc filename t Hd Hk)
    as [date [tags [Edate [_ E]]]].
  eexists. split; [exact E|]. cbn [Indexer.date Indexer.slug].
  rewrite extract_date_cases in Edate. cbn [fst] in Edate.
  destruct (querySelector doc Spec.date_selector) as [el|] eqn:Q.
  - destruct (Hmeta el eq_refl) as [d [Hymd [C | [time C]]]];
      rewrite C in Edate |- *; injection Edate as <-.
    + rewrite (is_ymd_no_time d Hymd). auto.
    + rewrite (split_first_append "T" d time (is_ymd_no_time d Hymd)).
      split; [exact Hymd|]. right. exists time. reflexivity.
  - destruct (Indexer.match_ymd (Indexer.basename filename ".html"))
      as [d|] eqn:M; injection Edate as <-.
    + apply match_ymd_sound in M. destruct M as [Hymd Hsub]. auto.
    + split; [apply Hclock|]. right. split; [|reflexivity].
      apply match_ymd_complete, M.
Qed.

Lemma C8_witness_published_time :
  exists r,
    Indexer.extractMetadata Examples.morning Examples.published
      "post.html" 0 = (Ok r, 2) /\
    Indexer.date r = "2025-09-20".
Proof.
  destruct (C8_indexer_date_is_calendar_date
              Examples.morning Examples.published "post.html" 0)
    as [r [H1 [_ H2]]].
  - reflexivity.
  - intros n. reflexivity.
  - intros el H. vm_compute in H. injection H as <-.
    exists "2025-09-20". split; [reflexivity|].
    right. exists "10:00:00Z". reflexivity.
  - exists r. split; [exact H1|].
    pose proof (f_equal fst H1) as F. vm_compute in F.
    injection F as <-. reflexivity.
Defined.

End TagAndDateProperties.

(* ================================================================== *)
(** ** The loader of the browser script *)
(* ================================================================== *)

Section LoaderProperties.
Import Js Dom.

Variable engine : Js.Engine.
Variable clock : nat -> string.
Variable Date_parse : string -> option Z.
Variable fetch : string -> Result Script.Response.

(** None of the three loading steps ever throws: each catches what its
    body throws. *)
Lemma loadAndParsePost_returns slug t :
  exists r t', Script.loadAndParsePost clock fetch slug t = (Ok r, t').
Proof.
  unfold Script.loadAndParsePost, try_catch, bind, lift, ret, throw.
  destruct (fetch _) as [response|e]; [|eauto].
  destruct (negb (Script.ok response)); [eauto|].
  destruct (Script.parsePostHTML clock (Script.text response) slug t)
    as [[p|e] t']; eauto.
Qed.

Lemma fetchPostsFromIndex_returns t :
  exists l, Script.fetchPostsFromIndex fetch t = (Ok l, t).
Proof.
  unfold Script.fetchPostsFromIndex, try_catch, bind, lift, ret, throw.
  destruct (fetch _) as [response|e]; [|eauto].
  destruct (Script.ok response); [|eauto].
  destruct (Script.json response) as [[data|]|e]; eauto.
Qed.

Lemma discoverPosts_returns t :
  exists l t',
    Script.discoverPosts engine clock Date_parse fetch t = (Ok l, t').
Proof.
  unfold Script.discoverPosts, Script.knownPosts, Indexer.for_each,
    try_catch, bind, ret.
  destruct (loadAndParsePost_returns "what-exactly-is-a-computer" t)
    as [[p|] [t' ->]]; eauto.
Qed.

(** So the [catch] of [loadAllPosts], the only place that installs the
    sample posts, is never entered: the result is the index's posts when
    there are some, and the discovered posts otherwise. *)
Lemma loadAllPosts_outcome t :
  exists indexed discovered t',
    Script.fetchPostsFromIndex fetch t = (Ok indexed, t) /\
    Script.discoverPosts engine clock Date_parse fetch t
    = (Ok discovered, t') /\
    Script.loadAllPosts engine clock Date_parse fetch t =
    match indexed with
    | _ :: _ => (Ok indexed, t)
    | [] => (Ok discovered, t')
    end.
Proof.
  destruct (fetchPostsFromIndex_returns t) as [indexed E1].
  destruct (discoverPosts_returns t) as [discovered [t' E2]].
  exists indexed, discovered, t'. split; [exact E1|]. split; [exact E2|].
  unfold Script.loadAllPosts, try_catch, bind, ret. rewrite E1.
  destruct indexed; simpl; [rewrite E2|]; reflexivity.
Qed.

(** When the index gives no post and no known document loads, the loader
    leaves the empty list. *)
Lemma loadAllPosts_without_posts t :
  fst (Script.fetchPostsFromIndex fetch t) = Ok [] ->
  (forall slug, In slug Script.knownPosts ->
     fst (Script.loadAndParsePost clock fetch slug t) = Ok None) ->
  fst (Script.loadAllPosts engine clock Date_parse fetch t) = Ok [].
Proof.
  intros Hindex Hknown.
  destruct (loadAllPosts_outcome t) as [indexed [discovered [t' [E1 [E2 ->]]]]].
  rewrite E1 in Hindex. injection Hindex as ->.
  cbn [fst]. f_equal.
  unfold Script.discoverPosts, Script.knownPosts, Indexer.for_each,
    try_catch, bind, ret in E2.
  specialize (Hknown "what-exactly-is-a-computer" (or_introl eq_refl)).
  destruct (Script.loadAndParsePost clock fetch _ t) as [[[p|]|e] t1];
    simpl in Hknown; try discriminate.
  injection E2 as <- _. reflexivity.
Qed.

End LoaderProperties.

(** C2: with every request rejected, or with every request answered 404,
    [loadAllPosts] leaves the empty list in [allPosts], where the claim
    promises the three sample posts of [getSamplePosts]. *)
Theorem C2_loader_leaves_no_posts (engine : Js.Engine) :
  fst (Script.loadAllPosts engine Examples.morning Examples.Date_parse_iso
         Examples.offline_fetch 0) = Js.Ok [] /\
  fst (Script.loadAllPosts engine Examples.morning Examples.Date_parse_iso
         Examples.not_found_fetch 0) = Js.Ok [] /\
  List.length Script.getSamplePosts = 3 /\
  map Script.slug Script.getSamplePosts =
  ["what-exactly-is-a-computer"; "getting-started-web-development";
   "understanding-javascript-closures"].
Proof.
  repeat split; reflexivity.
Qed.

(* ================================================================== *)
(** ** The indexer *)
(* ================================================================== *)

Section IndexerFacts.
Import Js Dom.

Variable engine : Js.Engine.
Variable clock : nat -> string.
Variable Date_parse : string -> option Z.

Lemma process_file_cases fs posts categories tags file t :
  Indexer.process_file clock fs (posts, categories, tags) file t =
  match Indexer.readFileSync fs file with
  | Ok doc =>
      match Indexer.extractMetadata clock doc file t with
      | (Ok metadata, t') =>
          (Ok (posts ++ [metadata],
               set_add strict_eq (Indexer.category metadata) categories,
               fold_left (fun s tag => set_add String.eqb tag s)
                         (Indexer.tags metadata) tags), t')
      | (Throw _, t') => (Ok (posts, categories, tags), t')
      end
  | Throw _ => (Ok (posts, categories, tags), t)
  end.
Proof.
  unfold Indexer.process_file, try_catch, bind, lift, ret.
  destruct (Indexer.readFileSync fs file) as [doc|e]; [|reflexivity].
  destruct (Indexer.extractMetadata clock doc file t) as [[m|e] t'];
    reflexivity.
Qed.

(** The loop never throws, and collects the extracted records with their
    categories and tags. *)
Lemma loop_collects fs files posts categories tags t :
  exists t',
    Indexer.for_each (Indexer.process_file clock fs) files
                     (posts, categories, tags) t =
    (Ok (posts ++ Spec.extracted_from clock fs files t,
         fold_left (fun s p => set_add strict_eq (Indexer.category p) s)
                   (Spec.extracted_from clock fs files t) categories,
         fold_left
           (fun s p =>
              fold_left (fun s tag => set_add String.eqb tag s)
                        (Indexer.tags p) s)
           (Spec.extracted_from clock fs files t) tags), t').
Proof.
  revert posts categories tags t.
  induction files as [|file rest IH]; intros posts categories tags t.
  - exists t. simpl. unfold ret. now rewrite app_nil_r.
  - cbn [Indexer.for_each Spec.extracted_from]. unfold bind.
    rewrite process_file_cases.
    destruct (Indexer.readFileSync fs file) as [doc|e].
    + destruct (Indexer.extractMetadata clock doc file t) as [[m|e] t1].
      * destruct (IH (posts ++ [m])
                     (set_add strict_eq (Indexer.category m) categories)
                     (fold_left (fun s tag => set_add String.eqb tag s)
                                (Indexer.tags m) tags) t1) as [t' ->].
        exists t'. cbn [fold_left]. now rewrite <- app_assoc.
      * apply IH.
    + apply IH.
Qed.

(** What [generatePostsIndex] writes when the directory exists and holds
    an [.html] file. *)
Lemma generatePostsIndex_writes fs t :
  Indexer.existsSync fs = true ->
  Spec.html_files fs <> [] ->
  exists t1,
    Indexer.generatePostsIndex engine clock Date_parse fs t =
    (Ok (Some
           (let records := Spec.extracted_records clock fs t in
            let posts :=
              sort engine (Indexer.by_date_desc Date_parse) records in
            Indexer.Index.mk (clock t1)
              (Z.of_nat (List.length posts))
              posts
              (Indexer.category_entries (Spec.categories_of records) posts)
              (Indexer.tag_entries (Spec.tags_of records) posts)
              (Indexer.compute_stats posts))), S t1).
Proof.
  intros Hex Hfiles.
  unfold Indexer.generatePostsIndex. rewrite Hex. cbn [negb].
  fold (Spec.html_files fs).
  destruct (Spec.html_files fs) as [|f files] eqn:F; [contradiction|].
  cbn [List.length Nat.eqb]. unfold bind.
  destruct (loop_collects fs (f :: files) [] [] [] t) as [t1 ->].
  exists t1. unfold Spec.extracted_records. rewrite F.
  reflexivity.
Qed.

(** Without a directory, or without an [.html] file in it, nothing is
    written. *)
Lemma generatePostsIndex_skips fs t :
  Indexer.existsSync fs = false \/ Spec.html_files fs = [] ->
  Indexer.generatePostsIndex engine clock Date_parse fs t = (Ok None, t).
Proof.
  unfold Indexer.generatePostsIndex. fold (Spec.html_files fs).
  intros [-> | H]; [reflexivity|].
  rewrite H. destruct (negb _); reflexivity.
Qed.

End IndexerFacts.

(** *** The set of tags *)

Lemma includes_In (l : list string) (x : string) :
  Js.includes l x = true <-> In x l.
Proof.
  unfold Js.includes. rewrite existsb_exists. split.
  - intros [y [Hy E]]. apply String.eqb_eq in E. now subst.
  - intros H. exists x. split; [exact H | apply String.eqb_refl].
Qed.

Lemma set_add_In (x y : string) (s : list string) :
  In y (Js.set_add String.eqb x s) <-> y = x \/ In y s.
Proof.
  unfold Js.set_add. fold (Js.includes s x).
  destruct (Js.includes s x) eqn:E.
  - apply includes_In in E. split; [auto|]. intros [->|H]; auto.
  - rewrite in_app_iff. simpl. intuition.
Qed.

Lemma set_add_NoDup (x : string) (s : list string) :
  NoDup s -> NoDup (Js.set_add String.eqb x s).
Proof.
  intros H. unfold Js.set_add. fold (Js.includes s x).
  destruct (Js.includes s x) eqn:E; [exact H|].
  assert (Hx : ~ In x s).
  { intros Hin. apply includes_In in Hin. congruence. }
  apply NoDup_rev in H. rewrite <- (rev_involutive (s ++ [x])).
  apply NoDup_rev. rewrite rev_app_distr. simpl. constructor; [|exact H].
  now rewrite <- in_rev.
Qed.

Lemma add_tags_In (l s : list string) (y : string) :
  In y (fold_left (fun s tag => Js.set_add String.eqb tag s) l s)
  <-> In y l \/ In y s.
Proof.
  revert s. induction l as [|x l IH]; intros s; simpl.
  - intuition.
  - rewrite IH, set_add_In. intuition.
Qed.

Lemma add_tags_NoDup (l s : list string) :
  NoDup s -> NoDup (fold_left (fun s tag => Js.set_add String.eqb tag s) l s).
Proof.
  revert s. induction l as [|x l IH]; intros s H; simpl; [exact H|].
  apply IH, set_add_NoDup, H.
Qed.

Lemma collect_tags_In (records : list Indexer.PostMetadata)
      (s : list string) (y : string) :
  In y (fold_left
          (fun s p =>
             fold_left (fun s tag => Js.set_add String.eqb tag s)
                       (Indexer.tags p) s)
          records s)
  <-> (exists p, In p records /\ In y (Indexer.tags p)) \/ In y s.
Proof.
  revert s. induction records as [|r records IH]; intros s; simpl.
  - split; [auto|]. intros [[p [[] _]]|H]; exact H.
  - rewrite IH, add_tags_In. split.
    + intros [[p [Hp Hy]]|[H|H]]; eauto.
    + intros [[p [[<-|Hp] Hy]]|H]; eauto.
Qed.

Lemma collect_tags_NoDup (records : list Indexer.PostMetadata)
      (s : list string) :
  NoDup s ->
  NoDup (fold_left
           (fun s p =>
              fold_left (fun s tag => Js.set_add String.eqb tag s)
                        (Indexer.tags p) s)
           records s).
Proof.
  revert s. induction records as [|r records IH]; intros s H; simpl;
    [exact H|].
  apply IH, add_tags_NoDup, H.
Qed.

Lemma tags_of_In (records : list Indexer.PostMetadata) (y : string) :
  In y (Spec.tags_of records)
  <-> exists p, In p records /\ In y (Indexer.tags p).
Proof.
  unfold Spec.tags_of. rewrite collect_tags_In. simpl. intuition.
Qed.

Lemma tags_of_NoDup (records : list Indexer.PostMetadata) :
  NoDup (Spec.tags_of records).
Proof. apply collect_tags_NoDup. constructor. Qed.

Lemma tag_entries_names (tags : list string)
      (posts : list Indexer.PostMetadata) :
  map Indexer.Tag.name (Indexer.tag_entries tags posts)
  = Js.sort_order Js.default_compare tags.
Proof.
  unfold Indexer.tag_entries. rewrite map_map. simpl. apply map_id.
Qed.

Section IndexTags.
Import Js Dom.

Variable engine : Js.Engine.
Variable clock : nat -> string.
Variable Date_parse : string -> option Z.

(** C10: in the index that [generatePostsIndex] writes, the count of each
    tag is the number of records of the index whose tags list contains
    the tag; a record counts once however often it repeats the tag. *)
Theorem C10_tag_count_is_number_of_records fs t :
  Indexer.existsSync fs = true ->
  Spec.html_files fs <> [] ->
  exists ix t',
    Indexer.generatePostsIndex engine clock Date_parse fs t
    = (Ok (Some ix), t') /\
    Forall (fun entry =>
              Indexer.Tag.count entry
              = Z.of_nat (Spec.records_tagged (Indexer.Tag.name entry)
                                              (Indexer.Index.posts ix)))
           (Indexer.Index.tags ix).
Proof.
  intros Hex Hfiles.
  destruct (generatePostsIndex_writes engine clock Date_parse fs t Hex Hfiles)
    as [t1 E].
  eexists. eexists. split; [exact E|].
  cbv zeta. cbn [Indexer.Index.tags Indexer.Index.posts].
  apply Forall_forall. intros entry He.
  unfold Indexer.tag_entries in He. apply in_map_iff in He.
  destruct He as [tag [<- _]]. cbn [Indexer.Tag.count Indexer.Tag.name].
  unfold Spec.records_tagged. do 2 f_equal.
  apply filter_ext. intros p.
  destruct (in_dec string_dec tag (Indexer.tags p)) as [Hin|Hnot].
  - now apply includes_In.
  - destruct (includes (Indexer.tags p) tag) eqn:I; [|reflexivity].
    apply includes_In in I. contradiction.
Qed.

(** C3 (amended): the tags list of the index holds every tag of every
    record exactly once, in ascending code-unit order of the names; it is
    not ordered by count and not truncated. *)
Theorem C3_index_tags_sorted_by_name fs t :
  Indexer.existsSync fs = true ->
  Spec.html_files fs <> [] ->
  exists ix t',
    Indexer.generatePostsIndex engine clock Date_parse fs t
    = (Ok (Some ix), t') /\
    Spec.names_ascending (Indexer.Index.tags ix) /\
    (forall name,
        In name (map Indexer.Tag.name (Indexer.Index.tags ix)) <->
        exists p, In p (Indexer.Index.posts ix) /\ In name (Indexer.tags p)).
Proof.
  intros Hex Hfiles.
  destruct (generatePostsIndex_writes engine clock Date_parse fs t Hex Hfiles)
    as [t1 E].
  eexists. eexists. split; [exact E|].
  cbv zeta. cbn [Indexer.Index.tags Indexer.Index.posts].
  set (records := Spec.extracted_records clock fs t).
  split.
  - unfold Spec.names_ascending, Indexer.tag_entries.
    apply StronglySorted_map
      with (R := fun a b => String.ltb (Indexer.Tag.name a)
                                       (Indexer.Tag.name b) = true).
    cbn [Indexer.Tag.name].
    apply sorted_NoDup_strict; [apply sort_default_sorted|].
    eapply Permutation_NoDup;
      [apply Permutation_sym, sort_order_perm | apply tags_of_NoDup].
  - intros name. rewrite tag_entries_names, sort_order_In, tags_of_In.
    split; intros [p [Hp Hn]]; exists p; split; auto.
    + apply (proj2 (sort_In engine (Indexer.by_date_desc Date_parse)
                             records p)), Hp.
    + apply (proj1 (sort_In engine (Indexer.by_date_desc Date_parse)
                             records p)), Hp.
Qed.

End IndexTags.

Lemma C10_witness_repeated_tag :
  exists ix,
    fst (Indexer.generatePostsIndex Js.V8 Examples.morning
           Examples.Date_parse_iso Examples.repeated_tag 0) = Js.Ok (Some ix) /\
    map Indexer.tags (Indexer.Index.posts ix) = [["X"; "X"]; ["X"]] /\
    Indexer.Index.tags ix = [Indexer.Tag.mk "X" 2] /\
    Forall (fun entry =>
              Indexer.Tag.count entry
              = Z.of_nat (Spec.records_tagged (Indexer.Tag.name entry)
                                              (Indexer.Index.posts ix)))
           (Indexer.Index.tags ix).
Proof.
  destruct (C10_tag_count_is_number_of_records
              Js.V8 Examples.morning Examples.Date_parse_iso
              Examples.repeated_tag 0) as [ix [t' [E H]]].
  - reflexivity.
  - vm_compute. discriminate.
  - exists ix. split; [now rewrite E|].
    split; [|split; [|exact H]];
      clear H; vm_compute in E; injection E as <- _; reflexivity.
Defined.

(** C3, as stated, fails: the tags list of the index is in order of
    name, so a tag counted once can precede a tag counted twice; it keeps
    more than ten tags; and for the documents tagged X,Y and X it is the
    whole list, not a top-1 list. *)
Lemma C3_counterexample_not_by_count :
  (exists ix,
      fst (Indexer.generatePostsIndex Js.V8 Examples.morning
             Examples.Date_parse_iso Examples.tags_A_B_B 0) = Js.Ok (Some ix) /\
      Indexer.Index.tags ix = [Indexer.Tag.mk "A" 1; Indexer.Tag.mk "B" 2] /\
      ~ Spec.counts_descending (Indexer.Index.tags ix)) /\
  (exists ix,
      fst (Indexer.generatePostsIndex Js.V8 Examples.morning
             Examples.Date_parse_iso Examples.eleven_tags 0)
      = Js.Ok (Some ix) /\
      List.length (Indexer.Index.tags ix) = 11) /\
  (exists ix,
      fst (Indexer.generatePostsIndex Js.V8 Examples.morning
             Examples.Date_parse_iso Examples.tags_XY_X 0) = Js.Ok (Some ix) /\
      Indexer.Index.tags ix = [Indexer.Tag.mk "X" 2; Indexer.Tag.mk "Y" 1]).
Proof.
  split; [|split].
  - eexists. split; [vm_compute; reflexivity|]. split; [reflexivity|].
    cbn [Indexer.Index.tags]. intros H.
    inversion H as [|a l _ Hall]; subst.
    inversion Hall as [|b l' Hle _]; subst.
    cbn in Hle. lia.
  - eexists. split; [vm_compute; reflexivity|]. reflexivity.
  - eexists. split; [vm_compute; reflexivity|]. reflexivity.
Qed.

Lemma C3_witness_tags_X_Y :
  exists ix,
    fst (Indexer.generatePostsIndex Js.V8 Examples.morning
           Examples.Date_parse_iso Examples.tags_XY_X 0) = Js.Ok (Some ix) /\
    Indexer.Index.tags ix = [Indexer.Tag.mk "X" 2; Indexer.Tag.mk "Y" 1] /\
    Spec.names_ascending (Indexer.Index.tags ix).
Proof.
  destruct (C3_index_tags_sorted_by_name
              Js.V8 Examples.morning Examples.Date_parse_iso
              Examples.tags_XY_X 0) as [ix [t' [E [H _]]]].
  - reflexivity.
  - vm_compute. discriminate.
  - exists ix. split; [now rewrite E|].
    split; [|exact H].
    clear H; vm_compute in E; injection E as <- _; reflexivity.
Defined.

(** *** The order of the posts *)

Section PostOrder.
Import Js Dom.

Variable engine : Js.Engine.
Variable clock : nat -> string.
Variable Date_parse : string -> option Z.

Lemma by_date_desc_before a b ta tb :
  Date_parse (Indexer.date a) = Some ta ->
  Date_parse (Indexer.date b) = Some tb ->
  before (Indexer.by_date_desc Date_parse) a b = (tb <=? ta)%Z.
Proof.
  intros Ha Hb. unfold before, Indexer.by_date_desc. rewrite Ha, Hb.
  destruct (Z.leb_spec tb ta); [apply Z.leb_le | apply Z.leb_gt]; lia.
Qed.

Lemma sorted_by_comparator_descending (l : list Indexer.PostMetadata) :
  Forall (fun p => Date_parse (Indexer.date p) <> None) l ->
  StronglySorted
    (fun a b => before (Indexer.by_date_desc Date_parse) a b = true) l ->
  Spec.dates_descending Date_parse l.
Proof.
  intros G H. induction H as [|a l Hs IH Ha]; constructor.
  - apply IH. now inversion G.
  - inversion G as [|? ? Ga Gl]; subst.
    rewrite Forall_forall in *. intros b Hb.
    specialize (Ha b Hb). specialize (Gl b Hb).
    destruct (Date_parse (Indexer.date a)) as [ta|] eqn:Ea; [|congruence].
    destruct (Date_parse (Indexer.date b)) as [tb|] eqn:Eb; [|congruence].
    exists ta, tb. rewrite (by_date_desc_before a b ta tb Ea Eb) in Ha.
    apply Z.leb_le in Ha. auto.
Qed.

(** Where every date parses, the comparator is consistent and the order
    of the posts is the sort order, whatever the engine. *)
Lemma by_date_desc_consistent (l : list Indexer.PostMetadata) :
  (forall p, In p l -> Date_parse (Indexer.date p) <> None) ->
  consistent (Indexer.by_date_desc Date_parse) l = true.
Proof.
  intros H.
  apply consistent_by_value
    with (value := fun p => match Date_parse (Indexer.date p) with
                            | Some time => (- time)%Z
                            | None => 0%Z
                            end).
  intros a b Ha Hb. unfold Indexer.by_date_desc.
  destruct (Date_parse (Indexer.date a)) as [ta|] eqn:Ea;
    [|now apply H in Ha].
  destruct (Date_parse (Indexer.date b)) as [tb|] eqn:Eb;
    [|now apply H in Hb].
  f_equal. lia.
Qed.

Lemma sort_by_date_order (l : list Indexer.PostMetadata) :
  (forall p, In p l -> Date_parse (Indexer.date p) <> None) ->
  sort engine (Indexer.by_date_desc Date_parse) l
  = sort_order (Indexer.by_date_desc Date_parse) l.
Proof. intros H. apply sort_consistent, by_date_desc_consistent, H. Qed.

(** C5 (amended): where the date of every extracted record is one that
    [Date] parses, the posts of the index are the extracted records,
    each once, newest date first, and records whose dates stand for the
    same time keep the order in which they were extracted. *)
Theorem C5_posts_newest_first_stable fs t :
  Indexer.existsSync fs = true ->
  Spec.html_files fs <> [] ->
  (forall p, In p (Spec.extracted_records clock fs t) ->
             Date_parse (Indexer.date p) <> None) ->
  exists ix t',
    Indexer.generatePostsIndex engine clock Date_parse fs t
    = (Ok (Some ix), t') /\
    Permutation (Indexer.Index.posts ix) (Spec.extracted_records clock fs t) /\
    Spec.dates_descending Date_parse (Indexer.Index.posts ix) /\
    (forall time,
        filter (Spec.dated Date_parse time) (Indexer.Index.posts ix)
        = filter (Spec.dated Date_parse time)
                 (Spec.extracted_records clock fs t)).
Proof.
  intros Hex Hfiles Hdates.
  destruct (generatePostsIndex_writes engine clock Date_parse fs t Hex Hfiles)
    as [t1 E].
  eexists. eexists. split; [exact E|].
  cbv zeta. cbn [Indexer.Index.posts].
  set (records := Spec.extracted_records clock fs t) in *.
  rewrite (sort_by_date_order records Hdates).
  split; [apply sort_order_perm|]. split.
  - apply sorted_by_comparator_descending.
    + apply Forall_forall. intros p Hp.
      apply Hdates,
        (proj1 (sort_order_In (Indexer.by_date_desc Date_parse) records p)),
        Hp.
    + apply sort_order_sorted
        with (good := fun p => Date_parse (Indexer.date p) <> None).
      * intros x y Gx Gy.
        destruct (Date_parse (Indexer.date x)) as [tx|] eqn:Ex; [|congruence].
        destruct (Date_parse (Indexer.date y)) as [ty|] eqn:Ey; [|congruence].
        rewrite (by_date_desc_before x y tx ty Ex Ey),
          (by_date_desc_before y x ty tx Ey Ex).
        rewrite Z.leb_gt, Z.leb_le. lia.
      * intros x y z Gx Gy Gz.
        destruct (Date_parse (Indexer.date x)) as [tx|] eqn:Ex; [|congruence].
        destruct (Date_parse (Indexer.date y)) as [ty|] eqn:Ey; [|congruence].
        destruct (Date_parse (Indexer.date z)) as [tz|] eqn:Ez; [|congruence].
        rewrite (by_date_desc_before x y tx ty Ex Ey),
          (by_date_desc_before y z ty tz Ey Ez),
          (by_date_desc_before x z tx tz Ex Ez).
        rewrite !Z.leb_le. lia.
      * apply Forall_forall. exact Hdates.
  - intros time. apply sort_order_stable.
    intros x y _ _. unfold Spec.dated.
    destruct (Date_parse (Indexer.date x)) as [tx|] eqn:Ex; [|discriminate].
    destruct (Date_parse (Indexer.date y)) as [ty|] eqn:Ey; [|discriminate].
    intros Hx Hy. apply Z.eqb_eq in Hx, Hy. subst.
    rewrite (by_date_desc_before x y time time Ex Ey). apply Z.leb_refl.
Qed.

End PostOrder.

(** C5, as stated, fails: a date that [Date] does not parse makes the
    comparator return NaN against every other record, and the records are
    then not put in order of date.  On Node.js the index of three
    documents dated 2025-01-01, unknown and 2025-01-03 lists them as the
    loop met them, the older post before the newer one. *)
Lemma C5_counterexample_unparseable_date :
  exists ix older unparsed newer to tn,
    fst (Indexer.generatePostsIndex Js.V8 Examples.morning
           Examples.Date_parse_iso Examples.one_date_unknown 0)
    = Js.Ok (Some ix) /\
    map Indexer.date (Spec.extracted_records Examples.morning
                        Examples.one_date_unknown 0)
    = ["2025-01-01"; "unknown"; "2025-01-03"] /\
    Indexer.Index.posts ix = [older; unparsed; newer] /\
    map Indexer.date (Indexer.Index.posts ix)
    = ["2025-01-01"; "unknown"; "2025-01-03"] /\
    Examples.Date_parse_iso (Indexer.date older) = Some to /\
    Examples.Date_parse_iso (Indexer.date unparsed) = None /\
    Examples.Date_parse_iso (Indexer.date newer) = Some tn /\
    (to < tn)%Z /\
    ~ Spec.dates_descending Examples.Date_parse_iso (Indexer.Index.posts ix).
Proof.
  eexists. eexists. eexists. eexists. eexists. eexists.
  split; [vm_compute; reflexivity|].
  split; [vm_compute; reflexivity|].
  split; [reflexivity|]. split; [reflexivity|].
  split; [vm_compute; reflexivity|]. split; [vm_compute; reflexivity|].
  split; [vm_compute; reflexivity|]. split; [reflexivity|].
  cbn [Indexer.Index.posts]. intros H.
  inversion H as [|a l _ Hall]; subst.
  inversion Hall as [|b l' Hb _]; subst.
  destruct Hb as [ta [tb [_ [Hb _]]]]. vm_compute in Hb. discriminate Hb.
Qed.

(** With an unparsed date the order is the engine's: of four documents
    dated 2025-01-02, 2025-01-03, unknown and 2025-01-04, Node.js puts
    the newest first and the unparsed one last, which is not the order
    that insertion by the comparator's answers gives. *)
Lemma unparseable_date_among_four :
  exists ix,
    fst (Indexer.generatePostsIndex Js.V8 Examples.morning
           Examples.Date_parse_iso Examples.four_dates_one_unknown 0)
    = Js.Ok (Some ix) /\
    map Indexer.date (Indexer.Index.posts ix)
    = ["2025-01-04"; "2025-01-03"; "2025-01-02"; "unknown"] /\
    map Indexer.date
        (Js.sort_order (Indexer.by_date_desc Examples.Date_parse_iso)
           (Spec.extracted_records Examples.morning
              Examples.four_dates_one_unknown 0))
    = ["2025-01-03"; "2025-01-02"; "unknown"; "2025-01-04"].
Proof.
  eexists. split; [vm_compute; reflexivity|]. split; reflexivity.
Qed.

Lemma C5_witness_three_dates :
  exists ix,
    fst (Indexer.generatePostsIndex Js.V8 Examples.morning
           Examples.Date_parse_iso Examples.three_dates 0) = Js.Ok (Some ix) /\
    map Indexer.date (Spec.extracted_records Examples.morning
                        Examples.three_dates 0)
    = ["2025-09-20"; "2025-09-23"; "2025-09-18"] /\
    map Indexer.date (Indexer.Index.posts ix)
    = ["2025-09-23"; "2025-09-20"; "2025-09-18"] /\
    Spec.dates_descending Examples.Date_parse_iso (Indexer.Index.posts ix).
Proof.
  destruct (C5_posts_newest_first_stable
              Js.V8 Examples.morning Examples.Date_parse_iso
              Examples.three_dates 0) as [ix [t' [E [_ [H _]]]]].
  - reflexivity.
  - vm_compute. discriminate.
  - intros p Hp. vm_compute in Hp.
    destruct Hp as [<-|[<-|[<-|[]]]]; vm_compute; discriminate.
  - exists ix. split; [now rewrite E|].
    split; [reflexivity|]. split; [|exact H].
    clear H; vm_compute in E; injection E as <- _; reflexivity.
Defined.

(** *** Running the indexer twice *)

Section Reruns.
Import Js Dom.

Variables clock1 clock2 : nat -> string.
Variable Date_parse : string -> option Z.

Hypothesis same_day :
  forall n m, Spec.day_of (clock1 n) = Spec.day_of (clock2 m).

(** One document gives, under both clocks, the same exception or records
    that differ in [lastModified] only. *)
Lemma extractMetadata_same_day doc filename t1 t2 :
  match fst (Indexer.extractMetadata clock1 doc filename t1),
        fst (Indexer.extractMetadata clock2 doc filename t2) with
  | Ok a, Ok b => Spec.blank_lastModified a = Spec.blank_lastModified b
  | Throw _, Throw _ => True
  | _, _ => False
  end.
Proof.
  rewrite !extractMetadata_cases. cbv zeta. rewrite !extract_date_cases.
  rewrite (same_day t1 t2).
  destruct (querySelector doc Spec.date_selector) as [el|].
  - destruct (getAttribute el "content"); [|exact I].
    destruct (Indexer.extract_tags doc); [reflexivity|exact I].
  - destruct (Indexer.match_ymd _);
      (destruct (Indexer.extract_tags doc); [reflexivity|exact I]).
Qed.

Lemma extracted_same_day fs files t1 t2 :
  map Spec.blank_lastModified (Spec.extracted_from clock1 fs files t1)
  = map Spec.blank_lastModified (Spec.extracted_from clock2 fs files t2).
Proof.
  revert t1 t2. induction files as [|file rest IH]; intros t1 t2;
    [reflexivity|].
  cbn [Spec.extracted_from].
  destruct (Indexer.readFileSync fs file) as [doc|e]; [|apply IH].
  pose proof (extractMetadata_same_day doc file t1 t2) as H.
  destruct (Indexer.extractMetadata clock1 doc file t1) as [[a|e1] t1'];
    destruct (Indexer.extractMetadata clock2 doc file t2) as [[b|e2] t2'];
    cbn [fst] in H; try contradiction.
  - cbn [map]. now rewrite H, (IH t1' t2').
  - apply IH.
Qed.

End Reruns.

(** What the index computes from the records does not look at
    [lastModified]. *)
Lemma fold_left_blank {S : Type}
      (f : S -> Indexer.PostMetadata -> S) (l : list Indexer.PostMetadata)
      (s : S) :
  (forall a p, f a (Spec.blank_lastModified p) = f a p) ->
  fold_left f (map Spec.blank_lastModified l) s = fold_left f l s.
Proof.
  intros H. revert s. induction l as [|p l IH]; intros s; simpl;
    [reflexivity|].
  now rewrite H, IH.
Qed.

Lemma filter_length_blank (h : Indexer.PostMetadata -> bool)
      (l : list Indexer.PostMetadata) :
  (forall p, h (Spec.blank_lastModified p) = h p) ->
  List.length (filter h (map Spec.blank_lastModified l))
  = List.length (filter h l).
Proof.
  intros H. induction l as [|p l IH]; simpl; [reflexivity|].
  rewrite H. destruct (h p); simpl; now rewrite IH.
Qed.

Lemma sort_blank engine Date_parse (l : list Indexer.PostMetadata) :
  Js.sort engine (Indexer.by_date_desc Date_parse)
          (map Spec.blank_lastModified l)
  = map Spec.blank_lastModified
        (Js.sort engine (Indexer.by_date_desc Date_parse) l).
Proof. apply sort_map. reflexivity. Qed.

Lemma categories_of_blank l :
  Spec.categories_of (map Spec.blank_lastModified l) = Spec.categories_of l.
Proof. apply fold_left_blank. reflexivity. Qed.

Lemma tags_of_blank l :
  Spec.tags_of (map Spec.blank_lastModified l) = Spec.tags_of l.
Proof. apply fold_left_blank. reflexivity. Qed.

Lemma category_entries_blank cats l :
  Indexer.category_entries cats (map Spec.blank_lastModified l)
  = Indexer.category_entries cats l.
Proof.
  unfold Indexer.category_entries. apply map_ext. intros cat.
  now rewrite filter_length_blank.
Qed.

Lemma tag_entries_blank tags l :
  Indexer.tag_entries tags (map Spec.blank_lastModified l)
  = Indexer.tag_entries tags l.
Proof.
  unfold Indexer.tag_entries. apply map_ext. intros tag.
  now rewrite filter_length_blank.
Qed.

Lemma last_date_blank l :
  option_map Indexer.date
             (last (map Some (map Spec.blank_lastModified l)) None)
  = option_map Indexer.date (last (map Some l) None).
Proof.
  induction l as [|p l IH]; [reflexivity|].
  destruct l as [|q l]; [reflexivity|].
  exact IH.
Qed.

Lemma compute_stats_blank l :
  Indexer.compute_stats (map Spec.blank_lastModified l)
  = Indexer.compute_stats l.
Proof.
  unfold Indexer.compute_stats, Indexer.sum_minutes.
  rewrite !fold_left_blank by reflexivity.
  rewrite last_date_blank, length_map.
  destruct l; reflexivity.
Qed.

Lemma blind_to_lastModified {X : Type}
      (F : list Indexer.PostMetadata -> X) l1 l2 :
  (forall l, F (map Spec.blank_lastModified l) = F l) ->
  map Spec.blank_lastModified l1 = map Spec.blank_lastModified l2 ->
  F l1 = F l2.
Proof. intros H E. now rewrite <- (H l1), <- (H l2), E. Qed.

(** C4, as stated, fails: two runs on the same document an hour apart
    give indexes that differ in the posts, each record carrying the time
    of its extraction in [lastModified]; and two runs on different days
    give a document without a date two different dates. *)
Lemma C4_counterexample_lastModified :
  (exists ix1 ix2,
      fst (Indexer.generatePostsIndex Js.V8 Examples.morning
             Examples.Date_parse_iso Examples.one_post 0) = Js.Ok (Some ix1) /\
      fst (Indexer.generatePostsIndex Js.V8 Examples.later
             Examples.Date_parse_iso Examples.one_post 0) = Js.Ok (Some ix2) /\
      map Indexer.lastModified (Indexer.Index.posts ix1)
        = ["2026-11-03T09:00:00.000Z"] /\
      map Indexer.lastModified (Indexer.Index.posts ix2)
        = ["2026-11-03T10:00:00.000Z"] /\
      ~ Spec.same_but_generated ix1 ix2) /\
  (exists ix1 ix2,
      fst (Indexer.generatePostsIndex Js.V8 Examples.morning
             Examples.Date_parse_iso Examples.undated 0) = Js.Ok (Some ix1) /\
      fst (Indexer.generatePostsIndex Js.V8 Examples.next_day
             Examples.Date_parse_iso Examples.undated 0) = Js.Ok (Some ix2) /\
      map Indexer.date (Indexer.Index.posts ix1) = ["2026-11-03"] /\
      map Indexer.date (Indexer.Index.posts ix2) = ["2026-11-04"]).
Proof.
  split.
  - eexists. eexists.
    split; [vm_compute; reflexivity|]. split; [vm_compute; reflexivity|].
    split; [reflexivity|]. split; [reflexivity|].
    intros [_ [H _]]. cbn [Indexer.Index.posts] in H. discriminate H.
  - eexists. eexists.
    split; [vm_compute; reflexivity|]. split; [vm_compute; reflexivity|].
    split; reflexivity.
Qed.

(** C4 (amended): two runs on an unchanged document set whose clock
    readings fall on the same calendar day both write an index or both
    write none, and the two indexes are identical in every field except
    the top-level [generated] and the [lastModified] of each record. *)
Theorem C4_reruns_agree_up_to_timestamps
        engine clock1 clock2 Date_parse fs t1 t2 :
  (forall n m, Spec.day_of (clock1 n) = Spec.day_of (clock2 m)) ->
  exists r1 r2 t1' t2',
    Indexer.generatePostsIndex engine clock1 Date_parse fs t1
    = (Js.Ok r1, t1') /\
    Indexer.generatePostsIndex engine clock2 Date_parse fs t2
    = (Js.Ok r2, t2') /\
    option_map Spec.blank_timestamps r1 = option_map Spec.blank_timestamps r2.
Proof.
  intros Hday.
  destruct (Indexer.existsSync fs) eqn:Hex.
  2:{ exists None, None, t1, t2.
      rewrite !generatePostsIndex_skips by auto. auto. }
  destruct (Spec.html_files fs) as [|f files] eqn:Hfiles.
  { exists None, None, t1, t2.
    rewrite !generatePostsIndex_skips by auto. auto. }
  assert (Hne : Spec.html_files fs <> []) by (rewrite Hfiles; discriminate).
  destruct (generatePostsIndex_writes engine clock1 Date_parse fs t1 Hex Hne)
    as [u1 E1].
  destruct (generatePostsIndex_writes engine clock2 Date_parse fs t2 Hex Hne)
    as [u2 E2].
  eexists. eexists. eexists. eexists.
  split; [exact E1|]. split; [exact E2|].
  cbv zeta. cbn [option_map]. f_equal.
  pose proof (extracted_same_day clock1 clock2 Hday fs
                (Spec.html_files fs) t1 t2) as R.
  fold (Spec.extracted_records clock1 fs t1) in R.
  fold (Spec.extracted_records clock2 fs t2) in R.
  set (records1 := Spec.extracted_records clock1 fs t1) in *.
  set (records2 := Spec.extracted_records clock2 fs t2) in *.
  assert (P : map Spec.blank_lastModified
                  (Js.sort engine (Indexer.by_date_desc Date_parse) records1)
              = map Spec.blank_lastModified
                    (Js.sort engine (Indexer.by_date_desc Date_parse)
                             records2)).
  { now rewrite <- !sort_blank, R. }
  unfold Spec.blank_timestamps.
  cbn [Indexer.Index.totalPosts Indexer.Index.posts Indexer.Index.categories
       Indexer.Index.tags Indexer.Index.stats].
  rewrite (blind_to_lastModified Spec.categories_of _ _
             categories_of_blank R).
  rewrite (blind_to_lastModified Spec.tags_of _ _ tags_of_blank R).
  rewrite (blind_to_lastModified
             (Indexer.category_entries (Spec.categories_of records2)) _ _
             (category_entries_blank _) P).
  rewrite (blind_to_lastModified
             (Indexer.tag_entries (Spec.tags_of records2)) _ _
             (tag_entries_blank _) P).
  rewrite (blind_to_lastModified Indexer.compute_stats _ _
             compute_stats_blank P).
  rewrite (blind_to_lastModified (@List.length _) _ _
             (fun l => length_map _ l) P).
  now rewrite P.
Qed.

Lemma C4_witness_same_day :
  exists ix1 ix2,
    fst (Indexer.generatePostsIndex Js.V8 Examples.morning
           Examples.Date_parse_iso Examples.one_post 0) = Js.Ok (Some ix1) /\
    fst (Indexer.generatePostsIndex Js.V8 Examples.later
           Examples.Date_parse_iso Examples.one_post 0) = Js.Ok (Some ix2) /\
    Spec.blank_timestamps ix1 = Spec.blank_timestamps ix2.
Proof.
  destruct (C4_reruns_agree_up_to_timestamps
              Js.V8 Examples.morning Examples.later Examples.Date_parse_iso
              Examples.one_post 0 0) as [r1 [r2 [t1' [t2' [E1 [E2 H]]]]]].
  - intros n m. reflexivity.
  - pose proof E1 as F1. pose proof E2 as F2.
    vm_compute in F1, F2.
    destruct r1 as [ix1|]; [|discriminate F1].
    destruct r2 as [ix2|]; [|discriminate F2].
    exists ix1, ix2. rewrite E1, E2.
    split; [reflexivity|]. split; [reflexivity|].
    exact (f_equal (fun o => match o with
                             | Some ix => ix
                             | None => Spec.blank_timestamps ix1
                             end) H).
Defined.

(* ================================================================== *)
(** ** Further properties of the indexer *)
(* ================================================================== *)

(** *** File names and slugs *)

Lemma substring_split (a : nat) (s : string) :
  a <= String.length s ->
  (String.substring 0 a s ++ String.substring a (String.length s - a) s)%string
  = s.
Proof.
  revert s. induction a as [|a IH]; intros s H.
  - rewrite substring_0_0, Nat.sub_0_r. simpl.
    clear H. induction s as [|c s IHs]; simpl; [reflexivity|].
    now rewrite IHs.
  - destruct s as [|c s]; simpl in *; [lia|].
    rewrite IH by lia. reflexivity.
Qed.

(** Stripping the extension of a file that has it and putting it back
    gives the file name. *)
Lemma basename_round_trip (file ext : string) :
  Indexer.endsWith file ext = true ->
  (Indexer.basename file ext ++ ext)%string = file.
Proof.
  unfold Indexer.endsWith, Indexer.basename. intros H. rewrite H.
  apply andb_prop in H. destruct H as [Hle Heq].
  apply Nat.leb_le in Hle. apply String.eqb_eq in Heq.
  pose proof (substring_split (String.length file - String.length ext) file)
    as S.
  replace (String.length file - (String.length file - String.length ext))
    with (String.length ext) in S by lia.
  rewrite Heq in S. apply S. lia.
Qed.

Lemma html_files_In (fs : Indexer.FileSystem) (file : string) :
  In file (Spec.html_files fs) <->
  In file (Indexer.readdirSync fs) /\ Indexer.endsWith file ".html" = true.
Proof.
  unfold Spec.html_files. rewrite sort_order_In, filter_In. reflexivity.
Qed.

(** Every extracted record comes from one of the files, which was read,
    and carries the slug and id of that file. *)
Lemma extracted_from_origin clock fs files t p :
  In p (Spec.extracted_from clock fs files t) ->
  exists file doc t0,
    In file files /\ Indexer.readFileSync fs file = Js.Ok doc /\
    fst (Indexer.extractMetadata clock doc file t0) = Js.Ok p.
Proof.
  revert t. induction files as [|f rest IH]; intros t; [contradiction|].
  cbn [Spec.extracted_from].
  destruct (Indexer.readFileSync fs f) as [doc|e] eqn:R.
  - destruct (Indexer.extractMetadata clock doc f t) as [[m|e] t1] eqn:E.
    + intros [<-|H].
      * exists f, doc, t. rewrite E. simpl. auto.
      * destruct (IH _ H) as [file [d [t0 [H1 H2]]]].
        exists file, d, t0. simpl. auto.
    + intros H. destruct (IH _ H) as [file [d [t0 [H1 H2]]]].
      exists file, d, t0. simpl. auto.
  - intros H. destruct (IH _ H) as [file [d [t0 [H1 H2]]]].
    exists file, d, t0. simpl. auto.
Qed.

(** The fields of a returned record that come from the file name alone. *)
Lemma extractMetadata_slug clock doc filename t r :
  fst (Indexer.extractMetadata clock doc filename t) = Js.Ok r ->
  Indexer.slug r = Indexer.basename filename ".html" /\
  Indexer.id r = ("post-" ++ Indexer.slug r)%string.
Proof.
  rewrite extractMetadata_cases. cbv zeta.
  destruct (Indexer.extract_date clock doc _ t) as [[d|e] t1];
    [|discriminate].
  destruct (Indexer.extract_tags doc); [|discriminate].
  intros [= <-]. split; reflexivity.
Qed.

Section IndexContents.
Import Js Dom.

Variable engine : Js.Engine.
Variable clock : nat -> string.
Variable Date_parse : string -> option Z.

(** X1: every post of the index stands for an [.html] file of the
    directory that could be read: the file is the post's slug followed by
    [.html], and the id is the slug behind [post-]. *)
Theorem X1_posts_stand_for_html_files fs t :
  Indexer.existsSync fs = true ->
  Spec.html_files fs <> [] ->
  exists ix t',
    Indexer.generatePostsIndex engine clock Date_parse fs t
    = (Ok (Some ix), t') /\
    forall p, In p (Indexer.Index.posts ix) ->
      In (Indexer.slug p ++ ".html")%string (Indexer.readdirSync fs) /\
      is_ok (Indexer.readFileSync fs (Indexer.slug p ++ ".html")) = true /\
      Indexer.id p = ("post-" ++ Indexer.slug p)%string.
Proof.
  intros Hex Hfiles.
  destruct (generatePostsIndex_writes engine clock Date_parse fs t Hex Hfiles)
    as [t1 E].
  eexists. eexists. split; [exact E|].
  cbv zeta. cbn [Indexer.Index.posts]. intros p Hp.
  apply (proj1 (sort_In _ _ _ p)) in Hp.
  apply extracted_from_origin in Hp.
  destruct Hp as [file [doc [t0 [Hfile [Hread Hex']]]]].
  apply extractMetadata_slug in Hex'. destruct Hex' as [Hslug Hid].
  apply html_files_In in Hfile. destruct Hfile as [Hdir Hends].
  rewrite Hslug at 1 2. rewrite (basename_round_trip file ".html" Hends).
  rewrite Hread. auto.
Qed.

End IndexContents.

Lemma X1_witness_three_dates :
  exists ix,
    fst (Indexer.generatePostsIndex Js.V8 Examples.morning
           Examples.Date_parse_iso Examples.three_dates 0) = Js.Ok (Some ix) /\
    map Indexer.slug (Indexer.Index.posts ix) = ["b"; "a"; "c"] /\
    forall p, In p (Indexer.Index.posts ix) ->
      In (Indexer.slug p ++ ".html")%string
         (Indexer.readdirSync Examples.three_dates).
Proof.
  destruct (X1_posts_stand_for_html_files
              Js.V8 Examples.morning Examples.Date_parse_iso
              Examples.three_dates 0) as [ix [t' [E H]]].
  - reflexivity.
  - vm_compute. discriminate.
  - exists ix. split; [now rewrite E|].
    split; [|intros p Hp; apply (H p Hp)].
    clear H; vm_compute in E; injection E as <- _; reflexivity.
Defined.

(** *** Categories and counts *)

Section SetFacts.

Context {A : Type}.
Variable eqb : A -> A -> bool.
Hypothesis eqb_eq : forall x y, eqb x y = true <-> x = y.

Lemma existsb_eqb_In (x : A) (s : list A) :
  existsb (eqb x) s = true <-> In x s.
Proof.
  rewrite existsb_exists. split.
  - intros [y [Hy E]]. apply eqb_eq in E. now subst.
  - intros H. exists x. split; [exact H | now apply eqb_eq].
Qed.

Lemma set_add_In_gen (x y : A) (s : list A) :
  In y (Js.set_add eqb x s) <-> y = x \/ In y s.
Proof.
  unfold Js.set_add. destruct (existsb (eqb x) s) eqn:E.
  - apply existsb_eqb_In in E. split; [auto|]. intros [->|H]; auto.
  - rewrite in_app_iff. simpl. intuition.
Qed.

Lemma set_add_NoDup_gen (x : A) (s : list A) :
  NoDup s -> NoDup (Js.set_add eqb x s).
Proof.
  intros H. unfold Js.set_add. destruct (existsb (eqb x) s) eqn:E;
    [exact H|].
  assert (Hx : ~ In x s).
  { intros Hin. apply existsb_eqb_In in Hin. congruence. }
  apply NoDup_rev in H. rewrite <- (rev_involutive (s ++ [x])).
  apply NoDup_rev. rewrite rev_app_distr. simpl. constructor; [|exact H].
  now rewrite <- in_rev.
Qed.

Lemma collect_keys_In {P : Type} (key : P -> A) (l : list P) (s : list A)
      (c : A) :
  In c (fold_left (fun s p => Js.set_add eqb (key p) s) l s)
  <-> (exists p, In p l /\ key p = c) \/ In c s.
Proof.
  revert s. induction l as [|q l IH]; intros s; simpl.
  - split; [auto|]. intros [[p [[] _]]|H]; exact H.
  - rewrite IH, set_add_In_gen. split.
    + intros [[p [Hp Hk]]|[->|H]]; eauto.
    + intros [[p [[<-|Hp] Hk]]|H]; eauto.
Qed.

Lemma collect_keys_NoDup {P : Type} (key : P -> A) (l : list P)
      (s : list A) :
  NoDup s -> NoDup (fold_left (fun s p => Js.set_add eqb (key p) s) l s).
Proof.
  revert s. induction l as [|q l IH]; intros s H; simpl; [exact H|].
  apply IH, set_add_NoDup_gen, H.
Qed.

(** Counting the elements of each key, over distinct keys that cover the
    list, counts every element once. *)
Lemma indicator_sum (k : A) (cs : list A) :
  NoDup cs -> In k cs ->
  list_sum (map (fun c => if eqb k c then 1 else 0) cs) = 1.
Proof.
  induction 1 as [|c cs Hc Hnd IH]; intros Hin; [contradiction|].
  simpl. destruct (eqb k c) eqn:E.
  - apply eqb_eq in E. subst c.
    assert (Z0 : list_sum (map (fun c => if eqb k c then 1 else 0) cs) = 0).
    { clear IH Hin Hnd. induction cs as [|d cs IHcs]; [reflexivity|].
      simpl. destruct (eqb k d) eqn:Ed.
      - apply eqb_eq in Ed. subst d. exfalso. apply Hc. now left.
      - apply IHcs. intros H. apply Hc. now right. }
    now rewrite Z0.
  - destruct Hin as [->|Hin].
    + assert (eqb k k = true) by now apply eqb_eq. congruence.
    + now rewrite (IH Hin).
Qed.

Lemma count_by_key {P : Type} (key : P -> A) (cs : list A) (l : list P) :
  NoDup cs -> (forall p, In p l -> In (key p) cs) ->
  list_sum (map (fun c => List.length (filter (fun p => eqb (key p) c) l)) cs)
  = List.length l.
Proof.
  intros Hnd. induction l as [|p l IH]; intros Hcover.
  - simpl. clear Hnd Hcover.
    induction cs as [|c cs IHcs]; simpl; [reflexivity | exact IHcs].
  - assert (E : map (fun c => List.length
                                (filter (fun q => eqb (key q) c) (p :: l))) cs
                = map (fun c => (if eqb (key p) c then 1 else 0)
                                + List.length
                                    (filter (fun q => eqb (key q) c) l)) cs).
    { apply map_ext. intros c. simpl. destruct (eqb (key p) c); reflexivity. }
    rewrite E. clear E.
    assert (S : forall (f g : A -> nat) xs,
               list_sum (map (fun c => f c + g c) xs)
               = list_sum (map f xs) + list_sum (map g xs)).
    { intros f g xs. induction xs as [|x xs IHxs]; simpl; [reflexivity|].
      rewrite IHxs. lia. }
    rewrite S, IH by (intros q Hq; apply Hcover; now right).
    rewrite indicator_sum; [reflexivity | exact Hnd |].
    apply Hcover. now left.
Qed.

End SetFacts.

Lemma strict_eq_eq (x y : Js.Nullable) : Js.strict_eq x y = true <-> x = y.
Proof.
  destruct x as [a|], y as [b|]; simpl; try (split; congruence).
  rewrite String.eqb_eq. split; congruence.
Qed.

Lemma categories_of_In records c :
  In c (Spec.categories_of records)
  <-> exists p, In p records /\ Indexer.category p = c.
Proof.
  unfold Spec.categories_of.
  rewrite (collect_keys_In Js.strict_eq strict_eq_eq Indexer.category).
  simpl. intuition.
Qed.

Lemma categories_of_NoDup records : NoDup (Spec.categories_of records).
Proof.
  apply (collect_keys_NoDup Js.strict_eq strict_eq_eq). constructor.
Qed.

Lemma sort_nullable_sorted (l : list Js.Nullable) :
  StronglySorted
    (fun a b => String.compare (Js.ToString a) (Js.ToString b) <> Gt)
    (Js.sort_order Js.default_compare_nullable l).
Proof.
  assert (H : StronglySorted
                (fun a b => Js.before Js.default_compare_nullable a b = true)
                (Js.sort_order Js.default_compare_nullable l)).
  { apply (sort_order_sorted Js.default_compare_nullable (fun _ => True)).
    - intros x y _ _. apply default_compare_total.
    - intros x y z _ _ _. apply default_compare_trans.
    - apply Forall_forall; auto. }
  induction H; constructor; auto.
  eapply Forall_impl; [|eassumption].
  intros b Hb. now apply before_default_compare.
Qed.

Lemma category_entries_names cats posts :
  map Indexer.Category.name (Indexer.category_entries cats posts)
  = Js.sort_order Js.default_compare_nullable cats.
Proof.
  unfold Indexer.category_entries. rewrite map_map. simpl. apply map_id.
Qed.

Lemma total_count_entries cats posts :
  Spec.total_count
    (map (fun cat =>
            Indexer.Category.mk cat
              (Z.of_nat (List.length
                 (filter (fun p => Js.strict_eq (Indexer.category p) cat)
                         posts)))
              ("Posts about " ++ Js.ToString cat)%string) cats)
  = Z.of_nat
      (list_sum
         (map (fun cat =>
                 List.length
                   (filter (fun p => Js.strict_eq (Indexer.category p) cat)
                           posts)) cats)).
Proof.
  unfold Spec.total_count.
  induction cats as [|c cats IH]; [reflexivity|].
  cbn [map fold_right list_sum Indexer.Category.count].
  rewrite IH, Nat2Z.inj_add. reflexivity.
Qed.

Section IndexCategories.
Import Js Dom.

Variable engine : Js.Engine.
Variable clock : nat -> string.
Variable Date_parse : string -> option Z.

(** X2: the categories list of the index holds the category of every
    post exactly once, in ascending code-unit order of the names, each
    described as "Posts about <name>". *)
Theorem X2_index_categories_complete_sorted fs t :
  Indexer.existsSync fs = true ->
  Spec.html_files fs <> [] ->
  exists ix t',
    Indexer.generatePostsIndex engine clock Date_parse fs t
    = (Ok (Some ix), t') /\
    Spec.category_names_ascending (Indexer.Index.categories ix) /\
    NoDup (map Indexer.Category.name (Indexer.Index.categories ix)) /\
    (forall c,
        In c (map Indexer.Category.name (Indexer.Index.categories ix)) <->
        exists p, In p (Indexer.Index.posts ix) /\ Indexer.category p = c) /\
    Forall (fun entry =>
              Indexer.Category.description entry
              = ("Posts about " ++ ToString (Indexer.Category.name entry))%string)
           (Indexer.Index.categories ix).
Proof.
  intros Hex Hfiles.
  destruct (generatePostsIndex_writes engine clock Date_parse fs t Hex Hfiles)
    as [t1 E].
  eexists. eexists. split; [exact E|].
  cbv zeta. cbn [Indexer.Index.categories Indexer.Index.posts].
  set (records := Spec.extracted_records clock fs t).
  split; [|split; [|split]].
  - unfold Spec.category_names_ascending, Indexer.category_entries.
    apply StronglySorted_map
      with (R := fun a b =>
                   String.compare (ToString (Indexer.Category.name a))
                                  (ToString (Indexer.Category.name b)) <> Gt).
    cbn [Indexer.Category.name]. apply sort_nullable_sorted.
  - rewrite category_entries_names.
    eapply Permutation_NoDup;
      [apply Permutation_sym, sort_order_perm | apply categories_of_NoDup].
  - intros c. rewrite category_entries_names, sort_order_In, categories_of_In.
    split; intros [p [Hp Hc]]; exists p; split; auto.
    + apply (proj2 (sort_In engine (Indexer.by_date_desc Date_parse)
                             records p)), Hp.
    + apply (proj1 (sort_In engine (Indexer.by_date_desc Date_parse)
                             records p)), Hp.
  - apply Forall_forall. intros entry He.
    unfold Indexer.category_entries in He. apply in_map_iff in He.
    destruct He as [cat [<- _]]. reflexivity.
Qed.

(** X3: the counts of the categories list add up to [totalPosts], and no
    category is listed with a count of zero. *)
Theorem X3_category_counts_add_up fs t :
  Indexer.existsSync fs = true ->
  Spec.html_files fs <> [] ->
  exists ix t',
    Indexer.generatePostsIndex engine clock Date_parse fs t
    = (Ok (Some ix), t') /\
    Spec.total_count (Indexer.Index.categories ix)
    = Indexer.Index.totalPosts ix /\
    Forall (fun entry => (1 <= Indexer.Category.count entry)%Z)
           (Indexer.Index.categories ix).
Proof.
  intros Hex Hfiles.
  destruct (generatePostsIndex_writes engine clock Date_parse fs t Hex Hfiles)
    as [t1 E].
  eexists. eexists. split; [exact E|].
  cbv zeta.
  cbn [Indexer.Index.categories Indexer.Index.posts Indexer.Index.totalPosts].
  set (records := Spec.extracted_records clock fs t).
  set (posts := sort engine (Indexer.by_date_desc Date_parse) records).
  assert (Hcover : forall p, In p posts ->
            In (Indexer.category p)
               (sort_order default_compare_nullable
                           (Spec.categories_of records))).
  { intros p Hp. apply sort_order_In, categories_of_In. exists p.
    split; [|reflexivity].
    apply (proj1 (sort_In engine (Indexer.by_date_desc Date_parse)
                         records p)), Hp. }
  split.
  - unfold Indexer.category_entries. rewrite total_count_entries.
    f_equal.
    apply (count_by_key strict_eq strict_eq_eq Indexer.category).
    + eapply Permutation_NoDup;
        [apply Permutation_sym, sort_order_perm | apply categories_of_NoDup].
    + exact Hcover.
  - apply Forall_forall. intros entry He.
    unfold Indexer.category_entries in He. apply in_map_iff in He.
    destruct He as [cat [<- Hcat]]. cbn [Indexer.Category.count].
    apply (proj1 (sort_order_In _ _ cat)) in Hcat.
    apply categories_of_In in Hcat. destruct Hcat as [p [Hp Hc]].
    assert (Hin : In p (filter (fun q => strict_eq (Indexer.category q) cat)
                               posts)).
    { apply filter_In. split.
      - apply (proj2 (sort_In engine (Indexer.by_date_desc Date_parse)
                               records p)), Hp.
      - now apply strict_eq_eq. }
    destruct (filter _ posts); [contradiction|]. simpl. lia.
Qed.

(** X4: every tag of the index is counted at least once and at most
    [totalPosts] times. *)
Theorem X4_tag_counts_bounded fs t :
  Indexer.existsSync fs = true ->
  Spec.html_files fs <> [] ->
  exists ix t',
    Indexer.generatePostsIndex engine clock Date_parse fs t
    = (Ok (Some ix), t') /\
    Forall (fun entry =>
              (1 <= Indexer.Tag.count entry <= Indexer.Index.totalPosts ix)%Z)
           (Indexer.Index.tags ix).
Proof.
  intros Hex Hfiles.
  destruct (generatePostsIndex_writes engine clock Date_parse fs t Hex Hfiles)
    as [t1 E].
  eexists. eexists. split; [exact E|].
  cbv zeta.
  cbn [Indexer.Index.tags Indexer.Index.posts Indexer.Index.totalPosts].
  set (records := Spec.extracted_records clock fs t).
  set (posts := sort engine (Indexer.by_date_desc Date_parse) records).
  apply Forall_forall. intros entry He.
  unfold Indexer.tag_entries in He. apply in_map_iff in He.
  destruct He as [tag [<- Htag]]. cbn [Indexer.Tag.count].
  apply (proj1 (sort_order_In _ _ tag)) in Htag.
  apply tags_of_In in Htag. destruct Htag as [p [Hp Ht]].
  split.
  - assert (Hin : In p (filter (fun q => includes (Indexer.tags q) tag)
                               posts)).
    { apply filter_In. split.
      - apply (proj2 (sort_In engine (Indexer.by_date_desc Date_parse)
                               records p)), Hp.
      - now apply includes_In. }
    destruct (filter _ posts); [contradiction|]. simpl. lia.
  - apply inj_le, filter_length_le.
Qed.

End IndexCategories.

Lemma X2_witness_three_categorised :
  exists ix,
    fst (Indexer.generatePostsIndex Js.V8 Examples.morning
           Examples.Date_parse_iso Examples.three_categorised 0)
    = Js.Ok (Some ix) /\
    map Indexer.Category.name (Indexer.Index.categories ix)
    = [Some "Art"; Some "Tech"] /\
    Spec.category_names_ascending (Indexer.Index.categories ix).
Proof.
  destruct (X2_index_categories_complete_sorted
              Js.V8 Examples.morning Examples.Date_parse_iso
              Examples.three_categorised 0) as [ix [t' [E [H _]]]].
  - reflexivity.
  - vm_compute. discriminate.
  - exists ix. split; [now rewrite E|]. split; [|exact H].
    clear H; vm_compute in E; injection E as <- _; reflexivity.
Defined.

Lemma X3_witness_three_categorised :
  exists ix,
    fst (Indexer.generatePostsIndex Js.V8 Examples.morning
           Examples.Date_parse_iso Examples.three_categorised 0)
    = Js.Ok (Some ix) /\
    map Indexer.Category.count (Indexer.Index.categories ix) = [1; 2]%Z /\
    Spec.total_count (Indexer.Index.categories ix)
    = Indexer.Index.totalPosts ix.
Proof.
  destruct (X3_category_counts_add_up
              Js.V8 Examples.morning Examples.Date_parse_iso
              Examples.three_categorised 0) as [ix [t' [E [H _]]]].
  - reflexivity.
  - vm_compute. discriminate.
  - exists ix. split; [now rewrite E|]. split; [|exact H].
    clear H; vm_compute in E; injection E as <- _; reflexivity.
Defined.

Lemma X4_witness_tags_XY_X :
  exists ix,
    fst (Indexer.generatePostsIndex Js.V8 Examples.morning
           Examples.Date_parse_iso Examples.tags_XY_X 0) = Js.Ok (Some ix) /\
    Indexer.Index.totalPosts ix = 2%Z /\
    Forall (fun entry =>
              (1 <= Indexer.Tag.count entry <= Indexer.Index.totalPosts ix)%Z)
           (Indexer.Index.tags ix).
Proof.
  destruct (X4_tag_counts_bounded
              Js.V8 Examples.morning Examples.Date_parse_iso
              Examples.tags_XY_X 0) as [ix [t' [E H]]].
  - reflexivity.
  - vm_compute. discriminate.
  - exists ix. split; [now rewrite E|]. split; [|exact H].
    clear H; vm_compute in E; injection E as <- _; reflexivity.
Defined.

(** *** Statistics *)




Section IndexStats.
Import Js Dom.

Variable engine : Js.Engine.
Variable clock : nat -> string.
Variable Date_parse : string -> option Z.



(** A file that cannot be read or extracted leaves no record. *)
Lemma nothing_extracted_from fs files t :
  (forall file doc, In file files ->
     Indexer.readFileSync fs file = Ok doc ->
     (Spec.has_content doc Spec.date_selector
      && Spec.has_content doc Spec.keywords_selector)%bool = false) ->
  Spec.extracted_from clock fs files t = [].
Proof.
  revert t. induction files as [|f rest IH]; intros t H; [reflexivity|].
  cbn [Spec.extracted_from].
  destruct (Indexer.readFileSync fs f) as [doc|e] eqn:R.
  - pose proof (extractMetadata_is_ok clock doc f t) as Hok.
    rewrite (H f doc (or_introl eq_refl) R) in Hok.
    destruct (Indexer.extractMetadata clock doc f t) as [[m|e] t1];
      [discriminate|].
    apply IH. intros file d Hin. apply H. now right.
  - apply IH. intros file d Hin. apply H. now right.
Qed.

(** X6: when the directory has [.html] files but none of them can be
    read and extracted, an index is still written: it has no post, no
    category, no tag, and its average read time is NaN. *)
Theorem X6_index_of_nothing_extracted fs t :
  Indexer.existsSync fs = true ->
  Spec.html_files fs <> [] ->
  (forall file doc, In file (Spec.html_files fs) ->
     Indexer.readFileSync fs file = Ok doc ->
     (Spec.has_content doc Spec.date_selector
      && Spec.has_content doc Spec.keywords_selector)%bool = false) ->
  exists ix t',
    Indexer.generatePostsIndex engine clock Date_parse fs t
    = (Ok (Some ix), t') /\
    Indexer.Index.totalPosts ix = 0%Z /\
    Indexer.Index.posts ix = [] /\
    Indexer.Index.categories ix = [] /\
    Indexer.Index.tags ix = [] /\
    Indexer.Index.stats ix = Indexer.mkStats 0 None None None.
Proof.
  intros Hex Hfiles Hfail.
  destruct (generatePostsIndex_writes engine clock Date_parse fs t Hex Hfiles)
    as [t1 E].
  eexists. eexists. split; [exact E|].
  cbv zeta. unfold Spec.extracted_records.
  rewrite (nothing_extracted_from fs (Spec.html_files fs) t Hfail).
  repeat split; reflexivity.
Qed.

End IndexStats.


Lemma X6_witness_nothing_extracted :
  exists ix,
    fst (Indexer.generatePostsIndex Js.V8 Examples.morning
           Examples.Date_parse_iso Examples.nothing_extracted 0)
    = Js.Ok (Some ix) /\
    Indexer.Index.totalPosts ix = 0%Z /\
    Indexer.averageReadTime (Indexer.Index.stats ix) = None.
Proof.
  destruct (X6_index_of_nothing_extracted
              Js.V8 Examples.morning Examples.Date_parse_iso
              Examples.nothing_extracted 0)
    as [ix [t' [E [H1 [_ [_ [_ H2]]]]]]].
  - reflexivity.
  - vm_compute. discriminate.
  - intros file doc Hin. vm_compute in Hin. destruct Hin as [<-|[]].
    intros [= <-]. reflexivity.
  - exists ix. split; [now rewrite E|]. split; [exact H1|].
    now rewrite H2.
Defined.

(** *** Read time *)

Lemma digits_value_uint_acc (d : Decimal.uint) (acc : positive)
      (rest : string) :
  Js.digits_value (Zpos acc) (NilEmpty.string_of_uint d ++ rest)
  = Js.digits_value (Zpos (Pos.of_uint_acc d acc)) rest.
Proof.
  revert acc.
  induction d as [|d IH|d IH|d IH|d IH|d IH|d IH|d IH|d IH|d IH|d IH];
    intros acc; [reflexivity|..];
    cbn [NilEmpty.string_of_uint String.append Js.digits_value
         Pos.of_uint_acc];
    match goal with
    | |- (if ?b then _ else _) = _ => change b with true; cbv iota
    end;
    rewrite <- IH; f_equal;
    match goal with
    | |- context [Z.of_nat ?n] =>
        let v := eval vm_compute in (Z.of_nat n) in
        change (Z.of_nat n) with v
    end; lia.
Qed.

Lemma digits_value_uint (d : Decimal.uint) (rest : string) :
  Js.digits_value 0 (NilEmpty.string_of_uint d ++ rest)
  = Js.digits_value (Z.of_N (Pos.of_uint d)) rest.
Proof.
  induction d as [|d IH|d IH|d IH|d IH|d IH|d IH|d IH|d IH|d IH|d IH];
    [reflexivity|..];
    cbn [NilEmpty.string_of_uint String.append Js.digits_value Pos.of_uint];
    match goal with
    | |- (if ?b then _ else _) = _ => change b with true; cbv iota
    end;
    [exact IH|..];
    cbn [Z.of_N]; rewrite <- digits_value_uint_acc; f_equal.
Qed.

(** Reading back a rendered integer: [parseInt] of the decimal rendering
    of [n], followed by text that does not start with a digit, is [n]. *)
Lemma parseInt_show_int (n : Z) (rest : string) :
  (0 <= n)%Z ->
  (forall v, Js.digits_value v rest = v) ->
  Js.parseInt (Js.show_int n ++ rest) = Some n.
Proof.
  intros Hn Hrest. destruct n as [|p|p]; [| |lia].
  - change (Js.show_int 0) with "0". unfold Js.parseInt.
    cbn [String.append Js.trimStart].
    change (Js.is_white "0") with false. cbv iota.
    change (Js.is_digit "0") with true. cbv iota.
    cbn [Js.digits_value]. change (Js.is_digit "0") with true. cbv iota.
    now rewrite Hrest.
  - unfold Js.show_int. cbn [Z.to_int NilZero.string_of_int].
    pose proof (DecimalPos.Unsigned.of_to p) as E.
    pose proof (digits_value_uint (Pos.to_uint p) rest) as D.
    rewrite E, Hrest in D. cbn [Z.of_N] in D.
    unfold NilZero.string_of_uint.
    destruct (Pos.to_uint p) as [|d|d|d|d|d|d|d|d|d|d]; [discriminate E|..];
      unfold Js.parseInt;
      cbn [NilEmpty.string_of_uint String.append Js.trimStart] in *;
      match goal with
      | |- context [Js.is_white ?c] => change (Js.is_white c) with false
      end; cbv iota;
      match goal with
      | |- context [Js.is_digit ?c] => change (Js.is_digit c) with true
      end; cbv iota;
      now rewrite D.
Qed.

Lemma ceil_div_bounds (a : Z) :
  (0 <= a)%Z ->
  (a <= 200 * Indexer.ceil_div a 200 /\
   200 * (Indexer.ceil_div a 200 - 1) < a)%Z.
Proof.
  intros Ha. unfold Indexer.ceil_div.
  pose proof (Z.div_mod (- a) 200).
  pose proof (Z.mod_pos_bound (- a) 200). lia.
Qed.

Lemma count_words_nonneg (doc : Dom.Document) :
  (0 <= Indexer.count_words doc)%Z.
Proof. unfold Indexer.count_words. lia. Qed.

Lemma read_minutes_bounds (w : Z) :
  (0 <= w)%Z ->
  (1 <= Indexer.read_minutes w /\ w <= 200 * Indexer.read_minutes w /\
   (Indexer.read_minutes w = 1 \/ 200 * (Indexer.read_minutes w - 1) < w))%Z.
Proof.
  intros Hw. unfold Indexer.read_minutes, Indexer.CONFIG.wordsPerMinute.
  pose proof (ceil_div_bounds w Hw). lia.
Qed.

(** What a returned record says about the length of the document. *)
Lemma extractMetadata_readTime clock doc filename t r :
  fst (Indexer.extractMetadata clock doc filename t) = Js.Ok r ->
  Indexer.wordCount r = Indexer.count_words doc /\
  Indexer.readTime r
  = (Js.show_int (Indexer.read_minutes (Indexer.wordCount r))
     ++ " min read")%string.
Proof.
  rewrite extractMetadata_cases. cbv zeta.
  destruct (Indexer.extract_date clock doc _ t) as [[d|e] t1];
    [|discriminate].
  destruct (Indexer.extract_tags doc); [|discriminate].
  intros [= <-]. split; reflexivity.
Qed.

Lemma readTime_parses clock doc filename t r :
  fst (Indexer.extractMetadata clock doc filename t) = Js.Ok r ->
  Js.parseInt (Indexer.readTime r)
  = Some (Indexer.read_minutes (Indexer.wordCount r)) /\
  (0 <= Indexer.wordCount r)%Z.
Proof.
  intros H. apply extractMetadata_readTime in H. destruct H as [Hw Hr].
  assert (Hnn : (0 <= Indexer.wordCount r)%Z)
    by (rewrite Hw; apply count_words_nonneg).
  split; [|exact Hnn]. rewrite Hr. apply parseInt_show_int.
  - pose proof (read_minutes_bounds _ Hnn). lia.
  - intros v. reflexivity.
Qed.

Section ReadTime.
Import Js Dom.

Variable engine : Js.Engine.
Variable clock : nat -> string.
Variable Date_parse : string -> option Z.

(** X7: a record's [readTime] is "<n> min read" where [n], which
    [parseInt] reads back, is at least 1 and is the word count divided by
    200, rounded up: [wordCount <= 200 n], and [n = 1] or
    [200 (n - 1) < wordCount]. *)
Theorem X7_readTime_rounds_up_and_parses doc filename t :
  Spec.has_content doc Spec.date_selector = true ->
  Spec.has_content doc Spec.keywords_selector = true ->
  exists r n,
    Indexer.extractMetadata clock doc filename t = (Ok r, S (S t)) /\
    Indexer.readTime r = (show_int n ++ " min read")%string /\
    parseInt (Indexer.readTime r) = Some n /\
    (1 <= n)%Z /\
    (0 <= Indexer.wordCount r <= 200 * n)%Z /\
    (n = 1 \/ 200 * (n - 1) < Indexer.wordCount r)%Z.
Proof.
  intros Hd Hk.
  destruct (extractMetadata_returns clock doc filename t Hd Hk)
    as [date [tags [_ [_ E]]]].
  pose proof (f_equal fst E) as F. cbn [fst] in F.
  destruct (readTime_parses _ _ _ _ _ F) as [Hparse Hnn].
  destruct (extractMetadata_readTime _ _ _ _ _ F) as [_ Hr].
  pose proof (read_minutes_bounds _ Hnn) as [B1 [B2 B3]].
  eexists. exists (Indexer.read_minutes (Indexer.count_words doc)).
  split; [exact E|].
  cbn [Indexer.readTime Indexer.wordCount] in *.
  repeat split; auto.
Qed.

Lemma extracted_readTime fs files t p :
  In p (Spec.extracted_from clock fs files t) ->
  parseInt (Indexer.readTime p)
  = Some (Indexer.read_minutes (Indexer.wordCount p)) /\
  (1 <= Indexer.read_minutes (Indexer.wordCount p))%Z.
Proof.
  intros H. apply extracted_from_origin in H.
  destruct H as [file [doc [t0 [_ [_ H]]]]].
  destruct (readTime_parses _ _ _ _ _ H) as [Hp Hnn].
  split; [exact Hp|]. apply read_minutes_bounds, Hnn.
Qed.

Lemma sum_minutes_total (posts : list Indexer.PostMetadata) (acc : Z) :
  (forall p, In p posts ->
     parseInt (Indexer.readTime p)
     = Some (Indexer.read_minutes (Indexer.wordCount p))) ->
  fold_left (fun sum post =>
               match sum, parseInt (Indexer.readTime post) with
               | Some s, Some minutes => Some (s + minutes)%Z
               | _, _ => None
               end)
            posts (Some acc)
  = Some (acc + Spec.total_minutes posts)%Z.
Proof.
  revert acc. induction posts as [|p posts IH]; intros acc H.
  - simpl. f_equal. lia.
  - cbn [fold_left]. rewrite (H p (or_introl eq_refl)).
    rewrite IH by (intros q Hq; apply H; now right).
    f_equal. unfold Spec.total_minutes. cbn [fold_right]. lia.
Qed.

Lemma total_minutes_at_least_length (posts : list Indexer.PostMetadata) :
  (forall p, In p posts ->
     (1 <= Indexer.read_minutes (Indexer.wordCount p))%Z) ->
  (Z.of_nat (List.length posts) <= Spec.total_minutes posts)%Z.
Proof.
  induction posts as [|p posts IH]; intros H; [simpl; lia|].
  unfold Spec.total_minutes in *. cbn [fold_right List.length].
  specialize (H p (or_introl eq_refl)) as Hp.
  assert (IH' := IH (fun q Hq => H q (or_intror Hq))). lia.
Qed.

(** [Math.round(s / n)]: the integer nearest to the quotient, a half
    going up. *)
Lemma round_div_nearest (s n : Z) :
  (0 < n)%Z ->
  (2 * n * Indexer.round_div s n <= 2 * s + n
   < 2 * n * (Indexer.round_div s n + 1))%Z.
Proof.
  intros Hn. unfold Indexer.round_div.
  pose proof (Z.mul_div_le (2 * s + n) (2 * n)) as L.
  pose proof (Z.mul_succ_div_gt (2 * s + n) (2 * n)) as U.
  lia.
Qed.

(** X8: when at least one file is extracted, [averageReadTime] is a
    number: the mean of the posts' read minutes, rounded to the nearest
    integer with halves up, and at least 1.  With [s] the sum of the
    minutes and [n] the number of posts, the average [avg] is the integer
    with [avg <= s / n + 1/2 < avg + 1]. *)
Theorem X8_average_read_time_is_rounded_mean fs t :
  Indexer.existsSync fs = true ->
  Spec.html_files fs <> [] ->
  Spec.extracted_records clock fs t <> [] ->
  exists ix t' avg,
    Indexer.generatePostsIndex engine clock Date_parse fs t
    = (Ok (Some ix), t') /\
    Indexer.averageReadTime (Indexer.Index.stats ix) = Some avg /\
    (0 < Indexer.Index.totalPosts ix)%Z /\
    (2 * Indexer.Index.totalPosts ix * avg
     <= 2 * Spec.total_minutes (Indexer.Index.posts ix)
        + Indexer.Index.totalPosts ix
     < 2 * Indexer.Index.totalPosts ix * (avg + 1))%Z /\
    (1 <= avg)%Z.
Proof.
  intros Hex Hfiles Hsome.
  destruct (generatePostsIndex_writes engine clock Date_parse fs t Hex Hfiles)
    as [t1 E].
  eexists. eexists.
  exists (Indexer.round_div
            (Spec.total_minutes
               (sort engine (Indexer.by_date_desc Date_parse)
                     (Spec.extracted_records clock fs t)))
            (Z.of_nat (List.length
               (sort engine (Indexer.by_date_desc Date_parse)
                     (Spec.extracted_records clock fs t))))).
  split; [exact E|].
  cbv zeta.
  cbn [Indexer.Index.stats Indexer.Index.posts Indexer.Index.totalPosts].
  assert (Hall : forall p,
            In p (sort engine (Indexer.by_date_desc Date_parse)
                       (Spec.extracted_records clock fs t)) ->
            parseInt (Indexer.readTime p)
            = Some (Indexer.read_minutes (Indexer.wordCount p)) /\
            (1 <= Indexer.read_minutes (Indexer.wordCount p))%Z).
  { intros p Hp.
    apply (proj1 (sort_In engine (Indexer.by_date_desc Date_parse) _ p))
      in Hp.
    exact (extracted_readTime fs _ t p Hp). }
  pose proof (sort_length engine (Indexer.by_date_desc Date_parse)
                          (Spec.extracted_records clock fs t)) as Hlen.
  pose proof (total_minutes_at_least_length _
                (fun p Hp => proj2 (Hall p Hp))) as Hsum.
  unfold Indexer.compute_stats, Indexer.sum_minutes.
  cbn [Indexer.averageReadTime].
  rewrite sum_minutes_total by (intros p Hp; apply Hall, Hp).
  rewrite Z.add_0_l.
  destruct (sort engine (Indexer.by_date_desc Date_parse)
                 (Spec.extracted_records clock fs t)) as [|a l].
  { destruct (Spec.extracted_records clock fs t);
      [contradiction | discriminate Hlen]. }
  split; [reflexivity|].
  assert (Hpos : (0 < Z.of_nat (List.length (a :: l)))%Z)
    by (cbn [List.length]; lia).
  split; [exact Hpos|].
  split; [apply round_div_nearest, Hpos|].
  unfold Indexer.round_div.
  apply Z.div_le_lower_bound; cbn [List.length] in *; lia.
Qed.

End ReadTime.

Lemma X7_witness_201_words :
  exists r,
    Indexer.extractMetadata Examples.morning Examples.wordy "post.html" 0
    = (Js.Ok r, 2) /\
    Indexer.wordCount r = 201%Z /\
    Indexer.readTime r = "2 min read" /\
    Js.parseInt (Indexer.readTime r) = Some 2%Z.
Proof.
  destruct (X7_readTime_rounds_up_and_parses
              Examples.morning Examples.wordy "post.html" 0
              eq_refl eq_refl) as [r [n [E [H1 [H2 _]]]]].
  exists r. split; [exact E|].
  pose proof (f_equal fst E) as F. vm_compute in F. injection F as <-.
  repeat split; reflexivity.
Defined.

Lemma X8_witness_one_and_two_minutes :
  exists ix avg,
    fst (Indexer.generatePostsIndex Js.V8 Examples.morning
           Examples.Date_parse_iso Examples.long_and_short 0)
    = Js.Ok (Some ix) /\
    map Indexer.readTime (Indexer.Index.posts ix)
    = ["2 min read"; "1 min read"] /\
    Indexer.averageReadTime (Indexer.Index.stats ix) = Some avg /\
    avg = 2%Z.
Proof.
  destruct (X8_average_read_time_is_rounded_mean
              Js.V8 Examples.morning Examples.Date_parse_iso
              Examples.long_and_short 0)
    as [ix [t' [avg [E [H1 [_ [H2 _]]]]]]].
  - reflexivity.
  - vm_compute. discriminate.
  - vm_compute. discriminate.
  - exists ix, avg. split; [now rewrite E|].
    vm_compute in E. injection E as <- _.
    split; [reflexivity|]. split; [exact H1|].
    change (2 * 2 * avg <= 2 * 3 + 2 < 2 * 2 * (avg + 1))%Z in H2. lia.
Defined.

(** *** Trimming *)

Lemma trimEnd_idempotent (s : string) :
  Js.trimEnd (Js.trimEnd s) = Js.trimEnd s.
Proof.
  induction s as [|c s IH]; [reflexivity|].
  cbn [Js.trimEnd].
  destruct (Js.trimEnd s) as [|d t] eqn:E.
  - destruct (Js.is_white c) eqn:W; [reflexivity|].
    cbn [Js.trimEnd]. now rewrite W.
  - change (Js.trimEnd (String c (String d t)))
      with (match Js.trimEnd (String d t) with
            | EmptyString =>
                if Js.is_white c then EmptyString else String c EmptyString
            | String e u => String c (String e u)
            end).
    now rewrite IH.
Qed.

(** Trimming the end keeps a first character that is not white space. *)
Lemma trimEnd_head (c : ascii) (s : string) :
  Js.is_white c = false ->
  exists t, Js.trimEnd (String c s) = String c t.
Proof.
  intros W. cbn [Js.trimEnd].
  destruct (Js.trimEnd s); [rewrite W|]; eauto.
Qed.

Lemma trimStart_head (s : string) :
  Js.trimStart s = EmptyString \/
  exists c t, Js.trimStart s = String c t /\ Js.is_white c = false.
Proof.
  induction s as [|c s IH]; [now left|].
  cbn [Js.trimStart]. destruct (Js.is_white c) eqn:W; [exact IH|].
  right. eauto.
Qed.

(** [trim] is idempotent: a trimmed string has nothing left to trim. *)
Lemma trim_idempotent (s : string) : Js.trim (Js.trim s) = Js.trim s.
Proof.
  unfold Js.trim.
  destruct (trimStart_head s) as [->|[c [t [-> W]]]]; [reflexivity|].
  destruct (trimEnd_head c t W) as [u E]. rewrite E.
  cbn [Js.trimStart]. rewrite W. rewrite <- E. apply trimEnd_idempotent.
Qed.

Lemma trimEnd_no_white (s : string) :
  Spec.no_white s = true -> Js.trimEnd s = s.
Proof.
  induction s as [|c s IH]; [reflexivity|].
  cbn [Spec.no_white Js.trimEnd]. intros H.
  apply andb_prop in H. destruct H as [W N]. rewrite (IH N).
  destruct s; [|reflexivity].
  destruct (Js.is_white c); [discriminate|reflexivity].
Qed.

Lemma trim_no_white (s : string) : Spec.no_white s = true -> Js.trim s = s.
Proof.
  intros H. unfold Js.trim.
  assert (E : Js.trimStart s = s).
  { destruct s as [|c s]; [reflexivity|]. cbn [Spec.no_white] in H.
    apply andb_prop in H. destruct H as [W _]. cbn [Js.trimStart].
    destruct (Js.is_white c); [discriminate|reflexivity]. }
  rewrite E. apply trimEnd_no_white, H.
Qed.

(** *** The category label *)

Lemma single_line_no_terminator (s : string) :
  Spec.single_line s = true -> Indexer.after_first_line_terminator s = None.
Proof.
  induction s as [|c s IH]; [reflexivity|].
  cbn [Spec.single_line Indexer.after_first_line_terminator]. intros H.
  apply andb_prop in H. destruct H as [L S].
  destruct (Js.is_line_terminator c); [discriminate|]. apply IH, S.
Qed.

Lemma after_last_white_spec (s : string) :
  match Indexer.after_last_white s with
  | Some r =>
      Spec.no_white r = true /\
      exists pre w, s = (pre ++ String w r)%string /\ Js.is_white w = true
  | None => Spec.no_white s = true
  end.
Proof.
  induction s as [|c s IH]; [reflexivity|].
  cbn [Indexer.after_last_white].
  destruct (Indexer.after_last_white s) as [r|].
  - destruct IH as [N [pre [w [E W]]]]. split; [exact N|].
    exists (String c pre), w. split; [|exact W]. simpl. now rewrite E.
  - destruct (Js.is_white c) eqn:W.
    + split; [exact IH|]. exists EmptyString, c. split; [reflexivity|exact W].
    + cbn [Spec.no_white]. rewrite W, IH. reflexivity.
Qed.

Section FieldProperties.
Import Js Dom.

Variable clock : nat -> string.

(** X9: without a category meta tag, the category taken from a
    [.post-category] element whose text is a single line is the text
    after its last white-space character: it never contains white space,
    so of a label of several words only the last word is kept. *)
Theorem X9_category_label_keeps_last_word doc filename t el :
  Spec.has_content doc Spec.date_selector = true ->
  Spec.has_content doc Spec.keywords_selector = true ->
  querySelector doc [meta_name "category"] = None ->
  querySelector doc [Sel (ByClass "post-category")] = Some el ->
  Spec.single_line (textContent el) = true ->
  exists r c,
    Indexer.extractMetadata clock doc filename t = (Ok r, S (S t)) /\
    Indexer.category r = Some c /\
    Spec.no_white c = true /\
    (textContent el = c \/
     exists pre w, textContent el = (pre ++ String w c)%string /\
                   is_white w = true).
Proof.
  intros Hd Hk Hmeta Hel Hline.
  destruct (extractMetadata_returns clock doc filename t Hd Hk)
    as [date [tags [_ [_ E]]]].
  eexists. exists (trim (Indexer.replace_through_space (textContent el))).
  split; [exact E|]. cbn [Indexer.category]. split.
  { unfold Indexer.extract_category. now rewrite Hmeta, Hel. }
  unfold Indexer.replace_through_space.
  rewrite (single_line_no_terminator _ Hline).
  pose proof (after_last_white_spec (textContent el)) as S.
  destruct (Indexer.after_last_white (textContent el)) as [r|].
  - destruct S as [N [pre [w [Etext W]]]].
    rewrite (trim_no_white r N). split; [exact N|].
    right. exists pre, w. auto.
  - rewrite (trim_no_white _ S). auto.
Qed.

(** X10: the excerpt of a record is never empty, and without a
    description meta tag it has at most 203 characters. *)
Theorem X10_excerpt_nonempty_and_capped doc filename t :
  Spec.has_content doc Spec.date_selector = true ->
  Spec.has_content doc Spec.keywords_selector = true ->
  exists r,
    Indexer.extractMetadata clock doc filename t = (Ok r, S (S t)) /\
    Indexer.excerpt r <> EmptyString /\
    (querySelector doc Spec.description_selector = None ->
     String.length (Indexer.excerpt r) <= 203).
Proof.
  intros Hd Hk.
  destruct (extractMetadata_returns clock doc filename t Hd Hk)
    as [date [tags [_ [_ E]]]].
  eexists. split; [exact E|]. cbn [Indexer.excerpt]. split.
  - destruct (Indexer.extract_excerpt doc) as [[|c s]|]; discriminate.
  - unfold Indexer.extract_excerpt, Spec.description_selector. intros ->.
    destruct (querySelector doc _) as [firstP|]; [|cbn; lia].
    set (plain := trim (textContent firstP)).
    unfold substring. rewrite Nat.sub_0_r.
    destruct (Nat.ltb 200 (String.length plain)) eqn:L.
    + apply Nat.ltb_lt in L.
      assert (Len : String.length (String.substring 0 200 plain ++ "...")
                    = 203).
      { rewrite string_length_append, length_substring_prefix.
        cbn [String.length]. lia. }
      destruct (String.substring 0 200 plain ++ "...")%string eqn:S1;
        [discriminate|].
      cbn [or_else]. lia.
    + apply Nat.ltb_ge in L.
      destruct plain as [|c rest]; cbn [or_else]; [cbn; lia | lia].
Qed.

(** X11: every tag either builder returns is trimmed: it has no leading
    or trailing white space left. *)
Theorem X11_tags_are_trimmed doc filename t :
  Spec.has_content doc Spec.date_selector = true ->
  Spec.has_content doc Spec.keywords_selector = true ->
  (exists r,
      Indexer.extractMetadata clock doc filename t = (Ok r, S (S t)) /\
      forall tag, In tag (Indexer.tags r) -> trim tag = tag) /\
  (exists tags,
      Script.extractTags doc = Ok tags /\
      forall tag, In tag tags -> trim tag = tag).
Proof.
  intros Hd Hk. split.
  - destruct (extractMetadata_returns clock doc filename t Hd Hk)
      as [date [tags [_ [Etags E]]]].
    eexists. split; [exact E|]. cbn [Indexer.tags].
    unfold Indexer.extract_tags in Etags.
    destruct (querySelector doc [meta_name "keywords"]) as [m|].
    + destruct (getAttribute m "content") as [c|]; [|discriminate].
      injection Etags as <-. intros tag Htag.
      apply filter_In in Htag. destruct Htag as [Htag _].
      apply in_map_iff in Htag. destruct Htag as [x [<- _]].
      apply trim_idempotent.
    + destruct (Nat.ltb 0 _); injection Etags as <-; intros tag Htag.
      * apply in_map_iff in Htag. destruct Htag as [x [<- _]].
        apply trim_idempotent.
      * destruct Htag as [<-|[]]. reflexivity.
  - pose proof (extractTags_ok doc) as Hok. rewrite Hk in Hok.
    destruct (Script.extractTags doc) as [tags|e] eqn:Etags; [|discriminate].
    exists tags. split; [reflexivity|].
    unfold Script.extractTags in Etags.
    destruct (querySelector doc [meta_name "keywords"]) as [m|].
    + destruct (getAttribute m "content") as [c|]; [|discriminate].
      injection Etags as <-. intros tag Htag.
      apply in_map_iff in Htag. destruct Htag as [x [<- _]].
      apply trim_idempotent.
    + destruct (Nat.ltb 0 _); injection Etags as <-; intros tag Htag.
      * apply in_map_iff in Htag. destruct Htag as [x [<- _]].
        apply trim_idempotent.
      * destruct Htag as [<-|[]]. reflexivity.
Qed.

End FieldProperties.

Lemma X9_witness_web_development :
  exists r,
    Indexer.extractMetadata Examples.morning
      (Examples.category_label "Web Development") "post.html" 0
    = (Js.Ok r, 2) /\
    Indexer.category r = Some "Development".
Proof.
  destruct (X9_category_label_keeps_last_word
              Examples.morning (Examples.category_label "Web Development")
              "post.html" 0
              (Dom.Element "a" [("class", "post-category")]
                           [Dom.Text "Web Development"])
              eq_refl eq_refl eq_refl eq_refl eq_refl)
    as [r [c [E [H _]]]].
  exists r. split; [exact E|].
  pose proof (f_equal fst E) as F. vm_compute in F. injection F as <-.
  reflexivity.
Defined.

Lemma X10_witness_long_paragraph :
  exists r,
    Indexer.extractMetadata Examples.morning Examples.long_paragraph
      "post.html" 0 = (Js.Ok r, 2) /\
    Indexer.excerpt r <> EmptyString /\
    String.length (Indexer.excerpt r) <= 203.
Proof.
  destruct (X10_excerpt_nonempty_and_capped
              Examples.morning Examples.long_paragraph "post.html" 0
              eq_refl eq_refl) as [r [E [H1 H2]]].
  exists r. split; [exact E|]. split; [exact H1|]. apply H2. reflexivity.
Defined.

Lemma X11_witness_spaced_keywords :
  exists r,
    Indexer.extractMetadata Examples.morning (Examples.tagged "  A ,B  ")
      "post.html" 0 = (Js.Ok r, 2) /\
    Indexer.tags r = ["A"; "B"] /\
    forall tag, In tag (Indexer.tags r) -> Js.trim tag = tag.
Proof.
  destruct (X11_tags_are_trimmed
              Examples.morning (Examples.tagged "  A ,B  ") "post.html" 0
              eq_refl eq_refl) as [[r [E H]] _].
  exists r. split; [exact E|]. split; [|exact H].
  pose proof (f_equal fst E) as F. vm_compute in F. injection F as <-.
  reflexivity.
Defined.

(* ================================================================== *)
(** ** Further properties of the loader *)
(* ================================================================== *)

Section LoaderExtras.
Import Js Dom.

Variable engine : Js.Engine.
Variable clock : nat -> string.
Variable Date_parse : string -> option Z.
Variable fetch : string -> Result Script.Response.

(** X12: [loadAndParsePost] never throws.  It returns a post exactly
    when the request for [./posts/<slug>.html] is answered with an ok
    status and the document's keywords meta tag, if there is one, has a
    content attribute; otherwise it returns [null].  A returned post
    carries the requested slug, the id [post-<slug>] and the fetched text
    as content. *)
Theorem X12_loadAndParsePost_outcome slug t :
  (exists r t', Script.loadAndParsePost clock fetch slug t = (Ok r, t')) /\
  ((exists p t',
       Script.loadAndParsePost clock fetch slug t = (Ok (Some p), t')) <->
   (exists response,
       fetch ("./posts/" ++ slug ++ ".html")%string = Ok response /\
       Script.ok response = true /\
       Spec.has_content (parsed (Script.text response))
                        Spec.keywords_selector = true)) /\
  (forall p t',
      Script.loadAndParsePost clock fetch slug t = (Ok (Some p), t') ->
      Script.slug p = slug /\
      Script.id p = ("post-" ++ slug)%string /\
      Script.author p = "SilentCoderHub" /\
      exists response,
        fetch ("./posts/" ++ slug ++ ".html")%string = Ok response /\
        Script.content p = html (Script.text response)).
Proof.
  split; [apply loadAndParsePost_returns|].
  unfold Script.loadAndParsePost, try_catch, bind, lift, ret, throw.
  destruct (fetch ("./posts/" ++ slug ++ ".html")%string)
    as [response|e] eqn:F.
  2:{ split.
      - split; [intros [p [t' H]]; discriminate H|].
        intros [r [H _]]. discriminate H.
      - intros p t' H. discriminate H. }
  destruct (Script.ok response) eqn:O; cbn [negb].
  2:{ split.
      - split; [intros [p [t' H]]; discriminate H|].
        intros [r [H [H' _]]]. injection H as <-. congruence.
      - intros p t' H. discriminate H. }
  pose proof (parsePostHTML_is_ok clock (Script.text response) slug t) as Hok.
  rewrite parsePostHTML_cases in *.
  destruct (Script.extractDate clock (parsed (Script.text response)) slug t)
    as [[d|e] t1]; cbn [fst is_ok] in Hok.
  2:{ split.
      - split; [intros [p [t' H]]; discriminate H|].
        intros [r [H [_ H']]]. injection H as <-. congruence.
      - intros p t' H. discriminate H. }
  destruct (Script.extractTags (parsed (Script.text response)))
    as [tags|e]; cbn [fst is_ok] in Hok.
  - split.
    + split; [|eauto]. intros _. exists response. auto.
    + intros p t' [= <- <-]. cbn.
      repeat split. exists response. auto.
  - split.
    + split; [intros [p [t' H]]; discriminate H|].
      intros [r [H [_ H']]]. injection H as <-. congruence.
    + intros p t' H. discriminate H.
Qed.

(** X13: when [posts.json] is served and lists at least one post,
    [loadAllPosts] leaves exactly that list in [allPosts], in the order
    of the file, without reading the clock. *)
Theorem X13_index_posts_used_verbatim t response data l :
  fetch "./posts/posts.json" = Ok response ->
  Script.ok response = true ->
  Script.json response = Ok (Some data) ->
  Script.posts data = Some l ->
  l <> [] ->
  Script.loadAllPosts engine clock Date_parse fetch t = (Ok l, t).
Proof.
  intros F O J P Hl.
  unfold Script.loadAllPosts, Script.fetchPostsFromIndex, try_catch, bind,
    lift, ret.
  rewrite F, O, J, P.
  destruct l; [contradiction|]. reflexivity.
Qed.

End LoaderExtras.

Lemma X13_witness_index_fetch :
  Script.loadAllPosts Js.V8 Examples.morning Examples.Date_parse_iso
    Examples.index_fetch 0
  = (Js.Ok (rev Script.getSamplePosts), 0) /\
  map Script.date (rev Script.getSamplePosts)
  = [Some "2025-09-18"; Some "2025-09-20"; Some "2025-09-23"].
Proof.
  split; [|reflexivity].
  eapply (X13_index_posts_used_verbatim
            Js.V8 Examples.morning Examples.Date_parse_iso
            Examples.index_fetch 0).
  - reflexivity.
  - reflexivity.
  - reflexivity.
  - reflexivity.
  - discriminate.
Defined.

(** *** Read time in the browser *)

Section SplitRuns.

Variable is_sep : ascii -> bool.

Lemma split_runs_nonempty (b : bool) (s : string) :
  Js.split_runs is_sep b s <> [].
Proof.
  revert b. induction s as [|c s IH]; intros b; cbn [Js.split_runs];
    [discriminate|].
  destruct (is_sep c).
  - destruct b; [apply IH | discriminate].
  - destruct (Js.split_runs is_sep false s); discriminate.
Qed.

(** Only the first and the last piece of a split can be empty. *)
Lemma split_runs_empties (s : string) :
  List.length (filter Spec.is_empty (Js.split_runs is_sep true s)) <= 1 /\
  List.length (filter Spec.is_empty (tl (Js.split_runs is_sep false s))) <= 1.
Proof.
  induction s as [|c s [IHt IHf]]; [cbn; lia|].
  cbn [Js.split_runs]. destruct (is_sep c).
  - cbn [tl]. lia.
  - pose proof (split_runs_nonempty false s) as Hne.
    destruct (Js.split_runs is_sep false s) as [|h rest]; [contradiction|].
    cbn [tl filter] in *. change (Spec.is_empty (String c h)) with false.
    cbv iota. lia.
Qed.

Lemma split_runs_counts (s : string) :
  let pieces := Js.split_runs is_sep false s in
  1 <= List.length pieces /\
  List.length (filter (fun w => Nat.ltb 0 (String.length w)) pieces)
  <= List.length pieces /\
  List.length pieces
  <= List.length (filter (fun w => Nat.ltb 0 (String.length w)) pieces) + 2.
Proof.
  cbv zeta.
  pose proof (split_runs_nonempty false s) as Hne.
  destruct (split_runs_empties s) as [_ He].
  pose proof (filter_length (fun w => Nat.ltb 0 (String.length w))
                            (Js.split_runs is_sep false s)) as Hlen.
  unfold Spec.is_empty in He.
  destruct (Js.split_runs is_sep false s) as [|h rest]; [contradiction|].
  cbn [tl] in He. cbn [filter List.length] in *.
  destruct (Nat.ltb 0 (String.length h)); cbn [negb List.length] in *; lia.
Qed.

End SplitRuns.

(** X14: for one document the browser's read time is never less than
    the indexer's and at most one minute more; in particular it is at
    least one minute, also for a document without text. *)
Theorem X14_browser_read_time_near_indexer (doc : Dom.Document) :
  exists n,
    Script.calculateReadTime (Dom.textContent (Dom.body doc))
    = (Js.show_int n ++ " min read")%string /\
    (Indexer.read_minutes (Indexer.count_words doc) <= n
     <= Indexer.read_minutes (Indexer.count_words doc) + 1)%Z.
Proof.
  unfold Script.calculateReadTime. eexists. split; [reflexivity|].
  unfold Indexer.count_words, Indexer.read_minutes,
    Indexer.CONFIG.wordsPerMinute, Js.split_ws.
  destruct (split_runs_counts Js.is_white (Dom.textContent (Dom.body doc)))
    as [H1 [H2 H3]].
  set (W := List.length
              (Js.split_runs Js.is_white false
                 (Dom.textContent (Dom.body doc)))) in *.
  set (w := List.length
              (filter (fun word => Nat.ltb 0 (String.length word))
                 (Js.split_runs Js.is_white false
                    (Dom.textContent (Dom.body doc))))) in *.
  pose proof (ceil_div_bounds (Z.of_nat W) ltac:(lia)).
  pose proof (ceil_div_bounds (Z.of_nat w) ltac:(lia)).
  lia.
Qed.

Lemma X12_witness_known_post :
  exists p t',
    Script.loadAndParsePost Examples.morning Examples.known_post_fetch
      "what-exactly-is-a-computer" 0 = (Js.Ok (Some p), t') /\
    Script.slug p = "what-exactly-is-a-computer" /\
    Script.id p = "post-what-exactly-is-a-computer".
Proof.
  destruct (X12_loadAndParsePost_outcome
              Examples.morning Examples.known_post_fetch
              "what-exactly-is-a-computer" 0) as [_ [Hiff Hfields]].
  destruct (proj2 Hiff) as [p [t' E]].
  - eexists. split; [reflexivity|]. split; reflexivity.
  - exists p, t'. split; [exact E|].
    destruct (Hfields p t' E) as [H1 [H2 _]]. auto.
Defined.

(* ================================================================== *)
(** ** The page: pagination and search *)
(* ================================================================== *)

Section Pagination.
Import Js Dom.

(** What [displayPosts()] shows of a non-empty collection: the posts up
    to the end of the current page. *)
Lemma displayPosts_page (st : Script.Blog) :
  Script.allPosts st <> [] ->
  Script.displayPosts None st =
  Script.mkBlog
    (Script.allPosts st)
    (firstn (Script.currentPage st * 5 + 5) (Script.allPosts st))
    (Script.currentPage st) (Script.isLoading st)
    (Script.searchInput_value st)
    (map Script.article
         (firstn (Script.currentPage st * 5 + 5) (Script.allPosts st)))
    Script.none
    (if Nat.leb (List.length (Script.allPosts st))
                (Script.currentPage st * 5 + 5)
     then Script.none else Script.block)
    (Script.loadMoreBtn_textContent st) (Script.loadMoreBtn_disabled st)
    (Script.pending_timeouts st).
Proof.
  intros Hne. unfold Script.displayPosts.
  change (Z.to_nat Script.BLOG_CONFIG.postsPerPage) with 5.
  cbv zeta. cbn [Script.displayedPosts Script.allPosts].
  rewrite length_firstn.
  destruct (Script.allPosts st) as [|a l] eqn:A; [contradiction|].
  replace (Nat.min (Script.currentPage st * 5 + 5) (List.length (a :: l)))
    with (S (Nat.min (Script.currentPage st * 5 + 4) (List.length l)))
    by (cbn [List.length]; lia).
  cbn [Nat.eqb].
  unfold Script.updateLoadMoreButton, Script.renderPosts,
    Script.hideNoPostsMessage.
  cbn [Script.allPosts Script.displayedPosts Script.currentPage
       Script.isLoading Script.searchInput_value Script.postsContainer
       Script.noPostsDiv_display Script.loadMoreBtn_display
       Script.loadMoreBtn_textContent Script.loadMoreBtn_disabled
       Script.pending_timeouts].
  rewrite length_firstn. f_equal.
  destruct (Nat.leb_spec (List.length (a :: l))
                         (Nat.min (Script.currentPage st * 5 + 5)
                                  (List.length (a :: l))));
    destruct (Nat.leb_spec (List.length (a :: l))
                           (Script.currentPage st * 5 + 5));
    try reflexivity; lia.
Qed.

Lemma displayPosts_keeps_page (st : Script.Blog) :
  Script.currentPage (Script.displayPosts None st) = Script.currentPage st.
Proof.
  destruct (Script.allPosts st) as [|a l] eqn:A.
  - unfold Script.displayPosts. rewrite A, firstn_nil. reflexivity.
  - rewrite displayPosts_page by (rewrite A; discriminate). reflexivity.
Qed.

Lemma loadMorePosts_timeout_page (st : Script.Blog) :
  Script.currentPage (Script.loadMorePosts_timeout st)
  = S (Script.currentPage st).
Proof.
  unfold Script.loadMorePosts_timeout. cbn [Script.currentPage].
  now rewrite displayPosts_keeps_page.
Qed.

(** One click on the load-more button followed by its callback. *)
Lemma load_more_round (st : Script.Blog) :
  Script.allPosts st <> [] ->
  Script.isLoading st = false ->
  let st' := Script.loadMorePosts_timeout (Script.loadMorePosts st) in
  Script.allPosts st' = Script.allPosts st /\
  Script.currentPage st' = S (Script.currentPage st) /\
  Script.isLoading st' = false /\
  Script.displayedPosts st'
  = firstn (5 * (Script.currentPage st + 2)) (Script.allPosts st) /\
  Script.postsContainer st' = map Script.article (Script.displayedPosts st') /\
  Script.noPostsDiv_display st' = Script.none /\
  Script.loadMoreBtn_display st'
  = (if Nat.leb (List.length (Script.allPosts st))
                (5 * (Script.currentPage st + 2))
     then Script.none else Script.block) /\
  Script.pending_timeouts st' = Script.pending_timeouts st.
Proof.
  intros Hne Hload. cbv zeta.
  unfold Script.loadMorePosts. rewrite Hload.
  unfold Script.loadMorePosts_timeout.
  cbn [Script.allPosts Script.displayedPosts Script.currentPage
       Script.isLoading Script.searchInput_value Script.postsContainer
       Script.noPostsDiv_display Script.loadMoreBtn_display
       Script.loadMoreBtn_textContent Script.loadMoreBtn_disabled
       Script.pending_timeouts].
  rewrite displayPosts_page by exact Hne.
  cbn [Script.allPosts Script.displayedPosts Script.currentPage
       Script.isLoading Script.searchInput_value Script.postsContainer
       Script.noPostsDiv_display Script.loadMoreBtn_display
       Script.loadMoreBtn_textContent Script.loadMoreBtn_disabled
       Script.pending_timeouts Nat.pred].
  replace (S (Script.currentPage st) * 5 + 5)
    with (5 * (Script.currentPage st + 2)) by lia.
  repeat split; reflexivity.
Qed.

(** X15: from the first page of a non-empty collection, [k] rounds of
    load-more show the first [5 (k + 1)] posts, as cards in the same
    order; the button stays visible exactly while posts remain, so once
    [5 (k + 1)] reaches the number of posts all of them are shown and the
    button is hidden. *)
Theorem X15_load_more_shows_next_five (st : Script.Blog) (k : nat) :
  Script.allPosts st <> [] ->
  Script.isLoading st = false ->
  Script.currentPage st = 0 ->
  let st' := Spec.load_more_rounds k (Script.displayPosts None st) in
  Script.allPosts st' = Script.allPosts st /\
  Script.currentPage st' = k /\
  Script.isLoading st' = false /\
  Script.displayedPosts st' = firstn (5 * (k + 1)) (Script.allPosts st) /\
  Script.postsContainer st' = map Script.article (Script.displayedPosts st') /\
  Script.noPostsDiv_display st' = Script.none /\
  Script.loadMoreBtn_display st'
  = (if Nat.leb (List.length (Script.allPosts st)) (5 * (k + 1))
     then Script.none else Script.block) /\
  (List.length (Script.allPosts st) <= 5 * (k + 1) ->
   Script.displayedPosts st' = Script.allPosts st).
Proof.
  intros Hne Hload Hpage. cbv zeta.
  assert (Main :
    let st' := Spec.load_more_rounds k (Script.displayPosts None st) in
    Script.allPosts st' = Script.allPosts st /\
    Script.currentPage st' = k /\
    Script.isLoading st' = false /\
    Script.displayedPosts st' = firstn (5 * (k + 1)) (Script.allPosts st) /\
    Script.postsContainer st' = map Script.article (Script.displayedPosts st') /\
    Script.noPostsDiv_display st' = Script.none /\
    Script.loadMoreBtn_display st'
    = (if Nat.leb (List.length (Script.allPosts st)) (5 * (k + 1))
       then Script.none else Script.block)).
  { induction k as [|k IH]; cbv zeta.
    - cbn [Spec.load_more_rounds]. rewrite displayPosts_page by exact Hne.
      rewrite Hpage, Hload.
      cbn [Script.allPosts Script.displayedPosts Script.currentPage
           Script.isLoading Script.postsContainer Script.noPostsDiv_display
           Script.loadMoreBtn_display].
      repeat split; reflexivity.
    - cbv zeta in IH. destruct IH as [HA [HP [HL _]]].
      cbn [Spec.load_more_rounds].
      set (s := Spec.load_more_rounds k (Script.displayPosts None st)) in *.
      assert (Hs : Script.allPosts s <> []) by (rewrite HA; exact Hne).
      destruct (load_more_round s Hs HL)
        as [H1 [H2 [H3 [H4 [H5 [H6 [H7 _]]]]]]].
      rewrite HA, HP in *.
      replace (5 * (S k + 1)) with (5 * (k + 2)) by lia.
      repeat split; assumption. }
  cbv zeta in Main.
  destruct Main as [H1 [H2 [H3 [H4 [H5 [H6 H7]]]]]].
  repeat split; try assumption.
  intros Hall. rewrite H4. apply firstn_all2, Hall.
Qed.

(** X16: clicks on the load-more button while a load is pending do
    nothing: however many clicks follow the first, one callback is
    scheduled, and when it runs the page advances by one. *)
Theorem X16_load_more_ignores_clicks_while_loading
        (st : Script.Blog) (k : nat) :
  Script.isLoading st = false ->
  Nat.iter (S k) Script.loadMorePosts st = Script.loadMorePosts st /\
  Script.pending_timeouts (Nat.iter (S k) Script.loadMorePosts st)
  = S (Script.pending_timeouts st) /\
  Script.currentPage
    (Script.loadMorePosts_timeout (Nat.iter (S k) Script.loadMorePosts st))
  = S (Script.currentPage st).
Proof.
  intros Hload.
  assert (E : Nat.iter (S k) Script.loadMorePosts st
              = Script.loadMorePosts st).
  { induction k as [|k IH]; [reflexivity|].
    change (Nat.iter (S (S k)) Script.loadMorePosts st)
      with (Script.loadMorePosts (Nat.iter (S k) Script.loadMorePosts st)).
    rewrite IH. unfold Script.loadMorePosts at 1.
    unfold Script.loadMorePosts. rewrite Hload. reflexivity. }
  rewrite E. split; [reflexivity|].
  rewrite loadMorePosts_timeout_page.
  unfold Script.loadMorePosts. rewrite Hload.
  split; reflexivity.
Qed.

End Pagination.

Lemma X15_witness_twelve_posts :
  let st := Spec.load_more_rounds 1
              (Script.displayPosts None
                 (Examples.blog_of Examples.twelve_posts)) in
  let st' := Spec.load_more_rounds 2
               (Script.displayPosts None
                  (Examples.blog_of Examples.twelve_posts)) in
  map Script.title (Script.displayedPosts st)
  = ["a"; "b"; "c"; "d"; "e"; "f"; "g"; "h"; "i"; "j"] /\
  Script.loadMoreBtn_display st = Script.block /\
  Script.displayedPosts st' = Examples.twelve_posts /\
  Script.loadMoreBtn_display st' = Script.none.
Proof.
  cbv zeta.
  destruct (X15_load_more_shows_next_five
              (Examples.blog_of Examples.twelve_posts) 1)
    as [_ [_ [_ [H1 [_ [_ [H2 _]]]]]]];
    [discriminate | reflexivity | reflexivity |].
  destruct (X15_load_more_shows_next_five
              (Examples.blog_of Examples.twelve_posts) 2)
    as [_ [_ [_ [_ [_ [_ [H3 H4]]]]]]];
    [discriminate | reflexivity | reflexivity |].
  split; [rewrite H1; reflexivity|]. split; [rewrite H2; reflexivity|].
  split; [apply H4; cbn; lia | rewrite H3; reflexivity].
Defined.

Lemma X16_witness_three_clicks :
  Nat.iter 3 Script.loadMorePosts (Examples.blog_of Examples.twelve_posts)
  = Script.loadMorePosts (Examples.blog_of Examples.twelve_posts) /\
  Script.pending_timeouts
    (Nat.iter 3 Script.loadMorePosts (Examples.blog_of Examples.twelve_posts))
  = 1.
Proof.
  destruct (X16_load_more_ignores_clicks_while_loading
              (Examples.blog_of Examples.twelve_posts) 2 eq_refl)
    as [H1 [H2 _]].
  split; [exact H1 | exact H2].
Defined.

(** *** Searching *)

Lemma prefix_spec (t s : string) :
  String.prefix t s = true <-> exists post, s = (t ++ post)%string.
Proof.
  revert s. induction t as [|c t IH]; intros s.
  - split; [intros _; exists s; reflexivity|]. intros _. destruct s; reflexivity.
  - destruct s as [|d s]; cbn [String.prefix].
    + split; [discriminate|]. intros [post H]. discriminate H.
    + destruct (Ascii.ascii_dec c d) as [->|Hcd].
      * rewrite IH. split; intros [post H]; exists post.
        -- simpl. now rewrite H.
        -- simpl in H. now injection H.
      * split; [discriminate|]. intros [post H]. simpl in H.
        injection H as H _. congruence.
Qed.

(** [str_includes] decides occurrence. *)
Lemma str_includes_spec (s t : string) :
  Js.str_includes s t = true <-> Spec.occurs_in t s.
Proof.
  unfold Spec.occurs_in. induction s as [|c s IH]; cbn [Js.str_includes].
  - destruct (String.prefix t "") eqn:P.
    + split; [intros _|reflexivity].
      apply prefix_spec in P. destruct P as [post P].
      exists EmptyString, post. exact P.
    + split; [discriminate|]. intros [pre [post H]].
      destruct pre; [|discriminate H]. simpl in H.
      assert (String.prefix t "" = true)
        by (apply prefix_spec; exists post; exact H).
      congruence.
  - destruct (String.prefix t (String c s)) eqn:P.
    + split; [intros _|reflexivity].
      apply prefix_spec in P. destruct P as [post P].
      exists EmptyString, post. exact P.
    + rewrite IH. split.
      * intros [pre [post H]]. exists (String c pre), post.
        simpl. now rewrite H.
      * intros [pre [post H]]. destruct pre as [|d pre].
        -- simpl in H.
           assert (String.prefix t (String c s) = true)
             by (apply prefix_spec; exists post; exact H).
           congruence.
        -- simpl in H. injection H as _ H. exists pre, post. exact H.
Qed.

Lemma str_includes_false (s t : string) :
  Js.str_includes s t = false <-> ~ Spec.occurs_in t s.
Proof.
  rewrite <- str_includes_spec.
  destruct (Js.str_includes s t); split; congruence.
Qed.

(** The three outcomes of the search callback. *)
Lemma matches_search_throws (term : string) (p : Script.Post) :
  (exists e, Script.matches_search term p = Js.Throw e)
  <-> Spec.reaches_null term p.
Proof.
  unfold Script.matches_search, Spec.reaches_null.
  destruct (Js.str_includes (Js.toLowerCase (Script.title p)) term) eqn:T.
  - apply str_includes_spec in T. split.
    + intros [e H]. discriminate H.
    + intros [H _]. contradiction.
  - apply str_includes_false in T.
    destruct (Script.excerpt p) as [e|].
    + destruct (Js.str_includes (Js.toLowerCase e) term) eqn:E.
      * apply str_includes_spec in E. split.
        -- intros [x H]. discriminate H.
        -- intros [_ [H|[e' [H1 [H2 _]]]]]; [discriminate H|].
           injection H1 as <-. contradiction.
      * apply str_includes_false in E.
        destruct (Script.category p) as [c|].
        -- split.
           ++ intros [x H]. destruct (Js.str_includes _ term); discriminate H.
           ++ intros [_ [H|[e' [_ [_ H]]]]]; discriminate H.
        -- split; [|eauto]. intros _. split; [exact T|].
           right. exists e. auto.
    + split; [|eauto]. intros _. split; [exact T|]. now left.
Qed.

Lemma matches_search_only_TypeError (term : string) (p : Script.Post) e :
  Script.matches_search term p = Js.Throw e -> e = Js.TypeError.
Proof.
  unfold Script.matches_search.
  destruct (Js.str_includes _ term); [discriminate|].
  destruct (Script.excerpt p); [|congruence].
  destruct (Js.str_includes _ term); [discriminate|].
  destruct (Script.category p); [|congruence].
  destruct (Js.str_includes _ term); discriminate.
Qed.

Lemma existsb_includes_spec (term : string) (tags : list string) :
  existsb (fun tag => Js.str_includes (Js.toLowerCase tag) term) tags = true
  <-> exists tag, In tag tags /\ Spec.occurs_in term (Js.toLowerCase tag).
Proof.
  rewrite existsb_exists. split; intros [tag [H1 H2]]; exists tag;
    (split; [exact H1|]); now apply str_includes_spec.
Qed.

Lemma matches_search_true (term : string) (p : Script.Post) :
  Script.matches_search term p = Js.Ok true ->
  Spec.matches_term term p.
Proof.
  unfold Script.matches_search, Spec.matches_term.
  destruct (Js.str_includes (Js.toLowerCase (Script.title p)) term) eqn:T.
  { apply str_includes_spec in T. auto. }
  destruct (Script.excerpt p) as [e|]; [|discriminate].
  destruct (Js.str_includes (Js.toLowerCase e) term) eqn:E.
  { apply str_includes_spec in E. right. left. eauto. }
  destruct (Script.category p) as [c|]; [|discriminate].
  destruct (Js.str_includes (Js.toLowerCase c) term) eqn:C.
  { apply str_includes_spec in C. right. right. left. eauto. }
  intros [= H]. apply existsb_includes_spec in H. auto.
Qed.

Lemma matches_search_false (term : string) (p : Script.Post) :
  Script.matches_search term p = Js.Ok false ->
  ~ Spec.matches_term term p.
Proof.
  unfold Script.matches_search, Spec.matches_term.
  destruct (Js.str_includes (Js.toLowerCase (Script.title p)) term) eqn:T;
    [discriminate|]. apply str_includes_false in T.
  destruct (Script.excerpt p) as [e|]; [|discriminate].
  destruct (Js.str_includes (Js.toLowerCase e) term) eqn:E;
    [discriminate|]. apply str_includes_false in E.
  destruct (Script.category p) as [c|]; [|discriminate].
  destruct (Js.str_includes (Js.toLowerCase c) term) eqn:C;
    [discriminate|]. apply str_includes_false in C.
  intros [= H] [M|[[e' [H1 M]]|[[c' [H1 M]]|M]]].
  - contradiction.
  - injection H1 as <-. contradiction.
  - injection H1 as <-. contradiction.
  - apply existsb_includes_spec in M. congruence.
Qed.

(** A filter whose callback throws on no element is the plain filter;
    one whose callback throws on some element throws. *)
Lemma filter_result_ok {A} (f : A -> Js.Result bool) (l : list A) :
  (forall x, In x l -> exists b, f x = Js.Ok b) ->
  Js.filter_result f l
  = Js.Ok (filter (fun x => match f x with
                            | Js.Ok b => b
                            | Js.Throw _ => false
                            end) l).
Proof.
  induction l as [|x l IH]; intros H; [reflexivity|].
  cbn [Js.filter_result filter].
  destruct (H x (or_introl eq_refl)) as [b ->].
  rewrite IH by (intros y Hy; apply H; now right).
  destruct b; reflexivity.
Qed.

Lemma filter_result_throws {A} (f : A -> Js.Result bool) (l : list A) :
  (exists e, Js.filter_result f l = Js.Throw e)
  <-> exists x e, In x l /\ f x = Js.Throw e.
Proof.
  induction l as [|x l IH]; cbn [Js.filter_result].
  - split; [intros [e H]; discriminate H | intros [x [e [[] _]]]].
  - destruct (f x) as [b|e] eqn:F.
    + destruct (Js.filter_result f l) as [rest|e'] eqn:R.
      * split; [intros [e H]; discriminate H|].
        intros [y [e [[<-|Hy] Hf]]]; [congruence|].
        destruct (proj2 IH) as [e' H']; [eauto | discriminate H'].
      * split; [|eauto]. intros _.
        destruct (proj1 IH) as [y [e [Hy Hf]]]; [eauto|].
        exists y, e. split; [now right | exact Hf].
    + split; [|eauto]. intros _. exists x, e. split; [now left | exact F].
Qed.

Lemma filter_result_exception {A} (f : A -> Js.Result bool) (l : list A) e :
  Js.filter_result f l = Js.Throw e ->
  exists x, In x l /\ f x = Js.Throw e.
Proof.
  induction l as [|x l IH]; cbn [Js.filter_result]; [discriminate|].
  destruct (f x) as [b|e'] eqn:F.
  - destruct (Js.filter_result f l) as [rest|e''] eqn:R; [discriminate|].
    intros [= ->]. destruct (IH eq_refl) as [y [Hy Hf]].
    exists y. split; [now right | exact Hf].
  - intros [= ->]. exists x. split; [now left | exact F].
Qed.

(** What [displayPosts(posts)] shows of a filtered list. *)
Lemma displayPosts_filtered (l : list Script.Post) (st : Script.Blog) :
  let st' := Script.displayPosts (Some l) st in
  Script.allPosts st' = Script.allPosts st /\
  Script.displayedPosts st' = l /\
  Script.currentPage st' = 0 /\
  Script.loadMoreBtn_display st' = Script.none /\
  (l <> [] ->
   Script.postsContainer st' = map Script.article l /\
   Script.noPostsDiv_display st' = Script.none) /\
  (l = [] ->
   Script.postsContainer st' = Script.postsContainer st /\
   Script.noPostsDiv_display st' = Script.block).
Proof.
  cbv zeta. unfold Script.displayPosts. cbv zeta.
  cbn [Script.displayedPosts].
  destruct l as [|a l].
  - cbn [List.length Nat.eqb]. unfold Script.showNoPostsMessage.
    cbn [Script.allPosts Script.displayedPosts Script.currentPage
         Script.postsContainer Script.noPostsDiv_display
         Script.loadMoreBtn_display].
    do 4 (split; [reflexivity|]).
    split; [intros H; contradiction | intros _; split; reflexivity].
  - cbn [List.length Nat.eqb].
    unfold Script.updateLoadMoreButton, Script.renderPosts,
      Script.hideNoPostsMessage.
    cbn [Script.allPosts Script.displayedPosts Script.currentPage
         Script.postsContainer Script.noPostsDiv_display
         Script.loadMoreBtn_display].
    rewrite Nat.leb_refl.
    do 4 (split; [reflexivity|]).
    split; [intros _; split; reflexivity | intros H; discriminate H].
Qed.

Section Search.
Import Js Dom.

(** X17: a search for a term that is not blank, over posts whose excerpt
    and category are not [null], shows exactly the posts in which the
    lower-cased, trimmed term occurs in the lower-cased title, excerpt,
    category or a tag, in the order of the collection, all at once:
    the page is reset to 0 and the load-more button is hidden. *)
Theorem X17_search_shows_the_matching_posts
        (st : Script.Blog) (value : string) :
  trim (toLowerCase value) <> EmptyString ->
  (forall p, In p (Script.allPosts st) ->
             Script.excerpt p <> None /\ Script.category p <> None) ->
  exists st' f,
    Script.search_input value st = Ok st' /\
    Script.displayedPosts st' = filter f (Script.allPosts st) /\
    (forall p, In p (Script.allPosts st) ->
       (f p = true <-> Spec.matches_term (trim (toLowerCase value)) p)) /\
    Script.allPosts st' = Script.allPosts st /\
    Script.currentPage st' = 0 /\
    Script.loadMoreBtn_display st' = Script.none /\
    (Script.displayedPosts st' <> [] ->
     Script.postsContainer st'
     = map Script.article (Script.displayedPosts st') /\
     Script.noPostsDiv_display st' = Script.none).
Proof.
  intros Hterm Hnull.
  set (term := trim (toLowerCase value)) in *.
  assert (Hok : forall p, In p (Script.allPosts st) ->
                  exists b, Script.matches_search term p = Ok b).
  { intros p Hp. destruct (Script.matches_search term p) as [b|e] eqn:M;
      [eauto|].
    exfalso. destruct (proj1 (matches_search_throws term p)) as [_ H];
      [eauto|].
    destruct (Hnull p Hp) as [He Hc].
    destruct H as [H|[e' [_ [_ H]]]]; contradiction. }
  unfold Script.search_input, Script.handleSearch.
  cbn [Script.searchInput_value Script.allPosts]. fold term.
  destruct (String.eqb_spec term ""); [contradiction|].
  rewrite (filter_result_ok _ _ Hok).
  set (f := fun p => match Script.matches_search term p with
                     | Ok b => b
                     | Throw _ => false
                     end).
  eexists. exists f. split; [reflexivity|].
  match goal with
  | |- context [Script.displayPosts (Some ?l) ?s] =>
      destruct (displayPosts_filtered l s) as [H1 [H2 [H3 [H4 [H5 _]]]]]
  end.
  cbv zeta in *. cbn [Script.allPosts] in *.
  split; [exact H2|]. split.
  - intros p Hp. unfold f. destruct (Hok p Hp) as [b M]. rewrite M.
    destruct b.
    + split; [intros _; now apply matches_search_true | reflexivity].
    + split; [discriminate|]. intros Hm.
      exfalso. now apply (matches_search_false term p M).
  - split; [exact H1|]. split; [exact H3|]. split; [exact H4|].
    rewrite H2. exact H5.
Qed.

(** X18: a search that no post matches shows the no-posts message and
    hides the load-more button, but leaves the cards that were in the
    container where they are. *)
Theorem X18_search_without_match_keeps_old_cards
        (st : Script.Blog) (value : string) :
  trim (toLowerCase value) <> EmptyString ->
  (forall p, In p (Script.allPosts st) ->
             Script.excerpt p <> None /\ Script.category p <> None) ->
  (forall p, In p (Script.allPosts st) ->
             ~ Spec.matches_term (trim (toLowerCase value)) p) ->
  exists st',
    Script.search_input value st = Ok st' /\
    Script.displayedPosts st' = [] /\
    Script.postsContainer st' = Script.postsContainer st /\
    Script.noPostsDiv_display st' = Script.block /\
    Script.loadMoreBtn_display st' = Script.none.
Proof.
  intros Hterm Hnull Hnone.
  set (term := trim (toLowerCase value)) in *.
  assert (Hok : forall p, In p (Script.allPosts st) ->
                  Script.matches_search term p = Ok false).
  { intros p Hp. destruct (Script.matches_search term p) as [[|]|e] eqn:M.
    - exfalso. apply (Hnone p Hp). now apply matches_search_true.
    - reflexivity.
    - exfalso. destruct (proj1 (matches_search_throws term p)) as [_ H];
        [eauto|].
      destruct (Hnull p Hp) as [He Hc].
      destruct H as [H|[e' [_ [_ H]]]]; contradiction. }
  unfold Script.search_input, Script.handleSearch.
  cbn [Script.searchInput_value Script.allPosts]. fold term.
  destruct (String.eqb_spec term ""); [contradiction|].
  rewrite filter_result_ok by (intros p Hp; rewrite (Hok p Hp); eauto).
  assert (E : filter (fun p => match Script.matches_search term p with
                               | Ok b => b
                               | Throw _ => false
                               end) (Script.allPosts st) = []).
  { induction (Script.allPosts st) as [|p l IH]; [reflexivity|].
    cbn [filter]. rewrite (Hok p (or_introl eq_refl)).
    apply IH; intros q Hq; [apply Hnull | apply Hnone | apply Hok];
      now right. }
  rewrite E. eexists. split; [reflexivity|].
  match goal with
  | |- context [Script.displayPosts (Some []) ?s] =>
      destruct (displayPosts_filtered [] s) as [_ [H2 [_ [H4 [_ H6]]]]]
  end.
  cbv zeta in *. destruct (H6 eq_refl) as [H7 H8].
  cbn [Script.postsContainer] in H7. auto.
Qed.

(** X19: a search for a term that is not blank throws exactly when the
    callback reaches a [null] excerpt or category of some post, and then
    it throws a TypeError. *)
Theorem X19_search_throws_on_null_fields
        (st : Script.Blog) (value : string) :
  trim (toLowerCase value) <> EmptyString ->
  ((exists e, Script.search_input value st = Throw e) <->
   (exists p, In p (Script.allPosts st) /\
              Spec.reaches_null (trim (toLowerCase value)) p)) /\
  (forall e, Script.search_input value st = Throw e -> e = TypeError).
Proof.
  intros Hterm. set (term := trim (toLowerCase value)) in *.
  unfold Script.search_input, Script.handleSearch.
  cbn [Script.searchInput_value Script.allPosts]. fold term.
  destruct (String.eqb_spec term ""); [contradiction|].
  split.
  - split.
    + intros [e H].
      destruct (Js.filter_result (Script.matches_search term)
                                 (Script.allPosts st)) as [l|e'] eqn:F;
        [discriminate H|].
      apply filter_result_exception in F. destruct F as [p [Hp Hf]].
      exists p. split; [exact Hp|]. apply matches_search_throws. eauto.
    + intros [p [Hp Hr]]. apply matches_search_throws in Hr.
      destruct Hr as [e He].
      destruct (proj2 (filter_result_throws (Script.matches_search term)
                                            (Script.allPosts st)))
        as [e' ->]; eauto.
  - intros e H.
    destruct (Js.filter_result (Script.matches_search term)
                               (Script.allPosts st)) as [l|e'] eqn:F;
      [discriminate H|].
    injection H as <-.
    apply filter_result_exception in F. destruct F as [p [_ Hf]].
    now apply matches_search_only_TypeError in Hf.
Qed.

End Search.

Lemma X17_witness_case_insensitive :
  exists st',
    Script.search_input "  ROCQ " (Examples.blog_of Examples.searchable_posts)
    = Js.Ok st' /\
    map Script.title (Script.displayedPosts st') = ["Rocq"; "JS"].
Proof.
  destruct (X17_search_shows_the_matching_posts
              (Examples.blog_of Examples.searchable_posts) "  ROCQ ")
    as [st' [f [E _]]].
  - vm_compute. discriminate.
  - intros p Hp. cbn in Hp.
    destruct Hp as [<-|[<-|[<-|[]]]]; split; discriminate.
  - exists st'. split; [exact E|].
    vm_compute in E. injection E as <-. reflexivity.
Defined.

Lemma X18_witness_no_match :
  exists st',
    Script.search_input "zzz"
      (Script.displayPosts None (Examples.blog_of Examples.searchable_posts))
    = Js.Ok st' /\
    Script.noPostsDiv_display st' = Script.block /\
    Script.postsContainer st'
    = map Script.article Examples.searchable_posts.
Proof.
  destruct (X18_search_without_match_keeps_old_cards
              (Script.displayPosts None
                 (Examples.blog_of Examples.searchable_posts)) "zzz")
    as [st' [E [_ [H1 [H2 _]]]]].
  - vm_compute. discriminate.
  - intros p Hp. cbn in Hp.
    destruct Hp as [<-|[<-|[<-|[]]]]; split; discriminate.
  - intros p Hp. cbn in Hp.
    destruct Hp as [<-|[<-|[<-|[]]]];
      apply matches_search_false; reflexivity.
  - exists st'. split; [exact E|]. split; [exact H2|].
    rewrite H1. reflexivity.
Defined.

Lemma X19_witness_null_excerpt :
  Script.search_input "zzz" (Examples.blog_of [Examples.post_without_excerpt])
  = Js.Throw Js.TypeError.
Proof.
  destruct (X19_search_throws_on_null_fields
              (Examples.blog_of [Examples.post_without_excerpt]) "zzz")
    as [Hiff Honly].
  - vm_compute. discriminate.
  - destruct (proj2 Hiff) as [e E].
    + exists Examples.post_without_excerpt. split; [now left|].
      split; [|now left]. apply str_includes_false. reflexivity.
    + rewrite E. f_equal. exact (Honly e E).
Defined.

(** *** Clicking a tag or a category *)

Lemma occurs_in_refl (s : string) : Spec.occurs_in s s.
Proof.
  exists EmptyString, EmptyString. simpl.
  induction s as [|c s IH]; simpl; [reflexivity | now rewrite <- IH].
Qed.

Lemma string_append_assoc (a b c : string) :
  ((a ++ b) ++ c = a ++ (b ++ c))%string.
Proof. induction a as [|x a IH]; simpl; [reflexivity | now rewrite IH]. Qed.

Lemma occurs_in_trans (a b c : string) :
  Spec.occurs_in a b -> Spec.occurs_in b c -> Spec.occurs_in a c.
Proof.
  intros [p1 [q1 ->]] [p2 [q2 ->]].
  exists (p2 ++ p1)%string, (q1 ++ q2)%string.
  now rewrite !string_append_assoc.
Qed.

Lemma toLowerCase_append (a b : string) :
  Js.toLowerCase (a ++ b) = (Js.toLowerCase a ++ Js.toLowerCase b)%string.
Proof. induction a as [|x a IH]; simpl; [reflexivity | now rewrite IH]. Qed.

Lemma occurs_in_lower (a b : string) :
  Spec.occurs_in a b ->
  Spec.occurs_in (Js.toLowerCase a) (Js.toLowerCase b).
Proof.
  intros [p [q ->]]. exists (Js.toLowerCase p), (Js.toLowerCase q).
  now rewrite !toLowerCase_append.
Qed.

Lemma trimStart_suffix (s : string) :
  exists pre, s = (pre ++ Js.trimStart s)%string.
Proof.
  induction s as [|c s [pre IH]]; [exists EmptyString; reflexivity|].
  cbn [Js.trimStart]. destruct (Js.is_white c).
  - exists (String c pre). simpl. now rewrite <- IH.
  - exists EmptyString. reflexivity.
Qed.

Lemma trimEnd_prefix (s : string) :
  exists post, s = (Js.trimEnd s ++ post)%string.
Proof.
  induction s as [|c s [post IH]]; [exists EmptyString; reflexivity|].
  cbn [Js.trimEnd]. destruct (Js.trimEnd s) as [|d t] eqn:E.
  - destruct (Js.is_white c).
    + exists (String c s). reflexivity.
    + exists s. simpl. simpl in IH. reflexivity.
  - exists post. simpl. simpl in IH. now rewrite <- IH.
Qed.

Lemma trim_occurs (s : string) : Spec.occurs_in (Js.trim s) s.
Proof.
  unfold Js.trim. destruct (trimStart_suffix s) as [pre Hs].
  destruct (trimEnd_prefix (Js.trimStart s)) as [post He].
  exists pre, post. rewrite <- He. exact Hs.
Qed.

Lemma strip_trailing_digits_prefix (s : string) :
  exists digits,
    s = (Js.strip_trailing_digits s ++ digits)%string /\
    Js.all_digits digits = true.
Proof.
  induction s as [|c s [digits [IH D]]]; [exists EmptyString; auto|].
  cbn [Js.strip_trailing_digits].
  destruct (Js.all_digits (String c s)) eqn:A.
  - exists (String c s). auto.
  - exists digits. split; [|exact D]. simpl. now rewrite <- IH.
Qed.

Lemma filterTerm_occurs (text : string) :
  Spec.occurs_in (Script.filterTerm text) text.
Proof.
  unfold Script.filterTerm.
  eapply occurs_in_trans; [apply trim_occurs|].
  eapply occurs_in_trans; [|apply trim_occurs].
  destruct (strip_trailing_digits_prefix (Js.trim text)) as [digits [E _]].
  exists EmptyString, digits. simpl. exact E.
Qed.

Lemma filter_result_inv {A} (f : A -> Js.Result bool) (l r : list A) :
  Js.filter_result f l = Js.Ok r ->
  forall x, In x l -> (f x = Js.Ok true /\ In x r) \/ f x = Js.Ok false.
Proof.
  revert r. induction l as [|y l IH]; intros r H x Hx; [contradiction|].
  cbn [Js.filter_result] in H.
  destruct (f y) as [b|e] eqn:F; [|discriminate].
  destruct (Js.filter_result f l) as [rest|e] eqn:R; [|discriminate].
  injection H as <-. destruct Hx as [<-|Hx].
  - destruct b; [left; split; [exact F | now left] | now right].
  - destruct (IH rest eq_refl x Hx) as [[H1 H2]|H1]; [left|now right].
    split; [exact H1|]. destruct b; [now right | exact H2].
Qed.

Lemma digit_not_white (c : ascii) :
  Js.is_digit c = true -> Js.is_white c = false.
Proof.
  destruct c as [[|] [|] [|] [|] [|] [|] [|] [|]]; vm_compute; congruence.
Qed.

Lemma all_digits_no_white (s : string) :
  Js.all_digits s = true -> Spec.no_white s = true.
Proof.
  induction s as [|c s IH]; [reflexivity|].
  cbn [Js.all_digits Spec.no_white]. intros H.
  apply andb_prop in H. destruct H as [D A].
  now rewrite (digit_not_white c D), (IH A).
Qed.

Lemma all_digits_strip (s : string) :
  Js.all_digits s = true -> Js.strip_trailing_digits s = EmptyString.
Proof.
  destruct s as [|c s]; [reflexivity|].
  cbn [Js.strip_trailing_digits]. now intros ->.
Qed.

Lemma trimStart_length (s : string) :
  String.length (Js.trimStart s) <= String.length s.
Proof.
  induction s as [|c s IH]; [reflexivity|].
  cbn [Js.trimStart]. destruct (Js.is_white c); simpl; lia.
Qed.

Lemma trimEnd_length (s : string) :
  String.length (Js.trimEnd s) <= String.length s.
Proof.
  induction s as [|c s IH]; [reflexivity|].
  cbn [Js.trimEnd]. destruct (Js.trimEnd s); [destruct (Js.is_white c)|];
    simpl in *; lia.
Qed.

(** A non-empty string that [trim] leaves alone starts with a character
    that is not white space, and so stays as it is when text without
    white space is appended. *)
Lemma trimEnd_append_no_white (s d : string) :
  Js.trimEnd s = s -> s <> EmptyString -> Spec.no_white d = true ->
  Js.trimEnd (s ++ d) = (s ++ d)%string.
Proof.
  induction s as [|c s IH]; intros Hs Hne Hd; [contradiction|].
  destruct s as [|c' s'].
  - cbn [String.append Js.trimEnd] in *.
    rewrite (trimEnd_no_white d Hd).
    destruct d; [exact Hs | reflexivity].
  - assert (Hs' : Js.trimEnd (String c' s') = String c' s').
    { cbn [Js.trimEnd] in Hs.
      change (match Js.trimEnd s' with
              | EmptyString =>
                  if Js.is_white c' then EmptyString
                  else String c' EmptyString
              | String a t => String c' (String a t)
              end) with (Js.trimEnd (String c' s')) in Hs.
      destruct (Js.trimEnd (String c' s')) as [|e u].
      - destruct (Js.is_white c); discriminate Hs.
      - congruence. }
    specialize (IH Hs' ltac:(discriminate) Hd).
    change (Js.trimEnd (String c (String c' s') ++ d))
      with (match Js.trimEnd (String c' s' ++ d) with
            | EmptyString =>
                if Js.is_white c then EmptyString else String c EmptyString
            | String a t => String c (String a t)
            end).
    rewrite IH. reflexivity.
Qed.

Lemma trim_append_no_white (s d : string) :
  Js.trim s = s -> s <> EmptyString -> Spec.no_white d = true ->
  Js.trim (s ++ d) = (s ++ d)%string.
Proof.
  intros Hs Hne Hd. unfold Js.trim in *.
  destruct s as [|c s]; [contradiction|].
  destruct (Js.is_white c) eqn:W.
  - exfalso. cbn [Js.trimStart] in Hs. rewrite W in Hs.
    pose proof (trimEnd_length (Js.trimStart s)).
    pose proof (trimStart_length s).
    rewrite Hs in H. simpl in H. lia.
  - cbn [Js.trimStart String.append] in *. rewrite W in *.
    change (String c (s ++ d)) with (String c s ++ d)%string.
    apply trimEnd_append_no_white; auto.
Qed.

Lemma not_all_digits_append (s d : string) :
  s <> EmptyString -> Spec.ends_with_digit s = false ->
  Js.all_digits (s ++ d) = false.
Proof.
  induction s as [|c s IH]; intros Hne He; [contradiction|].
  cbn [String.append Js.all_digits].
  destruct s as [|c' s'].
  - cbn [Spec.ends_with_digit] in He. now rewrite He.
  - rewrite IH; [apply andb_false_r | discriminate | exact He].
Qed.

Lemma strip_trailing_digits_append (s d : string) :
  s <> EmptyString -> Spec.ends_with_digit s = false ->
  Js.all_digits d = true ->
  Js.strip_trailing_digits (s ++ d) = s.
Proof.
  induction s as [|c s IH]; intros Hne He Hd; [contradiction|].
  pose proof (not_all_digits_append (String c s) d Hne He) as N.
  cbn [String.append] in N |- *. cbn [Js.strip_trailing_digits].
  rewrite N. f_equal.
  destruct s as [|c' s'].
  - cbn [String.append]. apply all_digits_strip, Hd.
  - apply IH; [discriminate | exact He | exact Hd].
Qed.

Section FilterClick.
Import Js Dom.

(** X20: the term searched after a click on a tag or category element
    drops a final run of digits: for a trimmed name that does not end in
    a digit, followed by digits, the term is the name alone. *)
Theorem X20_filter_term_drops_final_digits (name digits : string) :
  name <> EmptyString ->
  trim name = name ->
  Spec.ends_with_digit name = false ->
  all_digits digits = true ->
  Script.filterTerm (name ++ digits) = name.
Proof.
  intros Hne Htrim Hend Hdigits. unfold Script.filterTerm.
  rewrite (trim_append_no_white name digits Htrim Hne
             (all_digits_no_white digits Hdigits)).
  rewrite (strip_trailing_digits_append name digits Hne Hend Hdigits).
  exact Htrim.
Qed.

(** X21: when the click's search term is not blank and the search does
    not throw, every post that carries the clicked tag is among the
    posts displayed. *)
Theorem X21_click_on_tag_shows_its_posts
        (st st' : Script.Blog) (tag : string) :
  trim (toLowerCase (Script.filterTerm tag)) <> EmptyString ->
  Script.filter_click tag st = Ok st' ->
  forall p, In p (Script.allPosts st) -> In tag (Script.tags p) ->
            In p (Script.displayedPosts st').
Proof.
  intros Hterm Hclick p Hp Htag.
  set (term := trim (toLowerCase (Script.filterTerm tag))) in *.
  unfold Script.filter_click, Script.search_input, Script.handleSearch
    in Hclick.
  cbn [Script.searchInput_value Script.allPosts] in Hclick.
  fold term in Hclick.
  destruct (String.eqb_spec term ""); [contradiction|].
  destruct (filter_result (Script.matches_search term) (Script.allPosts st))
    as [l|e] eqn:F; [|discriminate].
  injection Hclick as <-.
  match goal with
  | |- context [Script.displayPosts (Some ?l) ?s] =>
      destruct (displayPosts_filtered l s) as [_ [H2 _]]
  end.
  cbv zeta in H2. rewrite H2.
  destruct (filter_result_inv _ _ _ F p Hp) as [[_ Hin]|Hfalse];
    [exact Hin|].
  exfalso. apply (matches_search_false term p Hfalse).
  right. right. right. exists tag. split; [exact Htag|].
  eapply occurs_in_trans; [apply trim_occurs|].
  apply occurs_in_lower, filterTerm_occurs.
Qed.

(** X22: a click on a tag that consists of digits only searches for the
    empty term: the search box is cleared and the first page of all the
    posts is shown, not the posts of the tag. *)
Theorem X22_click_on_digits_shows_first_page
        (st : Script.Blog) (tag : string) :
  all_digits (trim tag) = true ->
  exists st',
    Script.filter_click tag st = Ok st' /\
    Script.searchInput_value st' = EmptyString /\
    Script.currentPage st' = 0 /\
    Script.displayedPosts st' = firstn 5 (Script.allPosts st).
Proof.
  intros Hd. unfold Script.filter_click, Script.filterTerm.
  rewrite (all_digits_strip _ Hd).
  change (trim "") with EmptyString.
  unfold Script.search_input, Script.handleSearch.
  cbn [Script.searchInput_value]. change (trim (toLowerCase "")) with "".
  cbn [String.eqb]. eexists. split; [reflexivity|].
  unfold Script.displayPosts. cbv zeta.
  change (Z.to_nat Script.BLOG_CONFIG.postsPerPage) with 5.
  cbn [Script.allPosts Script.displayedPosts Script.currentPage Nat.mul
       Nat.add].
  destruct (Nat.eqb _ 0); repeat split; reflexivity.
Qed.

End FilterClick.

Lemma X20_witness_ES2015 : Script.filterTerm "ES2015" = "ES".
Proof.
  apply (X20_filter_term_drops_final_digits "ES" "2015");
    [discriminate | reflexivity | reflexivity | reflexivity].
Defined.

Lemma X21_witness_HTML5 :
  exists st',
    Script.filter_click "HTML5" (Examples.blog_of Examples.tagged_posts)
    = Js.Ok st' /\
    map Script.title (Script.displayedPosts st') = ["one"; "three"] /\
    In (Examples.post_titled "one" ["HTML5"]) (Script.displayedPosts st').
Proof.
  destruct (Script.filter_click "HTML5"
              (Examples.blog_of Examples.tagged_posts)) as [st'|e] eqn:E;
    [|vm_compute in E; discriminate E].
  exists st'. split; [reflexivity|]. split.
  - vm_compute in E. injection E as <-. reflexivity.
  - apply (X21_click_on_tag_shows_its_posts
             (Examples.blog_of Examples.tagged_posts) st' "HTML5").
    + vm_compute. discriminate.
    + exact E.
    + now left.
    + now left.
Defined.

Lemma X22_witness_2024 :
  exists st',
    Script.filter_click "2024" (Examples.blog_of Examples.tagged_posts)
    = Js.Ok st' /\
    Script.displayedPosts st' = Examples.tagged_posts.
Proof.
  destruct (X22_click_on_digits_shows_first_page
              (Examples.blog_of Examples.tagged_posts) "2024" eq_refl)
    as [st' [E [_ [_ H]]]].
  exists st'. split; [exact E | exact H].
Defined.

(* ================================================================== *)
(** ** The sidebar *)
(* ================================================================== *)

Section Sidebar.

Import Js Dom.

Variable engine : Js.Engine.

Lemma first_seen_snoc (l : list string) (x : string) :
  Spec.first_seen (l ++ [x]) = set_add String.eqb x (Spec.first_seen l).
Proof. unfold Spec.first_seen. now rewrite fold_left_app. Qed.

Lemma first_seen_NoDup (l : list string) : NoDup (Spec.first_seen l).
Proof.
  unfold Spec.first_seen.
  apply (collect_keys_NoDup String.eqb String.eqb_eq (fun x => x)).
  constructor.
Qed.

Lemma first_seen_In (l : list string) (x : string) :
  In x (Spec.first_seen l) <-> In x l.
Proof.
  unfold Spec.first_seen.
  rewrite (collect_keys_In String.eqb String.eqb_eq (fun x => x)).
  split.
  - intros [[p [Hp <-]]|[]]. exact Hp.
  - intros H. left. now exists x.
Qed.

Lemma occurrences_snoc (l : list string) (x y : string) :
  Spec.occurrences (l ++ [x]) y
  = Spec.occurrences l y + (if string_dec x y then 1 else 0).
Proof.
  unfold Spec.occurrences. rewrite count_occ_app. cbn.
  destruct (string_dec x y); reflexivity.
Qed.

Lemma get_own_map (f : string -> Script.Count) (k : string)
      (l : list string) :
  Script.get_own k (map (fun x => (x, f x)) l)
  = if existsb (String.eqb k) l then Some (f k) else None.
Proof.
  induction l as [|a l IH]; cbn; [reflexivity|].
  rewrite (String.eqb_sym k a). destruct (String.eqb a k) eqn:E; cbn.
  - apply String.eqb_eq in E. now subst.
  - exact IH.
Qed.

Lemma set_own_map (f g : string -> Script.Count) (k : string)
      (v : Script.Count) (l : list string) :
  NoDup l -> g k = v -> (forall x, x <> k -> g x = f x) ->
  Script.set_own k v (map (fun x => (x, f x)) l)
  = map (fun x => (x, g x)) (set_add String.eqb k l).
Proof.
  intros Hnd Hk Hother. induction Hnd as [|a l Ha Hnd IH].
  - cbn. now rewrite Hk.
  - cbn [map Script.set_own]. unfold set_add. cbn [existsb].
    rewrite (String.eqb_sym k a). destruct (String.eqb a k) eqn:E.
    + apply String.eqb_eq in E. subst a. cbn. rewrite Hk. f_equal.
      apply map_ext_in. intros x Hx. rewrite Hother; [reflexivity|].
      intros ->. contradiction.
    + cbn [orb]. rewrite IH. unfold set_add.
      assert (Ga : g a = f a).
      { apply Hother. intros ->. rewrite String.eqb_refl in E.
        discriminate. }
      destruct (existsb (String.eqb k) l); cbn; now rewrite Ga.
Qed.

Lemma count_up_plain (k : string) (p : list string) :
  Spec.plain_key k ->
  Script.count_up k (Spec.counted p) = Spec.counted (p ++ [k]).
Proof.
  intros [_ Hproto]. unfold Script.count_up, Spec.counted.
  rewrite get_own_map, first_seen_snoc.
  assert (G : (fun x => (x, Script.Num
                              (Z.of_nat (Spec.occurrences (p ++ [k]) x))))
              = (fun x => (x, Script.Num
                                (Z.of_nat (Spec.occurrences (p ++ [k]) x)))))
    by reflexivity.
  assert (Hother : forall x, x <> k ->
            Script.Num (Z.of_nat (Spec.occurrences (p ++ [k]) x))
            = Script.Num (Z.of_nat (Spec.occurrences p x))).
  { intros x Hx. rewrite occurrences_snoc.
    destruct (string_dec k x) as [->|_]; [contradiction|].
    now rewrite Nat.add_0_r. }
  assert (Hk : Spec.occurrences (p ++ [k]) k = Spec.occurrences p k + 1).
  { rewrite occurrences_snoc. destruct (string_dec k k); congruence. }
  clear G.
  destruct (existsb (String.eqb k) (Spec.first_seen p)) eqn:E.
  - apply (set_own_map
             (fun x => Script.Num (Z.of_nat (Spec.occurrences p x)))
             (fun x => Script.Num
                         (Z.of_nat (Spec.occurrences (p ++ [k]) x))));
      [apply first_seen_NoDup | | exact Hother].
    rewrite Hk. f_equal. lia.
  - assert (Hnot : ~ In k p).
    { intros Hin. apply (proj2 (first_seen_In _ _)) in Hin.
      apply (existsb_eqb_In String.eqb String.eqb_eq) in Hin. congruence. }
    assert (Hzero : Spec.occurrences p k = 0).
    { unfold Spec.occurrences. now apply count_occ_not_In. }
    assert (E1 : String.eqb k "__proto__" = false).
    { apply String.eqb_neq. intros ->. apply Hproto. cbn. tauto. }
    assert (E2 : includes Script.Object_prototype k = false).
    { destruct (includes Script.Object_prototype k) eqn:I;
        [|reflexivity].
      apply includes_In in I. contradiction. }
    rewrite E1, E2.
    apply (set_own_map
             (fun x => Script.Num (Z.of_nat (Spec.occurrences p x)))
             (fun x => Script.Num
                         (Z.of_nat (Spec.occurrences (p ++ [k]) x))));
      [apply first_seen_NoDup | | exact Hother].
    rewrite Hk, Hzero. reflexivity.
Qed.

Lemma count_all_plain (ks p : list string) :
  (forall k, In k ks -> Spec.plain_key k) ->
  fold_left (fun obj k => Script.count_up k obj) ks (Spec.counted p)
  = Spec.counted (p ++ ks).
Proof.
  revert p. induction ks as [|k ks IH]; intros p H; cbn.
  - now rewrite app_nil_r.
  - rewrite count_up_plain by (apply H; now left).
    rewrite IH by (intros; apply H; now right).
    now rewrite <- app_assoc.
Qed.

Lemma filter_none {A} (f : A -> bool) (l : list A) :
  (forall x, In x l -> f x = false) -> filter f l = [].
Proof.
  induction l as [|a l IH]; intros H; cbn; [reflexivity|].
  rewrite H by now left. apply IH. intros; apply H; now right.
Qed.

Lemma filter_all {A} (f : A -> bool) (l : list A) :
  (forall x, In x l -> f x = true) -> filter f l = l.
Proof.
  induction l as [|a l IH]; intros H; cbn; [reflexivity|].
  rewrite H by now left. f_equal. apply IH. intros; apply H; now right.
Qed.

Lemma Object_entries_plain (obj : Script.Obj) :
  (forall e, In e obj -> Script.array_index (fst e) = None) ->
  Script.Object_entries obj = obj.
Proof.
  intros H. unfold Script.Object_entries.
  rewrite filter_none, filter_all; [reflexivity| |];
    intros e He; unfold Script.is_index; now rewrite (H e He).
Qed.

(** Counts that are all numbers are compared consistently. *)
Lemma by_count_desc_consistent (keys : list string) :
  consistent Script.by_count_desc (Spec.counted keys) = true.
Proof.
  apply consistent_by_value
    with (value := fun e => match snd e with
                            | Script.Num n => (- n)%Z
                            | Script.NotANumber => 0%Z
                            end).
  intros a b Ha Hb. unfold Spec.counted in Ha, Hb.
  apply in_map_iff in Ha, Hb.
  destruct Ha as [x [<- _]], Hb as [y [<- _]].
  unfold Script.by_count_desc. cbn [snd]. f_equal. lia.
Qed.

Lemma entries_ranked (keys : list string) :
  (forall k, In k keys -> Spec.plain_key k) ->
  sort engine Script.by_count_desc
       (Script.Object_entries
          (fold_left (fun obj k => Script.count_up k obj) keys []))
  = map (fun k => (k, Script.Num (Z.of_nat (Spec.occurrences keys k))))
        (sort_order (Spec.by_occurrences keys) (Spec.first_seen keys)).
Proof.
  intros H. change (@nil (string * Script.Count)) with (Spec.counted []).
  rewrite count_all_plain by exact H. cbn [app].
  rewrite Object_entries_plain.
  - rewrite (sort_consistent engine Script.by_count_desc _
               (by_count_desc_consistent keys)).
    unfold Spec.counted. apply sort_order_map. reflexivity.
  - unfold Spec.counted. intros e He. apply in_map_iff in He.
    destruct He as [k [<- Hk]]. cbn.
    apply (proj1 (first_seen_In _ _)) in Hk.
    apply (H k Hk).
Qed.

Lemma ranked_spec (keys l : list string) :
  Permutation (sort_order (Spec.by_occurrences keys) l) l
  /\ StronglySorted
       (fun a b => Spec.occurrences keys b <= Spec.occurrences keys a)
       (sort_order (Spec.by_occurrences keys) l)
  /\ forall n,
       filter (fun k => Nat.eqb (Spec.occurrences keys k) n)
              (sort_order (Spec.by_occurrences keys) l)
       = filter (fun k => Nat.eqb (Spec.occurrences keys k) n) l.
Proof.
  split; [apply sort_order_perm|]. split.
  - assert (S : StronglySorted
                  (fun a b => before (Spec.by_occurrences keys) a b = true)
                  (sort_order (Spec.by_occurrences keys) l)).
    { apply (sort_order_sorted (Spec.by_occurrences keys) (fun _ => True)).
      - intros x y _ _. unfold before, Spec.by_occurrences.
        rewrite Z.leb_gt, Z.leb_le. lia.
      - intros x y z _ _ _. unfold before, Spec.by_occurrences.
        rewrite !Z.leb_le. lia.
      - now apply Forall_forall. }
    induction S as [|a s S IH Ha]; constructor; [exact IH|].
    rewrite Forall_forall in *. intros b Hb. specialize (Ha b Hb).
    unfold before, Spec.by_occurrences in Ha. apply Z.leb_le in Ha. lia.
  - intros n. apply sort_order_stable. intros x y _ _ Hx Hy.
    apply Nat.eqb_eq in Hx, Hy. unfold before, Spec.by_occurrences.
    apply Z.leb_le. lia.
Qed.

Lemma fold_left_flat_map {A B C} (f : A -> C -> A) (g : B -> list C)
      (l : list B) (a : A) :
  fold_left (fun acc p => fold_left f (g p) acc) l a
  = fold_left f (flat_map g l) a.
Proof.
  revert a. induction l as [|p l IH]; intros a; cbn; [reflexivity|].
  now rewrite fold_left_app, IH.
Qed.

Lemma fold_left_keys {A B C} (f : A -> C -> A) (g : B -> C)
      (l : list B) (a : A) :
  fold_left (fun acc p => f acc (g p)) l a = fold_left f (map g l) a.
Proof.
  revert a. induction l as [|p l IH]; intros a; cbn; [reflexivity|].
  apply IH.
Qed.

(** X23.  [updateTags]: where no tag of a post is an array index or a
    name inherited from [Object.prototype], the sidebar lists the first
    ten of the distinct tags ranked by their number of occurrences over
    all posts (a tag repeated in one post counts each time), most
    frequent first; tags of equal frequency keep the order in which
    they were first met. *)
Theorem X23_sidebar_tags_ranked_by_frequency (st : Script.Blog) :
  let all := flat_map Script.tags (Script.allPosts st) in
  (forall tag, In tag all -> Spec.plain_key tag) ->
  exists ranked : list string,
    Script.updateTags engine st = firstn 10 ranked
    /\ Permutation ranked (Spec.first_seen all)
    /\ StronglySorted
         (fun a b => Spec.occurrences all b <= Spec.occurrences all a)
         ranked
    /\ forall n,
         filter (fun tag => Nat.eqb (Spec.occurrences all tag) n) ranked
         = filter (fun tag => Nat.eqb (Spec.occurrences all tag) n)
                  (Spec.first_seen all).
Proof.
  intros all H.
  exists (sort_order (Spec.by_occurrences all) (Spec.first_seen all)).
  split; [|apply ranked_spec].
  unfold Script.updateTags. cbv zeta.
  rewrite (fold_left_flat_map (fun tags tag => Script.count_up tag tags)
                              Script.tags).
  fold all. rewrite (entries_ranked all H).
  change (Z.to_nat Script.BLOG_CONFIG.maxPopularTags) with 10.
  rewrite <- firstn_map, map_map. cbn [fst]. now rewrite map_id.
Qed.

(** X24.  [updateCategories]: where no category is an array index or a
    name inherited from [Object.prototype], the sidebar lists every
    distinct category once with the number of its posts, a missing
    category counted under the name null, the most frequent first;
    categories of equal frequency keep the order in which they were
    first met. *)
Theorem X24_sidebar_categories_ranked_by_frequency (st : Script.Blog) :
  let all :=
    map (fun post => ToString (Script.category post)) (Script.allPosts st) in
  (forall name, In name all -> Spec.plain_key name) ->
  exists ranked : list string,
    Script.updateCategories engine st
    = map (fun name =>
             (name, Script.Num (Z.of_nat (Spec.occurrences all name))))
          ranked
    /\ Permutation ranked (Spec.first_seen all)
    /\ StronglySorted
         (fun a b => Spec.occurrences all b <= Spec.occurrences all a)
         ranked
    /\ forall n,
         filter (fun name => Nat.eqb (Spec.occurrences all name) n) ranked
         = filter (fun name => Nat.eqb (Spec.occurrences all name) n)
                  (Spec.first_seen all).
Proof.
  intros all H.
  exists (sort_order (Spec.by_occurrences all) (Spec.first_seen all)).
  split; [|apply ranked_spec].
  unfold Script.updateCategories. cbv zeta.
  rewrite (fold_left_keys (fun obj k => Script.count_up k obj)
                          (fun post => ToString (Script.category post))).
  fold all. apply (entries_ranked all H).
Qed.

End Sidebar.

Lemma X23_witness_sidebar_posts :
  exists ranked : list string,
    Script.updateTags Js.V8 (Examples.blog_of Examples.sidebar_posts)
    = firstn 10 ranked
    /\ Permutation ranked ["css"; "html"; "js"; "rocq"]
    /\ Script.updateTags Js.V8 (Examples.blog_of Examples.sidebar_posts)
       = ["html"; "js"; "css"; "rocq"].
Proof.
  pose proof (X23_sidebar_tags_ranked_by_frequency
                Js.V8 (Examples.blog_of Examples.sidebar_posts)) as T.
  cbv zeta in T. destruct T as [ranked [E [P _]]].
  - intros tag Hin. vm_compute in Hin.
    repeat (destruct Hin as [<-|Hin];
            [split; [reflexivity | vm_compute; intuition discriminate]|]).
    contradiction.
  - exists ranked. split; [exact E|]. split; [exact P | reflexivity].
Defined.

Lemma X24_witness_sidebar_categories :
  exists ranked : list string,
    Script.updateCategories Js.V8 (Examples.blog_of Examples.sidebar_categories)
    = map (fun name =>
             (name,
              Script.Num
                (Z.of_nat
                   (Spec.occurrences ["General"; "null"; "null"] name))))
          ranked
    /\ Permutation ranked ["General"; "null"]
    /\ Script.updateCategories Js.V8
         (Examples.blog_of Examples.sidebar_categories)
       = [("null", Script.Num 2); ("General", Script.Num 1)].
Proof.
  pose proof (X24_sidebar_categories_ranked_by_frequency
                Js.V8 (Examples.blog_of Examples.sidebar_categories)) as T.
  cbv zeta in T. destruct T as [ranked [E [P _]]].
  - intros name Hin. vm_compute in Hin.
    repeat (destruct Hin as [<-|Hin];
            [split; [reflexivity | vm_compute; intuition discriminate]|]).
    contradiction.
  - exists ranked. split; [exact E|]. split; [exact P | reflexivity].
Defined.

(** Outside the premise: a tag named [valueOf] finds the inherited
    method, its count is not a number and compares as NaN with the
    others.  Chrome then leaves the tags as they were first met, the tag
    met twice last. *)
Lemma tags_with_inherited_name :
  ~ Spec.plain_key "valueOf" /\
  Script.updateTags Js.V8 (Examples.blog_of Examples.inherited_tag_posts)
  = ["css"; "valueOf"; "js"].
Proof.
  split; [|reflexivity]. intros [_ H]. apply H. vm_compute. tauto.
Qed.
